(** * The data-cleaning pipeline of [services/data_cleaning.py]

    A shallow embedding of the five cleaning passes ([_handle_missing_values],
    [_normalize_product_names], [_standardize_dates], [_remove_duplicates],
    [_handle_outliers]) and of [clean_data], with the properties the
    specification states about them.

    Modelling conventions.
    - A DataFrame is a list of rows in index order; a boolean mask is a
      [list bool] aligned with it, computed from the table as it is at that
      statement; [df.loc[mask, col] = e] is [loc_set].
    - In the embedding of the whole pipeline a float64 cell is [F64.t]: an
      exact rational, one of the two infinities, or NaN (pandas' missing
      value).  Arithmetic on finite cells is exact; the special values follow
      IEEE 754, with a single unsigned zero.  What is stated on it rests on
      no identity of exact arithmetic: which records are kept, in which
      order, which field a pass writes and from which.  The two numeric
      passes are embedded a second time in [Binary64], with binary64 cells
      and their rounding; what is stated about the values they compute is
      stated there.  Numeric columns are taken to be float64 columns.
    - An object cell (ids, product name, raw date) is [option string], [None]
      being NaN.  A string is a sequence of bytes, and [Py] and [Re] are
      Python's functions on ASCII text; where a statement about every name
      depends on them it is made for ASCII names, and [Unicode] has the code
      points that show what changes beyond ASCII.
    - [print] statements that report a count are kept as a log of [event]s;
      exceptions are the [Raise] results of the monad [M]. *)

From Stdlib Require Import QArith Qcanon Qround Qcabs ZArith Lia.
From Stdlib Require Import List Bool Ascii String.
Import ListNotations.

Set Implicit Arguments.

Close Scope Qc_scope.
Close Scope Q_scope.

(** ** Exceptions and the printed log *)

Inductive exn : Type :=
| TypeError
| ValueError
| AttributeError
| CastError.      (* the exception of an unsafe cast to Int64: TypeError
                    "cannot safely cast non-equivalent float64 to int64",
                    OverflowError for an infinity in recent pandas *)

Inductive result (A : Type) : Type :=
| Ok (a : A)
| Raise (e : exn).

Arguments Ok {A} a.
Arguments Raise {A} e.

(** The counts the passes print, in the order of the [print] calls. *)
Inductive event : Type :=
| Removed_missing (n : nat)        (* "Removed n rows with missing critical data" *)
| Removed_dates (n : nat)          (* "Removed n rows with invalid dates" *)
| Removed_duplicates (n : nat)     (* "Removed n duplicate rows" *)
| Found_mismatches (n : nat)       (* "Found n mismatches:" *)
| Resolving_conflicts (n : nat)    (* "Resolving n conflicting rows ..." *)
| Remaining_mismatches (n : nat)   (* "Remaining mismatches after adjustment: n" *)
| Removed_outliers (n : nat)       (* "Removed n outlier rows" *)
| Rows_removed (n : nat).          (* "Rows removed: n" *)

(** A computation prints a log and then returns or raises. *)
Definition M (A : Type) : Type := (list event * result A)%type.

Definition ret {A} (a : A) : M A := ([], Ok a).

Definition bind {A B} (m : M A) (f : A -> M B) : M B :=
  match m with
  | (l, Ok a) => let (l', r) := f a in (l ++ l', r)
  | (l, Raise e) => (l, Raise e)
  end.

Definition print (e : event) : M unit := ([e], Ok tt).

Definition lift {A} (r : result A) : M A := ([], r).

Declare Scope py_scope.
Delimit Scope py_scope with py.
Notation "x <- m ;; k" := (bind m (fun x => k))
  (at level 61, m at next level, right associativity) : py_scope.
Notation "m ;;; k" := (bind m (fun _ => k))
  (at level 61, right associativity) : py_scope.

Definition returned {A} (m : M A) : result A := snd m.
Definition printed {A} (m : M A) : list event := fst m.

(** [Series.apply f]: the function is called on the cells in index order and
    the first exception ends the loop. *)
Fixpoint apply_rows {A B} (f : A -> result B) (xs : list A) : result (list B) :=
  match xs with
  | [] => Ok []
  | x :: xs' =>
      match f x with
      | Raise e => Raise e
      | Ok y =>
          match apply_rows f xs' with
          | Raise e => Raise e
          | Ok ys => Ok (y :: ys)
          end
      end
  end.

(** ** float64 cells *)

Module F64.

Open Scope Qc_scope.

Inductive t : Type :=
| NaN
| PInf
| NInf
| Fin (q : Qc).

Definition of_Z (z : Z) : t := Fin (Q2Qc (inject_Z z)).
Definition isna (x : t) : bool :=
  match x with NaN => true | _ => false end.

Definition notna (x : t) : bool := negb (isna x).

Definition isfinite (x : t) : bool :=
  match x with Fin _ => true | _ => false end.

Definition Qc_eqb (a b : Qc) : bool :=
  match a ?= b with Eq => true | _ => false end.

Definition Qc_leb (a b : Qc) : bool :=
  match a ?= b with Gt => false | _ => true end.

Definition Qc_ltb (a b : Qc) : bool :=
  match a ?= b with Lt => true | _ => false end.

(** The infinity with the sign of a comparison against zero; a zero gives
    NaN (0 * inf, 0 / 0). *)
Definition signed_inf (c : comparison) : t :=
  match c with Gt => PInf | Lt => NInf | Eq => NaN end.

Definition mul (x y : t) : t :=
  match x, y with
  | NaN, _ | _, NaN => NaN
  | Fin a, Fin b => Fin (a * b)
  | Fin a, PInf | PInf, Fin a => signed_inf (a ?= 0)
  | Fin a, NInf | NInf, Fin a => signed_inf (CompOpp (a ?= 0))
  | PInf, PInf | NInf, NInf => PInf
  | PInf, NInf | NInf, PInf => NInf
  end.

(** Float division does not raise: a finite value over zero is an infinity
    (NaN for 0/0). *)
Definition div (x y : t) : t :=
  match x, y with
  | NaN, _ | _, NaN => NaN
  | Fin a, Fin b => if Qc_eqb b 0 then signed_inf (a ?= 0) else Fin (a / b)
  | Fin _, PInf | Fin _, NInf => Fin 0
  | PInf, Fin b => if Qc_leb 0 b then PInf else NInf
  | NInf, Fin b => if Qc_leb 0 b then NInf else PInf
  | _, _ => NaN
  end.

(** [x > y]; false as soon as one side is NaN. *)
Definition gt (x y : t) : bool :=
  match x, y with
  | Fin a, Fin b => Qc_ltb b a
  | PInf, Fin _ | PInf, NInf | Fin _, NInf => true
  | _, _ => false
  end.

(** [x == y] on floats; NaN differs from itself. *)
Definition eq_ieee (x y : t) : bool :=
  match x, y with
  | Fin a, Fin b => Qc_eqb a b
  | PInf, PInf | NInf, NInf => true
  | _, _ => false
  end.

(** Equality of cells as data (the one [drop_duplicates] uses: NaN is equal
    to NaN). *)
Definition eqb (x y : t) : bool :=
  match x, y with
  | NaN, NaN => true
  | _, _ => eq_ieee x y
  end.

(** [np.isclose(x, y, rtol=0, atol=tol)]: within [tol] when both are finite,
    otherwise [x == y]. *)
Definition isclose (tol : Qc) (x y : t) : bool :=
  match x, y with
  | Fin a, Fin b => Qc_leb (Qcabs (a - b)) tol
  | _, _ => eq_ieee x y
  end.

(** Round half to even, as [np.rint]. *)
Definition rint (q : Qc) : Z :=
  let f := Qfloor q in
  match Qccompare (q - Q2Qc (inject_Z f))%Qc (Q2Qc (1 # 2)) with
  | Lt => f
  | Gt => (f + 1)%Z
  | Eq => if Z.even f then f else (f + 1)%Z
  end.

Definition pow10 (decimals : nat) : Z := Z.pow 10 (Z.of_nat decimals).

(** [Series.round(decimals)]: scale, [rint], scale back; the special values
    are left as they are. *)
Definition round (decimals : nat) (x : t) : t :=
  match x with
  | Fin q =>
      let s := Q2Qc (inject_Z (pow10 decimals)) in
      Fin (Q2Qc (inject_Z (rint (q * s))) / s)
  | _ => x
  end.

Definition int64_min : Z := (- 2 ^ 63)%Z.
Definition int64_max : Z := (2 ^ 63 - 1)%Z.

Definition is_integral (q : Qc) : bool :=
  Qc_eqb (Q2Qc (inject_Z (Qfloor q))) q.

(** [.astype("Int64")] on a float column: NaN becomes the missing value
    [pd.NA] (kept as [NaN] here); a value that is not an int64 (an infinity,
    a fraction, out of range) makes pandas raise [CastError]. *)
Definition astype_Int64 (x : t) : result t :=
  match x with
  | NaN => Ok NaN
  | Fin q =>
      if is_integral q && (int64_min <=? Qfloor q)%Z && (Qfloor q <=? int64_max)%Z
      then Ok x else Raise CastError
  | _ => Raise CastError
  end.

(** [.astype(int)] on an Int64 column: a missing value cannot be
    converted. *)
Definition astype_int (x : t) : result t :=
  match x with
  | NaN => Raise ValueError
  | _ => Ok x
  end.

End F64.

(** ** Python strings (ASCII) *)

Module Py.

Open Scope char_scope.

Definition is_upper (c : ascii) : bool :=
  let n := nat_of_ascii c in (65 <=? n)%nat && (n <=? 90)%nat.

Definition is_lower (c : ascii) : bool :=
  let n := nat_of_ascii c in (97 <=? n)%nat && (n <=? 122)%nat.

(** [c.isalpha()], which for ASCII is also "c is a cased character". *)
Definition is_cased (c : ascii) : bool := is_upper c || is_lower c.

Definition is_digit (c : ascii) : bool :=
  let n := nat_of_ascii c in (48 <=? n)%nat && (n <=? 57)%nat.

(** [c.isspace()] and the regex class [\s] on a str: tab, newline, vertical
    tab, form feed, carriage return, the four separators 0x1c-0x1f, space. *)
Definition is_space (c : ascii) : bool :=
  let n := nat_of_ascii c in
  ((9 <=? n)%nat && (n <=? 13)%nat) || ((28 <=? n)%nat && (n <=? 32)%nat).

Definition lower_char (c : ascii) : ascii :=
  if is_upper c then ascii_of_nat (nat_of_ascii c + 32) else c.

Definition upper_char (c : ascii) : ascii :=
  if is_lower c then ascii_of_nat (nat_of_ascii c - 32) else c.

(** [s.lower()] *)
Fixpoint lower (s : string) : string :=
  match s with
  | EmptyString => EmptyString
  | String c s' => String (lower_char c) (lower s')
  end.

(** [s.lstrip()] *)
Fixpoint lstrip (s : string) : string :=
  match s with
  | EmptyString => EmptyString
  | String c s' => if is_space c then lstrip s' else s
  end.

(** [s.rstrip()]: a character is dropped when it is white space and
    everything after it has been dropped. *)
Fixpoint rstrip (s : string) : string :=
  match s with
  | EmptyString => EmptyString
  | String c s' =>
      match rstrip s' with
      | EmptyString => if is_space c then EmptyString else String c EmptyString
      | r => String c r
      end
  end.

(** [s.strip()] *)
Definition strip (s : string) : string := rstrip (lstrip s).

(** [s.title()]: a cased character is upper-cased when the character before
    it is not cased, and lower-cased otherwise. *)
Fixpoint title_from (previous_is_cased : bool) (s : string) : string :=
  match s with
  | EmptyString => EmptyString
  | String c s' =>
      String (if previous_is_cased then lower_char c else upper_char c)
             (title_from (is_cased c) s')
  end.

Definition title (s : string) : string := title_from false s.

End Py.

(** ** The regular expressions of the product table

    The patterns of [PRODUCT_MAPPING] use literal characters and one optional
    character set, [[-\s]?].  [search] is [re.search(pattern, s,
    re.IGNORECASE)] as a truth value. *)

Module Re.

Inductive set_item : Type :=
| Item_char (c : ascii)     (* a character listed in the set *)
| Item_space.               (* [\s] *)

Inductive atom : Type :=
| Char (c : ascii)                        (* c *)
| Optional_set (items : list set_item).   (* [items]? *)

Definition pattern : Type := list atom.

(** Under IGNORECASE two characters match when they agree up to case. *)
Definition char_matches (c a : ascii) : bool :=
  Ascii.eqb (Py.lower_char c) (Py.lower_char a).

Definition item_matches (i : set_item) (a : ascii) : bool :=
  match i with
  | Item_char c => char_matches c a
  | Item_space => Py.is_space a
  end.

Definition in_set (items : list set_item) (a : ascii) : bool :=
  existsb (fun i => item_matches i a) items.

(** Does the pattern match a prefix of [s]?  The optional set is greedy:
    taking a character is tried before skipping the set. *)
Fixpoint match_here (p : pattern) (s : string) : bool :=
  match p with
  | [] => true
  | Char c :: p' =>
      match s with
      | String a s' => char_matches c a && match_here p' s'
      | EmptyString => false
      end
  | Optional_set items :: p' =>
      match s with
      | String a s' => (in_set items a && match_here p' s') || match_here p' s
      | EmptyString => match_here p' s
      end
  end.

(** [re.search]: a match starting at some position of [s]. *)
Fixpoint search (p : pattern) (s : string) : bool :=
  match_here p s
  || match s with
     | String _ s' => search p s'
     | EmptyString => false
     end.

(** The pattern of a literal word. *)
Fixpoint lit (w : string) : pattern :=
  match w with
  | EmptyString => []
  | String c w' => Char c :: lit w'
  end.

End Re.

(** ** [services/config.py] *)

Module Config.

Open Scope string_scope.

(** [PRODUCT_MAPPING], in the insertion order of the dict, which is the
    order [.items()] iterates in. *)
Definition PRODUCT_MAPPING : list (Re.pattern * string) :=
  [ ((Re.lit "usb" ++ [Re.Optional_set [Re.Item_char "-"; Re.Item_space]] ++ Re.lit "c")%list,
                              "USB-C Cable");      (* usb[-\s]?c *)
    (Re.lit "usbc",           "USB-C Cable");
    (Re.lit "webcam",         "Webcam");
    (Re.lit "mouse",          "Mouse");
    (Re.lit "keyboard",       "Keyboard");
    (Re.lit "laptop",         "Laptop");
    (Re.lit "monitor",        "Monitor");
    (Re.lit "tablet",         "Tablet");
    (Re.lit "printer",        "Printer");
    (Re.lit "headphones",     "Headphones");
    (Re.lit "charger",        "Charger");
    (Re.lit "smartphone",     "Smartphone") ].

End Config.

(** ** The record table *)

(** One transaction.  [D] is the type of the [transaction_date] cell: text
    before the date pass, a calendar date after it. *)
Record row (D : Type) : Type := mkRow {
  transaction_id : option string;
  customer_id : option string;
  product_id : option string;
  product_name : option string;
  quantity : F64.t;
  price_per_unit : F64.t;
  total_price : F64.t;
  transaction_date : D
}.

Definition table (D : Type) : Type := list (row D).

Section Columns.

Variable D : Type.

Definition set_quantity (v : F64.t) (r : row D) : row D :=
  mkRow (transaction_id r) (customer_id r) (product_id r) (product_name r)
        v (price_per_unit r) (total_price r) (transaction_date r).

Definition set_price_per_unit (v : F64.t) (r : row D) : row D :=
  mkRow (transaction_id r) (customer_id r) (product_id r) (product_name r)
        (quantity r) v (total_price r) (transaction_date r).

Definition set_total_price (v : F64.t) (r : row D) : row D :=
  mkRow (transaction_id r) (customer_id r) (product_id r) (product_name r)
        (quantity r) (price_per_unit r) v (transaction_date r).

Definition set_product_name (v : option string) (r : row D) : row D :=
  mkRow (transaction_id r) (customer_id r) (product_id r) v
        (quantity r) (price_per_unit r) (total_price r) (transaction_date r).

(** [df.loc[mask, col] = e]: the rows selected by the mask get the cell
    computed from the row itself; mask and table have the same index. *)
Fixpoint loc_set (mask : list bool) (assign : row D -> row D) (df : table D)
  : table D :=
  match mask, df with
  | b :: mask', r :: df' =>
      (if b then assign r else r) :: loc_set mask' assign df'
  | _, _ => df
  end.

(** [df[mask]] / [df.dropna(...)]: the rows whose mask bit is set. *)
Fixpoint select (mask : list bool) (df : table D) : table D :=
  match mask, df with
  | b :: mask', r :: df' =>
      if b then r :: select mask' df' else select mask' df'
  | _, _ => []
  end.

(** Element-wise [&], [|] and [~] on masks. *)
Fixpoint mask_and (m1 m2 : list bool) : list bool :=
  match m1, m2 with
  | a :: m1', b :: m2' => (a && b) :: mask_and m1' m2'
  | _, _ => []
  end.

Fixpoint mask_or (m1 m2 : list bool) : list bool :=
  match m1, m2 with
  | a :: m1', b :: m2' => (a || b) :: mask_or m1' m2'
  | _, _ => []
  end.

Definition mask_not (m : list bool) : list bool := map negb m.

(** [mask.sum()] and [mask.any()] *)
Definition mask_sum (m : list bool) : nat := List.length (filter (fun b => b) m).
Definition mask_any (m : list bool) : bool := existsb (fun b => b) m.

(** A column test as a mask, e.g. [df["quantity"].isna()]. *)
Definition column (test : row D -> bool) (df : table D) : list bool :=
  map test df.

End Columns.

Arguments loc_set {D} mask assign df.
Arguments select {D} mask df.
Arguments column {D} test df.
Arguments set_quantity {D} v r.
Arguments set_price_per_unit {D} v r.
Arguments set_total_price {D} v r.
Arguments set_product_name {D} v r.

Local Open Scope py_scope.

(** ** Pass 1: [_handle_missing_values] *)

Section MissingValues.

Variable D : Type.

Definition _handle_missing_values (df : table D) : M (table D) :=
  let initial_count := List.length df in
  (* Price per unit missing: price_per_unit = total_price / quantity *)
  let mask_p :=
    mask_and (mask_and (column (fun r => F64.isna (price_per_unit r)) df)
                       (column (fun r => F64.notna (quantity r)) df))
             (column (fun r => F64.notna (total_price r)) df) in
  let df :=
    loc_set mask_p
      (fun r => set_price_per_unit (F64.div (total_price r) (quantity r)) r) df in
  (* Quantity missing: quantity = total_price / price_per_unit *)
  let mask_q :=
    mask_and (mask_and (column (fun r => F64.isna (quantity r)) df)
                       (column (fun r => F64.notna (price_per_unit r)) df))
             (column (fun r => F64.notna (total_price r)) df) in
  let df :=
    loc_set mask_q
      (fun r => set_quantity (F64.div (total_price r) (price_per_unit r)) r) df in
  (* Total price missing: total_price = quantity * price_per_unit *)
  let mask_t :=
    mask_and (mask_and (column (fun r => F64.isna (total_price r)) df)
                       (column (fun r => F64.notna (quantity r)) df))
             (column (fun r => F64.notna (price_per_unit r)) df) in
  let df :=
    loc_set mask_t
      (fun r => set_total_price (F64.mul (quantity r) (price_per_unit r)) r) df in
  (* Remove rows where critical data is still missing *)
  let df :=
    select (column (fun r => F64.notna (price_per_unit r)
                             && F64.notna (quantity r)
                             && F64.notna (total_price r)) df) df in
  print (Removed_missing (initial_count - List.length df)) ;;;
  ret df.

End MissingValues.

Arguments _handle_missing_values {D} df.

(** ** Pass 2: [_normalize_product_names] *)

Section ProductNames.

Variable D : Type.

(** [.str.strip()] and [.str.lower()] keep a missing cell missing. *)
Definition str_strip (c : option string) : option string := option_map Py.strip c.
Definition str_lower (c : option string) : option string := option_map Py.lower c.

(** The inner function [normalize_product_name], as the loop over
    [mapping.items()].  [re.search] on a cell that is not a string raises
    TypeError; with no rule left, [name.title()] on such a cell raises
    AttributeError. *)
Fixpoint normalize_with (mapping : list (Re.pattern * string))
         (name : option string) : result string :=
  match mapping with
  | [] =>
      match name with
      | Some s => Ok (Py.title s)
      | None => Raise AttributeError
      end
  | (pattern, replacement) :: rest =>
      match name with
      | None => Raise TypeError
      | Some s =>
          if Re.search pattern s then Ok replacement
          else normalize_with rest name
      end
  end.

Definition normalize_product_name : option string -> result string :=
  normalize_with Config.PRODUCT_MAPPING.

Definition _normalize_product_names (df : table D) : M (table D) :=
  (* First, clean whitespace and convert to lowercase *)
  let df :=
    map (fun r => set_product_name (str_lower (str_strip (product_name r))) r) df in
  df <- lift (apply_rows
                (fun r =>
                   match normalize_product_name (product_name r) with
                   | Ok name => Ok (set_product_name (Some name) r)
                   | Raise e => Raise e
                   end) df) ;;
  ret df.

End ProductNames.

Arguments _normalize_product_names {D} df.

(** ** [datetime.strptime] for the directives the date pass uses

    [strptime] turns the format into a regular expression ([%Y] four digits,
    [%y] two digits, [%m] and [%d] the alternatives below, [%B] the month
    names of the C locale, a run of white space [\s+], any other character
    itself), matches it at the start of the text with IGNORECASE, takes the
    first match in backtracking order, and raises ValueError when there is no
    match, when text remains after the match, or when the fields are not a
    date of the calendar. *)

Module Datetime.

Open Scope Z_scope.

Record date : Type := mkDate { year : Z; month : Z; day : Z }.

Definition date_eqb (a b : date) : bool :=
  (year a =? year b) && (month a =? month b) && (day a =? day b).

Definition is_leap (y : Z) : bool :=
  (y mod 4 =? 0) && (negb (y mod 100 =? 0) || (y mod 400 =? 0)).

Definition days_in_month (y m : Z) : Z :=
  if m =? 2 then (if is_leap y then 29 else 28)
  else if (m =? 4) || (m =? 6) || (m =? 9) || (m =? 11) then 30
  else 31.

(** The checks of the [date(year, month, day)] constructor. *)
Definition valid_date (y m d : Z) : bool :=
  (1 <=? y) && (y <=? 9999) && (1 <=? m) && (m <=? 12)
  && (1 <=? d) && (d <=? days_in_month y m).

Inductive directive : Type :=
| Dir_Y                 (* %Y  \d\d\d\d *)
| Dir_m                 (* %m  1[0-2]|0[1-9]|[1-9] *)
| Dir_d                 (* %d  3[0-1]|[1-2]\d|0[1-9]|[1-9]| [1-9] *)
| Dir_y                 (* %y  \d\d *)
| Dir_B                 (* %B  the month names *)
| Literal (c : ascii)
| Whitespace.           (* \s+ *)

(** [TimeRE.pattern]: the directives of a format string.  A run of white
    space in the format is one [\s+]; an unknown directive or a [%] at the
    end is a ValueError. *)
Fixpoint compile_from (in_space : bool) (fmt : string) : result (list directive) :=
  let cons d r :=
    match r with Ok ds => Ok (d :: ds) | Raise e => Raise e end in
  match fmt with
  | EmptyString => Ok []
  | String c rest =>
      if Py.is_space c then
        (if in_space then compile_from true rest
         else cons Whitespace (compile_from true rest))
      else if Ascii.eqb c "%" then
        match rest with
        | EmptyString => Raise ValueError
        | String k rest' =>
            if Ascii.eqb k "Y" then cons Dir_Y (compile_from false rest')
            else if Ascii.eqb k "m" then cons Dir_m (compile_from false rest')
            else if Ascii.eqb k "d" then cons Dir_d (compile_from false rest')
            else if Ascii.eqb k "y" then cons Dir_y (compile_from false rest')
            else if Ascii.eqb k "B" then cons Dir_B (compile_from false rest')
            else if Ascii.eqb k "%" then cons (Literal "%") (compile_from false rest')
            else Raise ValueError
        end
      else cons (Literal c) (compile_from false rest)
  end.

Definition compile (fmt : string) : result (list directive) :=
  compile_from false fmt.

(** Character classes and the alternatives built from them. *)
Definition between (lo hi : ascii) (c : ascii) : bool :=
  (nat_of_ascii lo <=? nat_of_ascii c)%nat && (nat_of_ascii c <=? nat_of_ascii hi)%nat.

Definition exactly (a : ascii) (c : ascii) : bool := Ascii.eqb a c.

(** The text matched by a sequence of classes, and what follows it. *)
Fixpoint match_classes (cs : list (ascii -> bool)) (s : string)
  : option (string * string) :=
  match cs with
  | [] => Some (EmptyString, s)
  | cl :: cs' =>
      match s with
      | EmptyString => None
      | String c s' =>
          if cl c then
            match match_classes cs' s' with
            | Some (m, rest) => Some (String c m, rest)
            | None => None
            end
          else None
      end
  end.

(** The matches of [a1|a2|...], in the order the regex engine tries them. *)
Definition alternatives (alts : list (list (ascii -> bool))) (s : string)
  : list (string * string) :=
  flat_map (fun a => match match_classes a s with
                     | Some x => [x]
                     | None => []
                     end) alts.

(** [int(text)] for a text of digits with, possibly, a leading space. *)
Fixpoint int_from (acc : Z) (text : string) : Z :=
  match text with
  | EmptyString => acc
  | String c text' =>
      if Py.is_digit c
      then int_from (10 * acc + Z.of_nat (nat_of_ascii c - 48)) text'
      else int_from acc text'
  end.

Definition int (text : string) : Z := int_from 0 text.

Definition digit : ascii -> bool := Py.is_digit.

Definition re_Y := [[digit; digit; digit; digit]].
Definition re_y := [[digit; digit]].
Definition re_m :=
  [ [exactly "1"; between "0" "2"]; [exactly "0"; between "1" "9"]; [between "1" "9"] ].
Definition re_d :=
  [ [exactly "3"; between "0" "1"]; [between "1" "2"; digit];
    [exactly "0"; between "1" "9"]; [between "1" "9"];
    [exactly " "; between "1" "9"] ].

(** The names of [%B] with their month, longest first as the regex lists
    them (a stable sort of January..December by decreasing length). *)
Definition month_names : list (string * Z) :=
  [ ("september"%string, 9); ("february"%string, 2); ("november"%string, 11);
    ("december"%string, 12); ("january"%string, 1); ("october"%string, 10);
    ("august"%string, 8); ("march"%string, 3); ("april"%string, 4);
    ("june"%string, 6); ("july"%string, 7); ("may"%string, 5) ].

(** What is left of [s] after the word [w], compared without case. *)
Fixpoint after_word (w s : string) : option string :=
  match w with
  | EmptyString => Some s
  | String a w' =>
      match s with
      | EmptyString => None
      | String c s' =>
          if Ascii.eqb (Py.lower_char a) (Py.lower_char c)
          then after_word w' s' else None
      end
  end.

(** The remainders after one or more white-space characters, longest run
    first. *)
Fixpoint after_spaces (s : string) : list string :=
  match s with
  | EmptyString => []
  | String c s' => if Py.is_space c then after_spaces s' ++ [s'] else []
  end.

(** The fields found so far: year, month, day. *)
Definition found : Type := (Z * Z * Z)%type.

Definition match_directive (d : directive) (acc : found) (s : string)
  : list (found * string) :=
  let '(y, m, dd) := acc in
  match d with
  | Dir_Y => map (fun '(text, rest) => ((int text, m, dd), rest)) (alternatives re_Y s)
  | Dir_y =>
      map (fun '(text, rest) =>
             let v := int text in
             (((if v <=? 68 then v + 2000 else v + 1900), m, dd), rest))
          (alternatives re_y s)
  | Dir_m => map (fun '(text, rest) => ((y, int text, dd), rest)) (alternatives re_m s)
  | Dir_d => map (fun '(text, rest) => ((y, m, int text), rest)) (alternatives re_d s)
  | Dir_B =>
      flat_map (fun '(name, k) =>
                  match after_word name s with
                  | Some rest => [((y, k, dd), rest)]
                  | None => []
                  end) month_names
  | Literal c =>
      match s with
      | String a rest =>
          if Ascii.eqb (Py.lower_char c) (Py.lower_char a) then [(acc, rest)] else []
      | EmptyString => []
      end
  | Whitespace => map (fun rest => (acc, rest)) (after_spaces s)
  end.

(** All the ways the directives match a prefix of [s], in backtracking
    order. *)
Fixpoint match_format (ds : list directive) (acc : found) (s : string)
  : list (found * string) :=
  match ds with
  | [] => [(acc, s)]
  | d :: ds' =>
      flat_map (fun '(acc', s') => match_format ds' acc' s') (match_directive d acc s)
  end.

(** [datetime.strptime(data_string, format).date()] *)
Definition strptime (data_string format : string) : result date :=
  match compile format with
  | Raise e => Raise e
  | Ok ds =>
      match match_format ds (1900, 1, 1) data_string with
      | [] => Raise ValueError                     (* does not match format *)
      | ((y, m, d), rest) :: _ =>
          match rest with
          | String _ _ => Raise ValueError         (* unconverted data remains *)
          | EmptyString =>
              if valid_date y m d then Ok (mkDate y m d) else Raise ValueError
          end
      end
  end.

End Datetime.

(** ** Pass 3: [_standardize_dates] *)

Section Dates.

Import Datetime.
Open Scope string_scope.

Definition formats : list string :=
  [ "%Y-%m-%d";     (* 2025-03-09 *)
    "%Y/%m/%d";     (* 2025/03/09 *)
    "%d/%m/%Y";     (* 09/03/2025 *)
    "%m/%d/%Y";     (* 03/09/2025 *)
    "%B %d, %Y";    (* March 09, 2025 *)
    "%d-%m-%y";     (* 09-03-25 *)
    "%m/%d/%y" ].   (* 03/09/25 *)

(** The [for fmt in formats] loop: a ValueError of [strptime] goes on with
    the next format, any other exception leaves the loop; a parsed date is
    returned only when its year is reasonable. *)
Fixpoint try_formats (fmts : list string) (date_str : string)
  : result (option date) :=
  match fmts with
  | [] => Ok None                                   (* return np.nan *)
  | fmt :: rest =>
      match strptime date_str fmt with
      | Ok parsed_date =>
          if ((1900 <=? year parsed_date) && (year parsed_date <=? 2030))%Z
          then Ok (Some parsed_date)
          else try_formats rest date_str
      | Raise ValueError => try_formats rest date_str
      | Raise e => Raise e
      end
  end.

Definition parse_date (date_str : option string) : result (option date) :=
  match date_str with
  | None => Ok None                                  (* pd.isna(date_str) *)
  | Some s =>
      if String.eqb s "Invalid Date" then Ok None
      else try_formats formats s
  end.

Definition set_transaction_date {D D'} (v : D') (r : row D) : row D' :=
  mkRow (transaction_id r) (customer_id r) (product_id r) (product_name r)
        (quantity r) (price_per_unit r) (total_price r) v.

Definition is_some {A} (o : option A) : bool :=
  match o with Some _ => true | None => false end.

Definition _standardize_dates (df : table (option string))
  : M (table (option date)) :=
  df <- lift (apply_rows
                (fun r =>
                   match parse_date (transaction_date r) with
                   | Ok d => Ok (set_transaction_date d r)
                   | Raise e => Raise e
                   end) df) ;;
  (* Remove rows with invalid dates *)
  let initial_count := List.length df in
  let df := select (column (fun r => is_some (transaction_date r)) df) df in
  print (Removed_dates (initial_count - List.length df)) ;;;
  ret df.

End Dates.

(** ** Pass 4: [_remove_duplicates] *)

Definition option_eqb {A} (eqb : A -> A -> bool) (a b : option A) : bool :=
  match a, b with
  | Some x, Some y => eqb x y
  | None, None => true
  | _, _ => false
  end.

Section Duplicates.

Variable D : Type.
Variable D_eqb : D -> D -> bool.

(** The cells of the columns [df.columns.difference(['transaction_id'])]. *)
Definition content : Type :=
  (option string * option string * option string
   * F64.t * F64.t * F64.t * D)%type.

Definition subset (r : row D) : content :=
  (customer_id r, product_id r, product_name r,
   quantity r, price_per_unit r, total_price r, transaction_date r).

Definition content_eqb (a b : content) : bool :=
  let '(c1, p1, n1, q1, u1, t1, d1) := a in
  let '(c2, p2, n2, q2, u2, t2, d2) := b in
  option_eqb String.eqb c1 c2 && option_eqb String.eqb p1 p2
  && option_eqb String.eqb n1 n2
  && F64.eqb q1 q2 && F64.eqb u1 u2 && F64.eqb t1 t2 && D_eqb d1 d2.

(** [df.duplicated(subset, keep='first')]: a row is marked when the cells
    of the subset have been seen on an earlier row. *)
Fixpoint duplicated_from (seen : list content) (df : table D) : list bool :=
  match df with
  | [] => []
  | r :: df' =>
      if existsb (content_eqb (subset r)) seen
      then true :: duplicated_from seen df'
      else false :: duplicated_from (subset r :: seen) df'
  end.

Definition duplicated (df : table D) : list bool := duplicated_from [] df.

(** [df.drop_duplicates(subset)] is [df[~df.duplicated(subset)]]. *)
Definition drop_duplicates (df : table D) : table D :=
  select (mask_not (duplicated df)) df.

Definition _remove_duplicates (df : table D) : M (table D) :=
  let initial_count := List.length df in
  (* Keep first occurrence of duplicates based on all columns except transaction_id *)
  let df := drop_duplicates df in
  print (Removed_duplicates (initial_count - List.length df)) ;;;
  ret df.

End Duplicates.

Arguments subset {D} r.

(** ** Pass 5: [_handle_outliers] *)

Section Outliers.

Variable D : Type.

Definition atol : Qc := Q2Qc (1 # 100).
Definition hundred : F64.t := F64.of_Z 100.
Definition thousand : F64.t := F64.of_Z 1000.

(** [~np.isclose(df["total_price"], df["quantity"] * df["price_per_unit"],
    rtol=0, atol=0.01)] *)
Definition not_close (df : table D) : list bool :=
  column (fun r => negb (F64.isclose atol (total_price r)
                           (F64.mul (quantity r) (price_per_unit r)))) df.

(** The three [round] assignments; the cast of the quantity column to
    Int64 raises when a rounded quantity is not an int64. *)
Definition round_row (r : row D) : result (row D) :=
  match F64.astype_Int64 (F64.round 0 (quantity r)) with
  | Raise e => Raise e
  | Ok q =>
      Ok (set_total_price (F64.round 2 (total_price r))
            (set_price_per_unit (F64.round 2 (price_per_unit r))
               (set_quantity q r)))
  end.

Definition _handle_outliers (df : table D) : M (table D) :=
  let initial_count := List.length df in
  (* Find mismatches with tolerance *)
  let mismatches := not_close df in
  let mismatch_rows := select mismatches df in
  print (Found_mismatches (List.length mismatch_rows)) ;;;
  (* Handle conflicts *)
  let conflict_mask :=
    mask_and (mask_and mismatches
                       (column (fun r => F64.gt (quantity r) hundred) df))
             (column (fun r => F64.gt (price_per_unit r) thousand) df) in
  df <- (if mask_any conflict_mask then
           print (Resolving_conflicts (mask_sum conflict_mask)) ;;;
           ret (loc_set conflict_mask
                  (fun r => set_quantity
                              (F64.div (total_price r) (price_per_unit r)) r) df)
         else ret df) ;;
  (* Fix quantity if it's too large (>100) *)
  let mask_q :=
    mask_and (mask_and mismatches
                       (column (fun r => F64.gt (quantity r) hundred) df))
             (mask_not conflict_mask) in
  let df :=
    loc_set mask_q
      (fun r => set_quantity (F64.div (total_price r) (price_per_unit r)) r) df in
  (* Fix price_per_unit if it's too large (>1000) *)
  let mask_p :=
    mask_and (mask_and mismatches
                       (column (fun r => F64.gt (price_per_unit r) thousand) df))
             (mask_not conflict_mask) in
  let df :=
    loc_set mask_p
      (fun r => set_price_per_unit (F64.div (total_price r) (quantity r)) r) df in
  (* Otherwise fix total_price *)
  let mask_t :=
    mask_and mismatches
             (mask_not (mask_or (mask_or mask_q mask_p) conflict_mask)) in
  let df :=
    loc_set mask_t
      (fun r => set_total_price (F64.mul (quantity r) (price_per_unit r)) r) df in
  (* Round values consistently *)
  df <- lift (apply_rows round_row df) ;;
  (* Recheck mismatches with tolerance *)
  let final_check := not_close df in
  print (Remaining_mismatches (mask_sum final_check)) ;;;
  print (Removed_outliers (initial_count - List.length df)) ;;;
  ret df.

End Outliers.

Arguments _handle_outliers {D} df.
Arguments round_row {D} r.
Arguments not_close {D} df.

(** ** [clean_data] *)

Definition clean_data (df : table (option string)) : M (table (option Datetime.date)) :=
  let cleaned_df := df in
  let initial_count := List.length cleaned_df in
  cleaned_df <- _handle_missing_values cleaned_df ;;
  cleaned_df <- _normalize_product_names cleaned_df ;;
  cleaned_df <- _standardize_dates cleaned_df ;;
  cleaned_df <- _remove_duplicates (option_eqb Datetime.date_eqb) cleaned_df ;;
  cleaned_df <- _handle_outliers cleaned_df ;;
  (* Ensure final data types are correct *)
  cleaned_df <- lift (apply_rows
                        (fun r =>
                           match F64.astype_int (quantity r) with
                           | Ok q => Ok (set_quantity q r)
                           | Raise e => Raise e
                           end) cleaned_df) ;;
  print (Rows_removed (initial_count - List.length cleaned_df)) ;;;
  ret cleaned_df.

(** * Specification vocabulary *)

(** ** The missing-value repair, in the words of the specification *)

Section MissingValuesSpec.

Variable D : Type.

Definition missing (x : F64.t) : bool := F64.isna x.
Definition present (x : F64.t) : bool := F64.notna x.

(** How many of quantity, price_per_unit and total_price are missing. *)
Definition missing_count (r : row D) : nat :=
  (if missing (quantity r) then 1 else 0)
  + (if missing (price_per_unit r) then 1 else 0)
  + (if missing (total_price r) then 1 else 0).

(** The one missing field computed from the two fields of the original
    record; a record with none or several missing is left as it is. *)
Definition repair_from_original (r : row D) : row D :=
  match missing (price_per_unit r), missing (quantity r), missing (total_price r) with
  | true, false, false =>
      set_price_per_unit (F64.div (total_price r) (quantity r)) r
  | false, true, false =>
      set_quantity (F64.div (total_price r) (price_per_unit r)) r
  | false, false, true =>
      set_total_price (F64.mul (quantity r) (price_per_unit r)) r
  | _, _, _ => r
  end.

(** None of the three fields is undefined. *)
Definition complete (r : row D) : bool :=
  present (price_per_unit r) && present (quantity r) && present (total_price r).

Definition missing_value_repair_spec (df : table D) : table D :=
  filter complete (map repair_from_original df).

(** total_price = quantity x price_per_unit *)
Definition satisfies_relation (r : row D) : Prop :=
  total_price r = F64.mul (quantity r) (price_per_unit r).

(** The three masked assignments, read row by row. *)
Definition repair_in_sequence (r : row D) : row D :=
  let r1 :=
    if F64.isna (price_per_unit r) && F64.notna (quantity r)
       && F64.notna (total_price r)
    then set_price_per_unit (F64.div (total_price r) (quantity r)) r else r in
  let r2 :=
    if F64.isna (quantity r1) && F64.notna (price_per_unit r1)
       && F64.notna (total_price r1)
    then set_quantity (F64.div (total_price r1) (price_per_unit r1)) r1 else r1 in
  if F64.isna (total_price r2) && F64.notna (quantity r2)
     && F64.notna (price_per_unit r2)
  then set_total_price (F64.mul (quantity r2) (price_per_unit r2)) r2 else r2.

End MissingValuesSpec.

Arguments missing_count {D} r.
Arguments repair_in_sequence {D} r.
Arguments repair_from_original {D} r.
Arguments complete {D} r.
Arguments missing_value_repair_spec {D} df.
Arguments satisfies_relation {D} r.

(** ** The product-name normalizer, in the words of the specification *)

(** What the pass does to one cell: trim, lower-case, then the rule loop. *)
Definition normalized_name (name : option string) : result string :=
  normalize_product_name (str_lower (str_strip name)).

(** The canonical name of the first rule of [mapping] whose pattern matches
    somewhere in the trimmed, lower-cased name; without such a rule, the
    title-cased trimmed name. *)
Definition canonical_name_spec (mapping : list (Re.pattern * string))
           (name : string) : string :=
  match find (fun rule => Re.search (fst rule) (Py.lower (Py.strip name))) mapping with
  | Some (_, canonical) => canonical
  | None => Py.title (Py.strip name)
  end.

(** The canonical vocabulary: the names the rule table can emit. *)
Definition canonical_vocabulary : list string :=
  map snd Config.PRODUCT_MAPPING.

(** ** The date standardizer, in the words of the specification *)

(** The year is within [1900, 2030]. *)
Definition reasonable_year (d : Datetime.date) : bool :=
  ((1900 <=? Datetime.year d) && (Datetime.year d <=? 2030))%Z.

(** The format parses the text successfully, to [d], and the year of [d] is
    in range. *)
Definition accepts (fmt s : string) (d : Datetime.date) : Prop :=
  Datetime.strptime s fmt = Ok d /\ reasonable_year d = true.

(** The rows the date pass keeps, with their parsed date. *)
Definition standardized_rows (df : table (option string))
  : table (option Datetime.date) :=
  flat_map (fun r => match parse_date (transaction_date r) with
                     | Ok (Some d) => [set_transaction_date (Some d) r]
                     | _ => []
                     end) df.

(** ** The reconciler, in the words of the specification *)

Section OutliersSpec.

Variable D : Type.

(** The record is in the mismatch mask of the pass. *)
Definition flagged (r : row D) : bool :=
  negb (F64.isclose atol (total_price r)
          (F64.mul (quantity r) (price_per_unit r))).

Definition quantity_suspicious (r : row D) : bool := F64.gt (quantity r) hundred.
Definition price_suspicious (r : row D) : bool := F64.gt (price_per_unit r) thousand.

(** The corrective rule of a record, by precedence. *)
Definition reconcile_spec (r : row D) : row D :=
  if flagged r then
    if quantity_suspicious r && price_suspicious r then          (* rule 1 *)
      set_quantity (F64.div (total_price r) (price_per_unit r)) r
    else if quantity_suspicious r then                           (* rule 2 *)
      set_quantity (F64.div (total_price r) (price_per_unit r)) r
    else if price_suspicious r then                              (* rule 3 *)
      set_price_per_unit (F64.div (total_price r) (quantity r)) r
    else                                                         (* rule 4 *)
      set_total_price (F64.mul (quantity r) (price_per_unit r)) r
  else r.

(** The four assignments of the pass, read row by row: each mask is tested
    on the row as the earlier assignments left it, the mismatch and conflict
    bits on the row as it entered the pass. *)
Definition reconcile_in_sequence (r : row D) : row D :=
  let mismatch := flagged r in
  let conflict :=
    mismatch && F64.gt (quantity r) hundred && F64.gt (price_per_unit r) thousand in
  let r1 :=
    if conflict
    then set_quantity (F64.div (total_price r) (price_per_unit r)) r else r in
  let in_q := mismatch && F64.gt (quantity r1) hundred && negb conflict in
  let r2 :=
    if in_q
    then set_quantity (F64.div (total_price r1) (price_per_unit r1)) r1 else r1 in
  let in_p := mismatch && F64.gt (price_per_unit r2) thousand && negb conflict in
  let r3 :=
    if in_p
    then set_price_per_unit (F64.div (total_price r2) (quantity r2)) r2 else r2 in
  if mismatch && negb (in_q || in_p || conflict)
  then set_total_price (F64.mul (quantity r3) (price_per_unit r3)) r3 else r3.

(** The two records agree outside quantity, price_per_unit, total_price. *)
Definition same_identity (r r' : row D) : Prop :=
  transaction_id r' = transaction_id r /\ customer_id r' = customer_id r
  /\ product_id r' = product_id r /\ product_name r' = product_name r
  /\ transaction_date r' = transaction_date r.


(** What the pass prints for a table, given what the rounding returned. *)
Definition reconciler_log (df : table D) (rounded : result (table D))
  : list event :=
  let conflicts :=
    column (fun r => flagged r && quantity_suspicious r && price_suspicious r) df in
  Found_mismatches (List.length (filter flagged df))
  :: (if mask_any conflicts then [Resolving_conflicts (mask_sum conflicts)] else [])
  ++ match rounded with
     | Ok out => [Remaining_mismatches (mask_sum (column flagged out));
                  Removed_outliers (List.length df - List.length out)]
     | Raise _ => []
     end.

End OutliersSpec.

Arguments flagged {D} r.
Arguments quantity_suspicious {D} r.
Arguments price_suspicious {D} r.
Arguments reconcile_spec {D} r.
Arguments reconcile_in_sequence {D} r.
Arguments same_identity {D} r r'.
Arguments reconciler_log {D} df rounded.

(** ** Content duplicates *)

(** No two distinct records of the table agree on every column other than
    [transaction_id]. *)
Definition no_content_duplicates {D} (df : table D) : Prop :=
  forall i j ri rj,
    i <> j -> nth_error df i = Some ri -> nth_error df j = Some rj ->
    subset ri <> subset rj.

(** ** Equality of tables, as a computation *)

Section TableEquality.

Variable D : Type.
Variable D_eqb : D -> D -> bool.

Definition row_eqb (a b : row D) : bool :=
  option_eqb String.eqb (transaction_id a) (transaction_id b)
  && content_eqb D_eqb (subset a) (subset b).

Fixpoint table_eqb (x y : table D) : bool :=
  match x, y with
  | [], [] => true
  | a :: x', b :: y' => row_eqb a b && table_eqb x' y'
  | _, _ => false
  end.

End TableEquality.

Definition raw_eqb : option string -> option string -> bool :=
  option_eqb String.eqb.

Definition date_cell_eqb : option Datetime.date -> option Datetime.date -> bool :=
  option_eqb Datetime.date_eqb.

(** ** Sample records *)

Module Samples.

Open Scope string_scope.

(** A raw record of customer CUST001 and product PROD001. *)
Definition raw (id name : string) (q p t : F64.t) (date : string)
  : row (option string) :=
  mkRow (Some id) (Some "CUST001") (Some "PROD001") (Some name) q p t (Some date).

(** Price missing, the other two present. *)
Definition price_missing : row (option string) :=
  raw "t1" "laptop" (F64.of_Z 2) F64.NaN (F64.of_Z 200) "2025-03-09".

(** Quantity missing and a price of zero: the repaired quantity is
    infinite. *)
Definition quantity_missing_zero_price : row (option string) :=
  raw "t1" "laptop" F64.NaN (F64.of_Z 0) (F64.of_Z 5) "2025-03-09".

(** A record whose product name is missing. *)
Definition name_missing : row (option string) :=
  mkRow (Some "t2") (Some "CUST002") (Some "PROD002") None
        (F64.of_Z 1) (F64.of_Z 50) (F64.of_Z 50) (Some "2025-03-10").

(** A well-formed record. *)
Definition laptop : row (option string) :=
  raw "t1" "  laptop  " (F64.of_Z 2) (F64.of_Z 100) (F64.of_Z 200) "2025-03-09".

(** Two records that differ in the total only; the second one is a
    mismatch (2 x 10 is not 50). *)
Definition paid_20 : row (option string) :=
  raw "t1" "laptop" (F64.of_Z 2) (F64.of_Z 10) (F64.of_Z 20) "2025-03-09".

Definition paid_50 : row (option string) :=
  raw "t2" "laptop" (F64.of_Z 2) (F64.of_Z 10) (F64.of_Z 50) "2025-03-09".

(** A record as the later passes see it, with a calendar date. *)
Definition dated (id name : string) (q p t : F64.t) (d : Datetime.date)
  : row (option Datetime.date) :=
  mkRow (Some id) (Some "CUST001") (Some "PROD001") (Some name) q p t (Some d).

Definition march_9 : Datetime.date := Datetime.mkDate 2025 3 9.

(** Two records identical except for their [transaction_id], and a third
    one. *)
Definition first_copy : row (option Datetime.date) :=
  dated "t1" "Laptop" (F64.of_Z 2) (F64.of_Z 100) (F64.of_Z 200) march_9.

Definition second_copy : row (option Datetime.date) :=
  dated "t2" "Laptop" (F64.of_Z 2) (F64.of_Z 100) (F64.of_Z 200) march_9.

Definition other_record : row (option Datetime.date) :=
  dated "t3" "Mouse" (F64.of_Z 1) (F64.of_Z 50) (F64.of_Z 50) march_9.

(** The fixture [sample_data] of [test_data_cleaning.py]. *)
Definition sample_data : table (option string) :=
  [ mkRow (Some "test1") (Some "CUST001") (Some "PROD001") (Some "  laptop  ")
          (F64.of_Z 2) (F64.of_Z 100) (F64.of_Z 200) (Some "2025-03-09");
    mkRow (Some "test2") (Some "CUST002") (Some "PROD002") (Some "wireless mouse")
          (F64.of_Z 1) (F64.of_Z 50) (F64.of_Z 50) (Some "invalid_date");
    mkRow (Some "test3") (Some "CUST003") (Some "PROD003") (Some "usb-c cable")
          (F64.of_Z 3) (F64.of_Z 25) (F64.of_Z 75) (Some "2025/03/10") ].

End Samples.


(** * Further vocabulary *)

(** [l1] is [l2] with some elements left out, the order kept. *)
Inductive subsequence {A : Type} : list A -> list A -> Prop :=
| subsequence_nil : subsequence [] []
| subsequence_keep x l1 l2 : subsequence l1 l2 -> subsequence (x :: l1) (x :: l2)
| subsequence_skip x l1 l2 : subsequence l1 l2 -> subsequence l1 (x :: l2).

(** The columns of a record no pass of the pipeline writes. *)
Definition identity {D} (r : row D) : option string * option string * option string :=
  (transaction_id r, customer_id r, product_id r).



(** The cleaned record [r'] comes from the raw record [r]: the same
    identifiers, the name normalized, the date parsed from the text. *)
Definition cleaned_from (r : row (option string))
           (r' : row (option Datetime.date)) : Prop :=
  identity r' = identity r
  /\ (exists name,
        product_name r = Some name
        /\ product_name r'
           = Some (canonical_name_spec Config.PRODUCT_MAPPING name))
  /\ (exists s d,
        transaction_date r = Some s
        /\ parse_date (Some s) = Ok (Some d)
        /\ transaction_date r' = Some d).

(** The character [title] writes for [c], after a cased character or
    not. *)
Definition title_char (previous_is_cased : bool) (c : ascii) : ascii :=
  if previous_is_cased then Py.lower_char c else Py.upper_char c.

(** The rule table without its second rule, [usbc]. *)
Definition rules_without_usbc : list (Re.pattern * string) :=
  match Config.PRODUCT_MAPPING with
  | first :: _ :: rest => first :: rest
  | rules => rules
  end.

(** The pattern of the first rule, [usb[-\s]?c]. *)
Definition usb_c_pattern : Re.pattern :=
  match Config.PRODUCT_MAPPING with
  | (pattern, _) :: _ => pattern
  | [] => []
  end.

(** ** Writing a date in one of the formats

    [date.strftime] for the directives of the date pass: [%Y] four digits,
    [%m], [%d] and [%y] two digits with a leading zero, [%B] the English
    month name, any other character itself. *)

Module Strftime.

Import Datetime.
Open Scope Z_scope.

Definition digit_char (z : Z) : ascii := ascii_of_nat (48 + Z.to_nat z).

Definition two_digits (z : Z) : string :=
  String (digit_char ((z / 10) mod 10)) (String (digit_char (z mod 10)) EmptyString).

Definition four_digits (z : Z) : string :=
  (two_digits (z / 100) ++ two_digits (z mod 100))%string.

Definition month_name (m : Z) : string :=
  nth (Z.to_nat (m - 1))
      [ "January"; "February"; "March"; "April"; "May"; "June"; "July";
        "August"; "September"; "October"; "November"; "December" ]%string
      EmptyString.

Definition render_directive (dir : directive) (d : date) : string :=
  match dir with
  | Dir_Y => four_digits (year d)
  | Dir_m => two_digits (month d)
  | Dir_d => two_digits (day d)
  | Dir_y => two_digits (year d mod 100)
  | Dir_B => month_name (month d)
  | Literal c => String c EmptyString
  | Whitespace => " "%string
  end.

Fixpoint render (ds : list directive) (d : date) : string :=
  match ds with
  | [] => EmptyString
  | dir :: ds' => (render_directive dir d ++ render ds' d)%string
  end.

Definition strftime (d : date) (fmt : string) : string :=
  match compile fmt with
  | Ok ds => render ds d
  | Raise _ => EmptyString
  end.

(** What the date pass reads in the text of [d] written in the format of
    position [i] of [formats]: the date itself in the four-digit-year
    formats, except that month/day/year is read day first whenever the day
    can be a month; with a two-digit year, the year 2000-2030 or 1969-1999
    with these two digits, if there is one. *)
Definition reading (i : nat) (d : date) : option date :=
  match i with
  | 3%nat =>
      if day d <=? 12 then Some (mkDate (year d) (day d) (month d)) else Some d
  | 5%nat | 6%nat =>
      let yy := year d mod 100 in
      let y := if yy <=? 68 then yy + 2000 else yy + 1900 in
      if (y <=? 2030) && valid_date y (month d) (day d)
      then Some (mkDate y (month d) (day d)) else None
  | _ => Some d
  end.

(** The end of [strptime]: the first match is taken, it must leave no text,
    and its fields must be a date of the calendar. *)
Definition finish (matches : list (found * string)) : result date :=
  match matches with
  | [] => Raise ValueError
  | ((y, m, d), rest) :: _ =>
      match rest with
      | String _ _ => Raise ValueError
      | EmptyString =>
          if valid_date y m d then Ok (mkDate y m d) else Raise ValueError
      end
  end.

End Strftime.

(** * The relational tables: [transform_to_relational] (database_loader.py) *)

Module Relational.

(** [x + y] on floats. *)
Definition add (x y : F64.t) : F64.t :=
  match x, y with
  | F64.NaN, _ | _, F64.NaN => F64.NaN
  | F64.PInf, F64.NInf | F64.NInf, F64.PInf => F64.NaN
  | F64.PInf, _ | _, F64.PInf => F64.PInf
  | F64.NInf, _ | _, F64.NInf => F64.NInf
  | F64.Fin a, F64.Fin b => F64.Fin (a + b)%Qc
  end.

(** The aggregations ['sum'] and ['mean'] of a group: missing values are
    skipped; the sum of no value is 0, the mean of no value is missing. *)
Definition group_sum (values : list F64.t) : F64.t :=
  fold_left add (filter F64.notna values) (F64.of_Z 0).

Definition group_mean (values : list F64.t) : F64.t :=
  match filter F64.notna values with
  | [] => F64.NaN
  | present =>
      F64.div (fold_left add present (F64.of_Z 0))
              (F64.of_Z (Z.of_nat (List.length present)))
  end.

Section Frames.

Variable K : Type.
Variable K_eqb : K -> K -> bool.

(** [frame.duplicated(keep='first')] on the rows of a frame, all columns
    compared. *)
Fixpoint duplicated_after (seen : list K) (frame : list K) : list bool :=
  match frame with
  | [] => []
  | k :: frame' =>
      if existsb (K_eqb k) seen
      then true :: duplicated_after seen frame'
      else false :: duplicated_after (k :: seen) frame'
  end.

Definition frame_duplicated (frame : list K) : list bool :=
  duplicated_after [] frame.

(** The rows of a frame at the index of the set bits of a mask. *)
Fixpoint keep {A} (mask : list bool) (rows : list A) : list A :=
  match mask, rows with
  | b :: mask', r :: rows' => if b then r :: keep mask' rows' else keep mask' rows'
  | _, _ => []
  end.

(** The index [frame.drop_duplicates()] keeps, as a mask. *)
Definition first_occurrences (frame : list K) : list bool :=
  map negb (frame_duplicated frame).

End Frames.

(** [df.groupby(by)[col].transform(agg)]: on the index of [df], the
    aggregate of the group of each row; a row whose key is missing belongs to
    no group and gets a missing value. *)
Definition in_group (k : string) (cell : option string) : bool :=
  option_eqb String.eqb cell (Some k).

Definition group_values {D} (by_ : row D -> option string) (col : row D -> F64.t)
           (k : string) (df : table D) : list F64.t :=
  map col (filter (fun r => in_group k (by_ r)) df).

Definition groupby_transform {D} (by_ : row D -> option string)
           (col : row D -> F64.t) (agg : list F64.t -> F64.t)
           (df : table D) : list F64.t :=
  map (fun r => match by_ r with
                | Some k => agg (group_values by_ col k df)
                | None => F64.NaN
                end) df.

Record customer : Type := mkCustomer {
  c_customer_id : option string;
  c_customer_name : option string;
  c_email : option string;
  c_created_date : Datetime.date
}.

Record product : Type := mkProduct {
  p_product_id : option string;
  p_product_name : option string;
  p_category : string;
  p_standard_price : F64.t
}.

Record transaction (D : Type) : Type := mkTransaction {
  t_transaction_id : option string;
  t_customer_id : option string;
  t_transaction_date : D;
  t_total_amount : F64.t
}.

Record transaction_item : Type := mkItem {
  i_transaction_id : option string;
  i_product_id : option string;
  i_quantity : F64.t;
  i_price_per_unit : F64.t;
  i_total_price : F64.t
}.

Section Transform.

Variable D : Type.
Variable D_eqb : D -> D -> bool.

Definition cell_eqb : option string -> option string -> bool :=
  option_eqb String.eqb.

Definition product_key_eqb (a b : option string * option string) : bool :=
  cell_eqb (fst a) (fst b) && cell_eqb (snd a) (snd b).

Definition transaction_key_eqb (a b : option string * option string * D) : bool :=
  cell_eqb (fst (fst a)) (fst (fst b)) && cell_eqb (snd (fst a)) (snd (fst b))
  && D_eqb (snd a) (snd b).

(** Extract unique customers.  A cell of a new column computed from a
    missing [customer_id] is missing. *)
Definition customers_of (df : table D) : list customer :=
  let frame := map (fun r => customer_id r) df in            (* df[['customer_id']] *)
  let customers := keep (first_occurrences cell_eqb frame) frame in
  map (fun c =>
         mkCustomer c
           (option_map (fun s => "Customer " ++ s)%string c)
           (option_map (fun s => Py.lower s ++ "@example.com")%string c)
           (Datetime.mkDate 2023 1 1))
      customers.

(** Extract unique products.  The column assigned from the grouped mean is
    aligned on the index: a product row gets the mean found at the index of
    the record it was kept from. *)
Definition products_of (df : table D) : list product :=
  let frame := map (fun r => (product_id r, product_name r)) df in
  let standard_price :=
    groupby_transform (fun r => product_id r) (fun r => price_per_unit r) group_mean df in
  map (fun '(k, price) => mkProduct (fst k) (snd k) "Electronics" price)
      (keep (first_occurrences product_key_eqb frame)
            (combine frame standard_price)).

(** Create transactions. *)
Definition transactions_of (df : table D) : list (transaction D) :=
  let frame :=
    map (fun r => (transaction_id r, customer_id r, transaction_date r)) df in
  let total_amount :=
    groupby_transform (fun r => transaction_id r) (fun r => total_price r) group_sum df in
  map (fun '(k, amount) => mkTransaction (fst (fst k)) (snd (fst k)) (snd k) amount)
      (keep (first_occurrences transaction_key_eqb frame)
            (combine frame total_amount)).

(** Create transaction items. *)
Definition transaction_items_of (df : table D) : list transaction_item :=
  map (fun r => mkItem (transaction_id r) (product_id r) (quantity r)
                       (price_per_unit r) (total_price r)) df.

Definition transform_to_relational (df : table D)
  : list customer * list product * list (transaction D) * list transaction_item :=
  (customers_of df, products_of df, transactions_of df, transaction_items_of df).

(** A column determines another on a table. *)
Definition determines {A B} (f : row D -> A) (g : row D -> B) (df : table D) : Prop :=
  forall r1 r2, In r1 df -> In r2 df -> f r1 = f r2 -> g r1 = g r2.

End Transform.

End Relational.

(** * Running a file of statements: [run_sql_file] (database_loader.py) *)

Module Sql.

(** [s.split(sep)] for a separator of one character: the pieces between
    the separators, one more than there are separators. *)
Fixpoint split (sep : ascii) (s : string) : list string :=
  match s with
  | EmptyString => [EmptyString]
  | String c s' =>
      if Ascii.eqb c sep then EmptyString :: split sep s'
      else match split sep s' with
           | piece :: pieces => String c piece :: pieces
           | [] => [String c EmptyString]
           end
  end.

(** The truth value of a str: it is not empty. *)
Definition truthy (s : string) : bool :=
  match s with EmptyString => false | String _ _ => true end.

(** [[q.strip() for q in sql_content.split(';') if q.strip()]] *)
Definition queries_of (sql_content : string) : list string :=
  map Py.strip (filter (fun q => truthy (Py.strip q)) (split ";" sql_content)).

(** [c in s] for a character. *)
Fixpoint contains (c : ascii) (s : string) : bool :=
  match s with
  | EmptyString => false
  | String a s' => Ascii.eqb a c || contains c s'
  end.

Inductive message : Type :=
| Successfully_executed (count : nat)     (* ... {len(queries)} queries from ... *)
| Error_running.                          (* Error running SQL file: {e} *)

Section Connection.

(** The file and the data base are the environment of the function: reading
    the file, connecting, executing a statement and committing each return
    the new connection or raise (here [None]). *)
Variable connection : Type.
Variable read : option string.
Variable connect : option connection.
Variable execute : connection -> string -> option connection.
Variable commit : connection -> option connection.

(** The [for query in queries] loop, with the statements handed to
    [conn.execute] in order; the first that raises ends the loop. *)
Fixpoint execute_all (conn : connection) (queries : list string)
  : list string * option connection :=
  match queries with
  | [] => ([], Some conn)
  | query :: rest =>
      if truthy query then                  (* Skip empty queries *)
        match execute conn query with
        | Some conn' =>
            let '(sent, r) := execute_all conn' rest in (query :: sent, r)
        | None => ([query], None)
        end
      else execute_all conn rest
  end.

(** The statements sent to the data base, what is printed and what is
    returned. *)
Definition run_sql_file : list string * list message * bool :=
  match read with
  | None => ([], [Error_running], false)
  | Some sql_content =>
      let queries := queries_of sql_content in
      match connect with
      | None => ([], [Error_running], false)
      | Some conn =>
          match execute_all conn queries with
          | (sent, Some conn') =>
              match commit conn' with
              | Some _ =>
                  (sent, [Successfully_executed (List.length queries)], true)
              | None => (sent, [Error_running], false)
              end
          | (sent, None) => (sent, [Error_running], false)
          end
      end
  end.

End Connection.

End Sql.

(** * The statistics page: [show_stats] (display.py) *)

From Stdlib Require Sorted Permutation.

Module Display.

Open Scope Z_scope.

(** What [row.get(column)] finds in a row of [csv.DictReader]: no such key
    (the file has no such column), the value [None] (the line is shorter
    than the header), or a str. *)
Inductive cell : Type :=
| Absent
| Null
| Text (s : string).

Definition csv_row : Type := string -> cell.

(** What the template of the page is given. *)
Inductive page : Type :=
| No_data_available
| Stats (total_records : nat) (total_revenue avg_order_value : F64.t)
        (total_quantity : Z) (product_counts : list (option string * Z)).

(** A dict with keys that are a str or [None], in insertion order. *)
Definition counts : Type := list (option string * Z).

Definition key_eqb : option string -> option string -> bool :=
  option_eqb String.eqb.

(** [d.get(key, default)] *)
Fixpoint get (d : counts) (key : option string) (default : Z) : Z :=
  match d with
  | [] => default
  | (k, v) :: d' => if key_eqb k key then v else get d' key default
  end.

(** [d[key] = value]: the value of a key of the dict is replaced where it
    is, a new key is added at the end. *)
Fixpoint set (d : counts) (key : option string) (value : Z) : counts :=
  match d with
  | [] => [(key, value)]
  | (k, v) :: d' =>
      if key_eqb k key then (k, value) :: d' else (k, v) :: set d' key value
  end.

(** [sorted(items, key=lambda x: x[1], reverse=True)]: decreasing counts,
    items of equal count in their order in [items]. *)
Fixpoint insert (x : option string * Z) (sorted_items : counts) : counts :=
  match sorted_items with
  | [] => [x]
  | y :: rest => if snd x <? snd y then y :: insert x rest else x :: sorted_items
  end.

Definition sorted_reverse (items : counts) : counts := fold_right insert [] items.

Section Stats.

(** [float(s)] and [int(s)] on a str. *)
Variable float : string -> result F64.t.
Variable int : string -> result Z.

(** [float(row.get(column, 0))] and [int(row.get(column, 0))] *)
Definition float_of (c : cell) : result F64.t :=
  match c with
  | Absent => Ok (F64.of_Z 0)
  | Null => Raise TypeError
  | Text s => float s
  end.

Definition int_of (c : cell) : result Z :=
  match c with
  | Absent => Ok 0
  | Null => Raise TypeError
  | Text s => int s
  end.

(** [row.get('product_name', 'Unknown')] *)
Definition product_of (c : cell) : option string :=
  match c with
  | Absent => Some "Unknown"%string
  | Null => None
  | Text s => Some s
  end.

(** [sum(float(row.get('total_price', 0)) for row in cleaned)] *)
Fixpoint sum_total_price (so_far : F64.t) (rows : list csv_row) : result F64.t :=
  match rows with
  | [] => Ok so_far
  | row :: rest =>
      match float_of (row "total_price"%string) with
      | Ok x => sum_total_price (Relational.add so_far x) rest
      | Raise e => Raise e
      end
  end.

(** The loop that counts the quantities by product. *)
Fixpoint count_products (product_counts : counts) (rows : list csv_row)
  : result counts :=
  match rows with
  | [] => Ok product_counts
  | row :: rest =>
      let product := product_of (row "product_name"%string) in
      match int_of (row "quantity"%string) with
      | Ok qty =>
          count_products
            (set product_counts product (get product_counts product 0 + qty)) rest
      | Raise e => Raise e
      end
  end.

Definition show_stats (cleaned : list csv_row) : result page :=
  match cleaned with
  | [] => Ok No_data_available
  | _ :: _ =>
      match sum_total_price (F64.of_Z 0) cleaned with
      | Raise e => Raise e
      | Ok total_revenue =>
          let avg_order_value :=
            F64.div total_revenue (F64.of_Z (Z.of_nat (List.length cleaned))) in
          match count_products [] cleaned with
          | Raise e => Raise e
          | Ok product_counts =>
              Ok (Stats (List.length cleaned) total_revenue avg_order_value
                        (fold_right Z.add 0 (map snd product_counts))
                        (firstn 10 (sorted_reverse (product_counts))))
          end
      end
  end.

(** The product and the quantity of each row, when every quantity is an
    integer. *)
Fixpoint product_quantities (rows : list csv_row)
  : result (list (option string * Z)) :=
  match rows with
  | [] => Ok []
  | row :: rest =>
      match int_of (row "quantity"%string) with
      | Ok qty =>
          match product_quantities rest with
          | Ok l => Ok ((product_of (row "product_name"%string), qty) :: l)
          | Raise e => Raise e
          end
      | Raise e => Raise e
      end
  end.

End Stats.

(** One turn of the loop on the dict, and the loop. *)
Definition add_quantity (d : counts) (x : option string * Z) : counts :=
  set d (fst x) (get d (fst x) 0 + snd x).

Definition tally (l : list (option string * Z)) (d : counts) : counts :=
  fold_left add_quantity l d.

(** Counts that do not increase along the list. *)
Definition decreasing : counts -> Prop :=
  Sorted.StronglySorted (fun a b : option string * Z => snd b <= snd a).

(** The quantity sold of a product, and of all. *)
Definition total (l : list (option string * Z)) : Z := fold_right Z.add 0 (map snd l).

Definition sold (product : option string) (l : list (option string * Z)) : Z :=
  total (filter (fun x => key_eqb (fst x) product) l).

End Display.

(** * The numeric passes in double precision

    [_handle_missing_values] and [_handle_outliers] once more, with the
    cells of quantity, price_per_unit and total_price as the binary64
    floats numpy computes with: every product, quotient, sum and difference
    is rounded to the nearest double, ties to even.  The three columns are
    float64 columns, as pandas reads them from a CSV file when a cell of
    the column is empty or has a decimal point; a missing cell is NaN.  The
    statements in which a rounding error matters are made on this
    embedding. *)

From Stdlib Require Import Floats Qabs.

Close Scope Q_scope.

Set Warnings "-inexact-float".

Module Binary64.

Local Open Scope float_scope.

(** ** float64 cells *)

Definition isna (x : float) : bool := PrimFloat.is_nan x.
Definition notna (x : float) : bool := negb (isna x).
Definition isfinite (x : float) : bool := PrimFloat.is_finite x.

(** [x > y] *)
Definition gt (x y : float) : bool := PrimFloat.ltb y x.

(** [np.isclose(a, b, rtol=0, atol=atol)]:
    [abs(a - b) <= atol + rtol * abs(b)] when both are finite, [a == b]
    otherwise. *)
Definition isclose (atol a b : float) : bool :=
  if isfinite a && isfinite b
  then PrimFloat.leb (abs (a - b)) (atol + 0 * abs b)
  else PrimFloat.eqb a b.

(** [np.rint]: the nearest integer, a tie going to the even one.  Below
    2^52 it is obtained by adding and subtracting 2^52, the sum being
    rounded to the nearest even integer; from 2^52 on every double is an
    integer. *)
Definition two52 : float := 0x1p52.

Definition rint (x : float) : float :=
  if PrimFloat.ltb (abs x) two52 then
    let r := (abs x + two52) - two52 in
    if PrimFloat.get_sign x then - r else r
  else x.

Fixpoint pow10 (decimals : nat) : float :=
  match decimals with
  | O => 1
  | S d => 10 * pow10 d
  end.

(** [Series.round(decimals)]: [rint] for no decimal; otherwise multiply by
    10^decimals, [rint], divide. *)
Definition round (decimals : nat) (x : float) : float :=
  match decimals with
  | O => rint x
  | S _ => rint (x * pow10 decimals) / pow10 decimals
  end.

(** [.astype("Int64")] on a float column: NaN becomes the missing value
    [pd.NA] (kept as NaN here, which is what the column gives back to numpy);
    pandas converts the other values to int64 and raises [CastError]
    ("cannot safely cast non-equivalent float64 to int64") unless every
    converted value equals the float it comes from: a fraction, an infinity
    or a value outside [-2^63, 2^63) raises.  The integer zero has no
    sign. *)
Definition int64_bound : float := 0x1p63.

Definition astype_Int64 (x : float) : result float :=
  if isna x then Ok x
  else if PrimFloat.eqb (rint x) x && PrimFloat.leb (- int64_bound) x
          && PrimFloat.ltb x int64_bound
  then Ok (if PrimFloat.eqb x 0 then 0 else x)
  else Raise CastError.

(** The value of a finite double in the specification of the arithmetic: a
    zero or a mantissa with an exponent. *)
Definition finite_value (x : spec_float) : Prop :=
  match x with
  | S754_zero _ | S754_finite _ _ _ => True
  | S754_infinity _ | S754_nan => False
  end.

(** The rational number a finite double stands for. *)
Definition to_Q (x : float) : option Q :=
  match Prim2SF x with
  | S754_zero _ => Some (0 # 1)%Q
  | S754_finite s m e =>
      Some (inject_Z (if s then Z.neg m else Z.pos m) * Qpower (2 # 1) e)%Q
  | S754_infinity _ | S754_nan => None
  end.

(** ** The record table *)

Record row (D : Type) : Type := mkRow {
  transaction_id : option string;
  customer_id : option string;
  product_id : option string;
  product_name : option string;
  quantity : float;
  price_per_unit : float;
  total_price : float;
  transaction_date : D
}.

Definition table (D : Type) : Type := list (row D).

Section Columns.

Variable D : Type.

Definition set_quantity (v : float) (r : row D) : row D :=
  mkRow (transaction_id r) (customer_id r) (product_id r) (product_name r)
        v (price_per_unit r) (total_price r) (transaction_date r).

Definition set_price_per_unit (v : float) (r : row D) : row D :=
  mkRow (transaction_id r) (customer_id r) (product_id r) (product_name r)
        (quantity r) v (total_price r) (transaction_date r).

Definition set_total_price (v : float) (r : row D) : row D :=
  mkRow (transaction_id r) (customer_id r) (product_id r) (product_name r)
        (quantity r) (price_per_unit r) v (transaction_date r).

(** [df.loc[mask, col] = e] *)
Fixpoint loc_set (mask : list bool) (assign : row D -> row D) (df : table D)
  : table D :=
  match mask, df with
  | b :: mask', r :: df' =>
      (if b then assign r else r) :: loc_set mask' assign df'
  | _, _ => df
  end.

(** [df[mask]] / [df.dropna(...)] *)
Fixpoint select (mask : list bool) (df : table D) : table D :=
  match mask, df with
  | b :: mask', r :: df' =>
      if b then r :: select mask' df' else select mask' df'
  | _, _ => []
  end.

(** A column test as a mask. *)
Definition column (test : row D -> bool) (df : table D) : list bool :=
  map test df.

End Columns.

Arguments loc_set {D} mask assign df.
Arguments select {D} mask df.
Arguments column {D} test df.
Arguments set_quantity {D} v r.
Arguments set_price_per_unit {D} v r.
Arguments set_total_price {D} v r.

Local Open Scope py_scope.

(** ** Pass 1: [_handle_missing_values] *)

Section MissingValues.

Variable D : Type.

Definition _handle_missing_values (df : table D) : M (table D) :=
  let initial_count := List.length df in
  (* Price per unit missing: price_per_unit = total_price / quantity *)
  let mask_p :=
    mask_and (mask_and (column (fun r => isna (price_per_unit r)) df)
                       (column (fun r => notna (quantity r)) df))
             (column (fun r => notna (total_price r)) df) in
  let df :=
    loc_set mask_p
      (fun r => set_price_per_unit (total_price r / quantity r) r) df in
  (* Quantity missing: quantity = total_price / price_per_unit *)
  let mask_q :=
    mask_and (mask_and (column (fun r => isna (quantity r)) df)
                       (column (fun r => notna (price_per_unit r)) df))
             (column (fun r => notna (total_price r)) df) in
  let df :=
    loc_set mask_q
      (fun r => set_quantity (total_price r / price_per_unit r) r) df in
  (* Total price missing: total_price = quantity * price_per_unit *)
  let mask_t :=
    mask_and (mask_and (column (fun r => isna (total_price r)) df)
                       (column (fun r => notna (quantity r)) df))
             (column (fun r => notna (price_per_unit r)) df) in
  let df :=
    loc_set mask_t
      (fun r => set_total_price (quantity r * price_per_unit r) r) df in
  (* Remove rows where critical data is still missing *)
  let df :=
    select (column (fun r => notna (price_per_unit r) && notna (quantity r)
                             && notna (total_price r)) df) df in
  print (Removed_missing (initial_count - List.length df)) ;;;
  ret df.

End MissingValues.

Arguments _handle_missing_values {D} df.

(** ** Pass 5: [_handle_outliers] *)

Section Outliers.

Variable D : Type.

Definition atol : float := 0.01.
Definition hundred : float := 100.
Definition thousand : float := 1000.

(** [~np.isclose(df["total_price"], df["quantity"] * df["price_per_unit"],
    rtol=0, atol=0.01)] *)
Definition not_close (df : table D) : list bool :=
  column (fun r => negb (isclose atol (total_price r)
                           (quantity r * price_per_unit r))) df.

(** The three [round] assignments; the cast of the quantity column to
    Int64 raises when a rounded quantity is not an int64. *)
Definition round_row (r : row D) : result (row D) :=
  match astype_Int64 (round 0 (quantity r)) with
  | Raise e => Raise e
  | Ok q =>
      Ok (set_total_price (round 2 (total_price r))
            (set_price_per_unit (round 2 (price_per_unit r))
               (set_quantity q r)))
  end.

Definition _handle_outliers (df : table D) : M (table D) :=
  let initial_count := List.length df in
  (* Find mismatches with tolerance *)
  let mismatches := not_close df in
  let mismatch_rows := select mismatches df in
  print (Found_mismatches (List.length mismatch_rows)) ;;;
  (* Handle conflicts *)
  let conflict_mask :=
    mask_and (mask_and mismatches
                       (column (fun r => gt (quantity r) hundred) df))
             (column (fun r => gt (price_per_unit r) thousand) df) in
  df <- (if mask_any conflict_mask then
           print (Resolving_conflicts (mask_sum conflict_mask)) ;;;
           ret (loc_set conflict_mask
                  (fun r => set_quantity (total_price r / price_per_unit r) r) df)
         else ret df) ;;
  (* Fix quantity if it's too large (>100) *)
  let mask_q :=
    mask_and (mask_and mismatches
                       (column (fun r => gt (quantity r) hundred) df))
             (mask_not conflict_mask) in
  let df :=
    loc_set mask_q
      (fun r => set_quantity (total_price r / price_per_unit r) r) df in
  (* Fix price_per_unit if it's too large (>1000) *)
  let mask_p :=
    mask_and (mask_and mismatches
                       (column (fun r => gt (price_per_unit r) thousand) df))
             (mask_not conflict_mask) in
  let df :=
    loc_set mask_p
      (fun r => set_price_per_unit (total_price r / quantity r) r) df in
  (* Otherwise fix total_price *)
  let mask_t :=
    mask_and mismatches
             (mask_not (mask_or (mask_or mask_q mask_p) conflict_mask)) in
  let df :=
    loc_set mask_t
      (fun r => set_total_price (quantity r * price_per_unit r) r) df in
  (* Round values consistently *)
  df <- lift (apply_rows round_row df) ;;
  (* Recheck mismatches with tolerance *)
  let final_check := not_close df in
  print (Remaining_mismatches (mask_sum final_check)) ;;;
  print (Removed_outliers (initial_count - List.length df)) ;;;
  ret df.

End Outliers.

Arguments _handle_outliers {D} df.
Arguments round_row {D} r.
Arguments not_close {D} df.

(** ** The two passes, in the words of the specification *)

Section Vocabulary.

Variable D : Type.

(** How many of quantity, price_per_unit and total_price are missing. *)
Definition missing_count (r : row D) : nat :=
  (if isna (quantity r) then 1 else 0)
  + (if isna (price_per_unit r) then 1 else 0)
  + (if isna (total_price r) then 1 else 0).

(** The one missing field computed from the two fields of the original
    record; a record with none or several missing is left as it is. *)
Definition repair_from_original (r : row D) : row D :=
  match isna (price_per_unit r), isna (quantity r), isna (total_price r) with
  | true, false, false => set_price_per_unit (total_price r / quantity r) r
  | false, true, false => set_quantity (total_price r / price_per_unit r) r
  | false, false, true => set_total_price (quantity r * price_per_unit r) r
  | _, _, _ => r
  end.

(** None of the three fields is missing. *)
Definition complete (r : row D) : bool :=
  notna (price_per_unit r) && notna (quantity r) && notna (total_price r).

Definition missing_value_repair_spec (df : table D) : table D :=
  filter complete (map repair_from_original df).

(** The three masked assignments, read row by row. *)
Definition repair_in_sequence (r : row D) : row D :=
  let r1 :=
    if isna (price_per_unit r) && notna (quantity r) && notna (total_price r)
    then set_price_per_unit (total_price r / quantity r) r else r in
  let r2 :=
    if isna (quantity r1) && notna (price_per_unit r1) && notna (total_price r1)
    then set_quantity (total_price r1 / price_per_unit r1) r1 else r1 in
  if isna (total_price r2) && notna (quantity r2) && notna (price_per_unit r2)
  then set_total_price (quantity r2 * price_per_unit r2) r2 else r2.

(** total_price = quantity x price_per_unit, as doubles. *)
Definition satisfies_relation (r : row D) : Prop :=
  total_price r = quantity r * price_per_unit r.

(** The record is in the mismatch mask of the reconciler. *)
Definition flagged (r : row D) : bool :=
  negb (isclose atol (total_price r) (quantity r * price_per_unit r)).

Definition quantity_suspicious (r : row D) : bool := gt (quantity r) hundred.
Definition price_suspicious (r : row D) : bool := gt (price_per_unit r) thousand.

(** The corrective rule of a record, by precedence. *)
Definition reconcile_spec (r : row D) : row D :=
  if flagged r then
    if quantity_suspicious r && price_suspicious r then          (* rule 1 *)
      set_quantity (total_price r / price_per_unit r) r
    else if quantity_suspicious r then                           (* rule 2 *)
      set_quantity (total_price r / price_per_unit r) r
    else if price_suspicious r then                              (* rule 3 *)
      set_price_per_unit (total_price r / quantity r) r
    else                                                         (* rule 4 *)
      set_total_price (quantity r * price_per_unit r) r
  else r.

(** The four assignments of the pass, read row by row: each mask is tested
    on the row as the earlier assignments left it, the mismatch and conflict
    bits on the row as it entered the pass. *)
Definition reconcile_in_sequence (r : row D) : row D :=
  let mismatch := flagged r in
  let conflict :=
    mismatch && gt (quantity r) hundred && gt (price_per_unit r) thousand in
  let r1 :=
    if conflict then set_quantity (total_price r / price_per_unit r) r else r in
  let in_q := mismatch && gt (quantity r1) hundred && negb conflict in
  let r2 :=
    if in_q then set_quantity (total_price r1 / price_per_unit r1) r1 else r1 in
  let in_p := mismatch && gt (price_per_unit r2) thousand && negb conflict in
  let r3 :=
    if in_p then set_price_per_unit (total_price r2 / quantity r2) r2 else r2 in
  if mismatch && negb (in_q || in_p || conflict)
  then set_total_price (quantity r3 * price_per_unit r3) r3 else r3.

(** The two records agree outside quantity, price_per_unit, total_price. *)
Definition same_identity (r r' : row D) : Prop :=
  transaction_id r' = transaction_id r /\ customer_id r' = customer_id r
  /\ product_id r' = product_id r /\ product_name r' = product_name r
  /\ transaction_date r' = transaction_date r.

(** At most one of quantity, price_per_unit, total_price differs. *)
Definition at_most_one_field_differs (r r' : row D) : Prop :=
  (price_per_unit r' = price_per_unit r /\ total_price r' = total_price r)
  \/ (quantity r' = quantity r /\ total_price r' = total_price r)
  \/ (quantity r' = quantity r /\ price_per_unit r' = price_per_unit r).

(** The three fields are as the rounding step leaves them. *)
Definition fixed_by_rounding (r : row D) : Prop :=
  astype_Int64 (round 0 (quantity r)) = Ok (quantity r)
  /\ round 2 (price_per_unit r) = price_per_unit r
  /\ round 2 (total_price r) = total_price r.

(** What the pass prints for a table, given what the rounding returned. *)
Definition reconciler_log (df : table D) (rounded : result (table D))
  : list event :=
  let conflicts :=
    column (fun r => flagged r && quantity_suspicious r && price_suspicious r) df in
  Found_mismatches (List.length (filter flagged df))
  :: (if mask_any conflicts then [Resolving_conflicts (mask_sum conflicts)] else [])
  ++ match rounded with
     | Ok out => [Remaining_mismatches (mask_sum (column flagged out));
                  Removed_outliers (List.length df - List.length out)]
     | Raise _ => []
     end.

(** Neither the quantity nor the price of the record exceeds its
    threshold. *)
Definition within_thresholds (r : row D) : Prop :=
  quantity_suspicious r = false /\ price_suspicious r = false.

(** The correction of a record whose quantity and price are within the
    thresholds: only the total is recomputed. *)
Definition total_recomputed (r : row D) : row D :=
  if flagged r then set_total_price (quantity r * price_per_unit r) r else r.

(** |total_price - quantity x price_per_unit| of the three numbers the
    doubles stand for, computed without rounding. *)
Definition exact_discrepancy (r : row D) : option Q :=
  match to_Q (total_price r), to_Q (quantity r), to_Q (price_per_unit r) with
  | Some t, Some q, Some p => Some (Qabs (t - q * p))%Q
  | _, _, _ => None
  end.

(** The three fields are finite and the discrepancy, computed without
    rounding, is at most 0.01. *)
Definition within_exact_tolerance (r : row D) : bool :=
  match exact_discrepancy r with
  | Some d => Qle_bool d (1 # 100)
  | None => false
  end.

End Vocabulary.

Arguments missing_count {D} r.
Arguments repair_from_original {D} r.
Arguments repair_in_sequence {D} r.
Arguments complete {D} r.
Arguments missing_value_repair_spec {D} df.
Arguments satisfies_relation {D} r.
Arguments flagged {D} r.
Arguments quantity_suspicious {D} r.
Arguments price_suspicious {D} r.
Arguments reconcile_spec {D} r.
Arguments reconcile_in_sequence {D} r.
Arguments same_identity {D} r r'.
Arguments at_most_one_field_differs {D} r r'.
Arguments fixed_by_rounding {D} r.
Arguments reconciler_log {D} df rounded.
Arguments within_thresholds {D} r.
Arguments total_recomputed {D} r.
Arguments exact_discrepancy {D} r.
Arguments within_exact_tolerance {D} r.

(** ** Sample records *)

Module Samples.

Open Scope string_scope.

Definition record (id : string) (q p t : float) : row Datetime.date :=
  mkRow (Some id) (Some "CUST001") (Some "PROD001") (Some "Laptop") q p t
        (Datetime.mkDate 2025 3 9).

(** Price missing and a quantity of zero: the repair divides by zero. *)
Definition price_missing_zero_quantity := record "t1" 0 nan 5.

(** Price missing, quantity 2 and total 200. *)
Definition price_missing := record "t2" 2 nan 200.

(** Price missing, quantity 3 and total 123.45. *)
Definition price_missing_thirds := record "t3" 3 nan 123.45.

(** Three at 0.33 for a total of 1.00: one cent from 0.99. *)
Definition one_cent_off := record "t4" 3 0.33 1.

(** The reconciler examples of the specification: both thresholds
    exceeded, and only the quantity large. *)
Definition both_large := record "t5" 150 1500 300.
Definition quantity_large := record "t6" 150 10 1000.

(** Not a mismatch (the difference is 1/256), with a fractional quantity. *)
Definition fractional_quantity := record "t7" 2.00390625 1 2.

(** A mismatch of one half on a total of 225000.5, both thresholds
    exceeded: the recomputed quantity rounds back to 150. *)
Definition rounds_back := record "t8" 150 1500 225000.5.

(** A mismatch resolved on the total, whose price is 10.0078125. *)
Definition fine_price := record "t9" 2 10.0078125 50.

(** A mismatch whose quantity is already total / price as doubles. *)
Definition same_quotient := record "t10" 630421300418521 425.1 2.679920948079133e17.

(** A plain mismatch: 2 x 10 against 50. *)
Definition paid_50 := record "t11" 2 10 50.

End Samples.

End Binary64.

(** * ASCII text *)

(** The characters of the text are ASCII characters, the alphabet on which
    [Py.strip], [Py.lower], [Py.title], the class [\s] and the matching of
    letters under IGNORECASE are those of Python. *)
Definition is_ascii (c : ascii) : bool := (nat_of_ascii c <? 128)%nat.

Fixpoint ascii_text (s : string) : bool :=
  match s with
  | EmptyString => true
  | String c s' => is_ascii c && ascii_text s'
  end.

(** The cell holds a text, and the text is ASCII. *)
Definition ascii_cell (c : option string) : Prop :=
  exists s, c = Some s /\ ascii_text s = true.

(** The cell is missing or holds an ASCII text. *)
Definition ascii_or_missing (c : option string) : Prop :=
  forall s, c = Some s -> ascii_text s = true.

(** The product names and the dates of the raw table are ASCII texts. *)
Definition ascii_table (df : table (option string)) : Prop :=
  Forall (fun r => ascii_or_missing (product_name r)
                   /\ ascii_or_missing (transaction_date r)) df.

(** * Names outside ASCII

    A Python [str] is a sequence of Unicode code points, and [str.strip],
    [str.lower], [str.title] and the matching of [re] under IGNORECASE follow
    the Unicode character database.  The functions below are these
    operations on the texts made of the code points of ASCII, of U+0130
    (capital I with dot above) and of U+0307 (combining dot above).  What
    they compute on a text with another code point means nothing:
    [normalized_name], [title_cased_trimmed] and [no_rule_matches] return no
    value on such a text. *)

Module Unicode.

Open Scope N_scope.

Definition text : Type := list N.

Definition capital_I_with_dot : N := 304.   (* U+0130 *)
Definition combining_dot : N := 775.        (* U+0307 *)

Definition ascii_point (c : N) : bool := c <? 128.

Definition known (c : N) : bool :=
  ascii_point c || (c =? capital_I_with_dot) || (c =? combining_dot).

Definition known_text (s : text) : bool := forallb known s.

Fixpoint of_string (s : string) : text :=
  match s with
  | EmptyString => []
  | String c s' => N_of_ascii c :: of_string s'
  end.

(** [c.isspace()] of a code point of these texts: neither of the two beyond
    ASCII is white space. *)
Definition is_space (c : N) : bool :=
  ascii_point c && Py.is_space (ascii_of_N c).

(** The property Cased of a code point of these texts: the letters, U+0130
    among them; U+0307 is not cased. *)
Definition is_cased (c : N) : bool :=
  (ascii_point c && Py.is_cased (ascii_of_N c)) || (c =? capital_I_with_dot).

(** The full lower-case mapping of a code point of these texts: U+0130
    becomes the two code points U+0069 U+0307. *)
Definition to_lower_full (c : N) : text :=
  if ascii_point c then [N_of_ascii (Py.lower_char (ascii_of_N c))]
  else if c =? capital_I_with_dot then [105; combining_dot]
  else [c].

(** The full title-case mapping of a code point of these texts: U+0130 is
    its own title case and U+0307 has none. *)
Definition to_title_full (c : N) : text :=
  if ascii_point c then [N_of_ascii (Py.upper_char (ascii_of_N c))]
  else [c].

(** The simple lower-case mapping of a code point of these texts, with
    which [re] compares under IGNORECASE. *)
Definition simple_lower (c : N) : N :=
  if ascii_point c then N_of_ascii (Py.lower_char (ascii_of_N c))
  else if c =? capital_I_with_dot then 105
  else c.

(** [s.lower()] *)
Definition lower (s : text) : text := flat_map to_lower_full s.

Fixpoint lstrip (s : text) : text :=
  match s with
  | [] => []
  | c :: s' => if is_space c then lstrip s' else s
  end.

Fixpoint rstrip (s : text) : text :=
  match s with
  | [] => []
  | c :: s' =>
      match rstrip s' with
      | [] => if is_space c then [] else [c]
      | r => c :: r
      end
  end.

(** [s.strip()] *)
Definition strip (s : text) : text := rstrip (lstrip s).

(** [s.title()]: a code point is mapped to its title case when the code
    point before it is not cased, and to its lower case otherwise. *)
Fixpoint title_from (previous_is_cased : bool) (s : text) : text :=
  match s with
  | [] => []
  | c :: s' =>
      ((if previous_is_cased then to_lower_full c else to_title_full c)
       ++ title_from (is_cased c) s')%list
  end.

Definition title (s : text) : text := title_from false s.

(** [re.search(pattern, s, re.IGNORECASE)] for the patterns of the rule
    table, whose characters are ASCII. *)
Definition char_matches (c : ascii) (a : N) : bool :=
  N_of_ascii (Py.lower_char c) =? simple_lower a.

Definition item_matches (i : Re.set_item) (a : N) : bool :=
  match i with
  | Re.Item_char c => char_matches c a
  | Re.Item_space => is_space a
  end.

Definition in_set (items : list Re.set_item) (a : N) : bool :=
  existsb (fun i => item_matches i a) items.

Fixpoint match_here (p : Re.pattern) (s : text) : bool :=
  match p with
  | [] => true
  | Re.Char c :: p' =>
      match s with
      | a :: s' => char_matches c a && match_here p' s'
      | [] => false
      end
  | Re.Optional_set items :: p' =>
      match s with
      | a :: s' => (in_set items a && match_here p' s') || match_here p' s
      | [] => match_here p' s
      end
  end.

Fixpoint search (p : Re.pattern) (s : text) : bool :=
  match_here p s
  || match s with
     | _ :: s' => search p s'
     | [] => false
     end.

(** The inner function [normalize_product_name] on a text. *)
Fixpoint normalize_with (mapping : list (Re.pattern * string)) (name : text)
  : text :=
  match mapping with
  | [] => title name
  | (pattern, replacement) :: rest =>
      if search pattern name then of_string replacement
      else normalize_with rest name
  end.

Definition normalize_product_name : text -> text :=
  normalize_with Config.PRODUCT_MAPPING.

(** What the pass does to a cell that holds the text [name]: trim,
    lower-case, then the rule loop. *)
Definition normalized_name (name : text) : option text :=
  if known_text name
  then Some (normalize_product_name (lower (strip name)))
  else None.




End Unicode.
(** * Properties *)

(** ** Masks and tables *)

Section MaskFacts.

Variable D : Type.
Implicit Types (df : table D) (f g : row D -> bool) (h k : row D -> row D).

Lemma column_map f h df :
  column f (map h df) = column (fun r => f (h r)) df.
Proof. unfold column. now rewrite map_map. Qed.

Lemma mask_and_column f g df :
  mask_and (column f df) (column g df) = column (fun r => f r && g r) df.
Proof. induction df as [|r df IH]; simpl; [reflexivity | now rewrite IH]. Qed.

Lemma mask_or_column f g df :
  mask_or (column f df) (column g df) = column (fun r => f r || g r) df.
Proof. induction df as [|r df IH]; simpl; [reflexivity | now rewrite IH]. Qed.

Lemma mask_not_column f df :
  mask_not (column f df) = column (fun r => negb (f r)) df.
Proof. unfold mask_not, column. now rewrite map_map. Qed.

Lemma loc_set_column_map f k h df :
  loc_set (column f df) k (map h df)
  = map (fun r => if f r then k (h r) else h r) df.
Proof. induction df as [|r df IH]; simpl; [reflexivity | now rewrite IH]. Qed.

Lemma loc_set_column f k df :
  loc_set (column f df) k df = map (fun r => if f r then k r else r) df.
Proof. induction df as [|r df IH]; simpl; [reflexivity | now rewrite IH]. Qed.

Lemma select_column_map f h df :
  select (column f df) (map h df) = map h (filter f df).
Proof.
  induction df as [|r df IH]; simpl; [reflexivity|].
  destruct (f r); simpl; now rewrite IH.
Qed.

Lemma select_column f df : select (column f df) df = filter f df.
Proof.
  induction df as [|r df IH]; simpl; [reflexivity|].
  destruct (f r); simpl; now rewrite IH.
Qed.

Lemma filter_map_swap (f : row D -> bool) h df :
  filter f (map h df) = map h (filter (fun r => f (h r)) df).
Proof.
  induction df as [|r df IH]; simpl; [reflexivity|].
  destruct (f (h r)); simpl; now rewrite IH.
Qed.

Lemma loc_set_none mask k df :
  mask_any mask = false -> loc_set mask k df = df.
Proof.
  revert df; induction mask as [|b mask IH]; intros [|r df] H; simpl in *;
    try reflexivity.
  apply orb_false_iff in H as [-> H]. now rewrite IH.
Qed.

End MaskFacts.

(** The mask algebra as a rewrite database: masks and assignments over a
    mapped table become column tests and maps over the table itself. *)
Create Rewrite HintDb masks.
#[local] Hint Rewrite column_map mask_not_column mask_and_column mask_or_column
  loc_set_column_map : masks.

(** ** Pass 1: the missing-value repair *)

Section MissingValuesFacts.

Variable D : Type.
Implicit Types (df : table D) (r : row D).

Lemma handle_missing_values_rowwise df :
  _handle_missing_values df
  = (let out := filter complete (map repair_in_sequence df) in
     ([Removed_missing (List.length df - List.length out)], Ok out)).
Proof.
  unfold _handle_missing_values; cbv zeta.
  repeat rewrite mask_and_column.
  repeat rewrite loc_set_column.
  rewrite select_column, !map_map.
  reflexivity.
Qed.

(** A repair never reads a field another repair has written: the sequence
    of assignments equals the repair from the original record. *)
Lemma repair_in_sequence_original r :
  repair_in_sequence r = repair_from_original r.
Proof.
  destruct r as [i c p n q u t d].
  unfold repair_in_sequence, repair_from_original, missing; cbn.
  destruct q, u, t; reflexivity.
Qed.

Lemma handle_missing_values_returns df :
  returned (_handle_missing_values df) = Ok (missing_value_repair_spec df).
Proof.
  rewrite handle_missing_values_rowwise. cbn.
  unfold missing_value_repair_spec.
  now rewrite (map_ext _ _ repair_in_sequence_original).
Qed.

End MissingValuesFacts.

(** ** float64 cells *)

Section F64Facts.

Open Scope Qc_scope.

Lemma Qc_eqb_eq (a b : Qc) : F64.Qc_eqb a b = true <-> a = b.
Proof.
  unfold F64.Qc_eqb. rewrite Qceq_alt.
  destruct (a ?= b); split; congruence.
Qed.

Lemma F64_eqb_eq (x y : F64.t) : F64.eqb x y = true <-> x = y.
Proof.
  destruct x, y; cbn; try (split; congruence).
  rewrite Qc_eqb_eq. split; congruence.
Qed.

End F64Facts.

(** ** Deciding the equality of tables *)

Lemma option_eqb_eq {A} (eqb : A -> A -> bool) :
  (forall a b, eqb a b = true <-> a = b) ->
  forall x y, option_eqb eqb x y = true <-> x = y.
Proof.
  intros H [a|] [b|]; cbn; try (split; congruence).
  rewrite H. split; congruence.
Qed.

Lemma date_eqb_eq (a b : Datetime.date) : Datetime.date_eqb a b = true <-> a = b.
Proof.
  destruct a as [y m d], b as [y' m' d']; unfold Datetime.date_eqb; cbn.
  rewrite !andb_true_iff, !Z.eqb_eq. split.
  - intros [[-> ->] ->]. reflexivity.
  - intros [= -> -> ->]. auto.
Qed.

Lemma raw_eqb_eq (a b : option string) : raw_eqb a b = true <-> a = b.
Proof. apply option_eqb_eq, String.eqb_eq. Qed.

Lemma date_cell_eqb_eq (a b : option Datetime.date) :
  date_cell_eqb a b = true <-> a = b.
Proof. apply option_eqb_eq, date_eqb_eq. Qed.

Section TableEqualityFacts.

Variable D : Type.
Variable D_eqb : D -> D -> bool.
Hypothesis D_eqb_eq : forall a b, D_eqb a b = true <-> a = b.

Lemma content_eqb_eq (a b : content D) : content_eqb D_eqb a b = true <-> a = b.
Proof.
  destruct a as [[[[[[c1 p1] n1] q1] u1] t1] d1].
  destruct b as [[[[[[c2 p2] n2] q2] u2] t2] d2].
  unfold content_eqb.
  rewrite !andb_true_iff, !(option_eqb_eq String.eqb String.eqb_eq),
    !F64_eqb_eq, D_eqb_eq.
  split.
  - intros [[[[[[-> ->] ->] ->] ->] ->] ->]. reflexivity.
  - intros [= -> -> -> -> -> -> ->]. repeat split.
Qed.

Lemma row_eqb_eq (a b : row D) : row_eqb D_eqb a b = true <-> a = b.
Proof.
  unfold row_eqb.
  rewrite andb_true_iff, (option_eqb_eq String.eqb String.eqb_eq), content_eqb_eq.
  destruct a, b; cbn. split.
  - intros [-> [= -> -> -> -> -> -> ->]]. reflexivity.
  - intros [= -> -> -> -> -> -> -> ->]. auto.
Qed.

Lemma table_eqb_eq (x y : table D) : table_eqb D_eqb x y = true <-> x = y.
Proof.
  revert y; induction x as [|a x IH]; intros [|b y]; cbn;
    try (split; congruence).
  rewrite andb_true_iff, row_eqb_eq, IH. split.
  - intros [-> ->]. reflexivity.
  - intros [= -> ->]. auto.
Qed.

Lemma Ok_table_eqb (x y : table D) :
  table_eqb D_eqb x y = true -> @Ok (table D) x = Ok y.
Proof. intros H. f_equal. now apply table_eqb_eq. Qed.

End TableEqualityFacts.

(** Closes a goal [Ok t1 = Ok t2] between tables of raw records by
    evaluating both sides. *)
Ltac raw_tables_agree :=
  vm_compute; apply (@Ok_table_eqb _ _ raw_eqb_eq); vm_compute; reflexivity.

Ltac clean_tables_agree :=
  vm_compute; apply (@Ok_table_eqb _ _ date_cell_eqb_eq); vm_compute; reflexivity.

(** ** The missing-value repair: the claims *)

(** C1.  The missing-value pass returns, for every table, the records
    repaired from their original fields, without those that remain
    incomplete.  A record with exactly one of quantity, price_per_unit,
    total_price missing gets that field from
    total_price = quantity x price_per_unit, computed from the two original
    fields (price first, then quantity, then total); a record with two or
    more of them missing is dropped, as is any record with a field still
    undefined after the repair. *)
Theorem C1_missing_value_repair (D : Type) (df : table D) :
  _handle_missing_values df
  = ([Removed_missing
        (List.length df - List.length (missing_value_repair_spec df))],
     Ok (missing_value_repair_spec df))
  /\ (forall r, In r df -> missing_count r = 1 ->
        repair_from_original r
        = if missing (price_per_unit r)
          then set_price_per_unit (F64.div (total_price r) (quantity r)) r
          else if missing (quantity r)
          then set_quantity (F64.div (total_price r) (price_per_unit r)) r
          else set_total_price (F64.mul (quantity r) (price_per_unit r)) r)
  /\ (forall r, In r df -> 2 <= missing_count r ->
        complete (repair_from_original r) = false)
  /\ (forall r', In r' (missing_value_repair_spec df) <->
        exists r, In r df /\ r' = repair_from_original r /\ complete r' = true).
Proof.
  split; [|split; [|split]].
  - rewrite handle_missing_values_rowwise. cbv zeta.
    unfold missing_value_repair_spec.
    now rewrite (map_ext _ _ (@repair_in_sequence_original D)).
  - intros [i c p n q u t d] _.
    unfold missing_count, repair_from_original, missing; cbn.
    destruct q, u, t; cbn; intros H; try reflexivity; discriminate.
  - intros [i c p n q u t d] _.
    unfold missing_count, repair_from_original, complete, missing, present; cbn.
    destruct q, u, t; cbn; intros H; try reflexivity; lia.
  - intros r'. unfold missing_value_repair_spec.
    rewrite filter_In, in_map_iff. split.
    + intros [(r & <- & Hr) Hc]. exists r. auto.
    + intros (r & Hr & -> & Hc). split; [exists r|]; auto.
Qed.

(** The record with a missing price gets total_price / quantity = 100. *)
Lemma C1_missing_value_repair_witness :
  missing_count Samples.price_missing = 1
  /\ returned (_handle_missing_values [Samples.price_missing])
     = Ok [set_price_per_unit (F64.of_Z 100) Samples.price_missing].
Proof.
  split; [reflexivity|].
  destruct (C1_missing_value_repair [Samples.price_missing])
    as (Hrun & Hone & _ & _).
  rewrite Hrun. unfold returned, snd, missing_value_repair_spec.
  cbn [map]. rewrite (Hone Samples.price_missing (or_introl eq_refl) eq_refl).
  raw_tables_agree.
Defined.

(** ** Pass 2: the product-name normalizer *)

Section StringFacts.

Lemma lower_char_idem c : Py.lower_char (Py.lower_char c) = Py.lower_char c.
Proof. destruct c as [[] [] [] [] [] [] [] []]; reflexivity. Qed.

Lemma upper_lower_char c : Py.upper_char (Py.lower_char c) = Py.upper_char c.
Proof. destruct c as [[] [] [] [] [] [] [] []]; reflexivity. Qed.

Lemma is_cased_lower_char c : Py.is_cased (Py.lower_char c) = Py.is_cased c.
Proof. destruct c as [[] [] [] [] [] [] [] []]; reflexivity. Qed.

Lemma title_from_lower b s : Py.title_from b (Py.lower s) = Py.title_from b s.
Proof.
  revert b; induction s as [|c s IH]; intros b; cbn; [reflexivity|].
  rewrite is_cased_lower_char, IH.
  destruct b; now rewrite ?lower_char_idem, ?upper_lower_char.
Qed.

(** Title-casing does not see the case of its input. *)
Lemma title_lower s : Py.title (Py.lower s) = Py.title s.
Proof. apply title_from_lower. Qed.

End StringFacts.

Section ProductNamesFacts.

(** The rule loop returns at the first rule that matches. *)
Lemma normalize_with_first_match mapping s :
  normalize_with mapping (Some s)
  = Ok match find (fun rule => Re.search (fst rule) s) mapping with
       | Some (_, canonical) => canonical
       | None => Py.title s
       end.
Proof.
  induction mapping as [|[pattern replacement] rest IH]; cbn; [reflexivity|].
  destruct (Re.search pattern s); [reflexivity | exact IH].
Qed.

Lemma normalized_name_spec name :
  normalized_name (Some name)
  = Ok (canonical_name_spec Config.PRODUCT_MAPPING name).
Proof.
  unfold normalized_name, normalize_product_name, canonical_name_spec.
  cbn [str_lower str_strip option_map].
  rewrite normalize_with_first_match.
  destruct (find _ _) as [[? ?]|]; [reflexivity|].
  now rewrite title_lower.
Qed.

Lemma normalize_with_missing mapping :
  exists e, normalize_with mapping None = Raise e.
Proof. destruct mapping as [|[? ?] ?]; cbn; eauto. Qed.

Variable D : Type.

(** The pass applies [normalized_name] to the cells in index order. *)
Lemma normalize_product_names_rowwise (df : table D) :
  _normalize_product_names df
  = ([], apply_rows
           (fun r => match normalized_name (product_name r) with
                     | Ok name => Ok (set_product_name (Some name) r)
                     | Raise e => Raise e
                     end) df).
Proof.
  unfold _normalize_product_names, lift, ret, bind.
  assert (H : forall l : table D,
    apply_rows
      (fun r => match normalize_product_name (product_name r) with
                | Ok name => Ok (set_product_name (Some name) r)
                | Raise e => Raise e
                end)
      (map (fun r => set_product_name (str_lower (str_strip (product_name r))) r) l)
    = apply_rows
        (fun r => match normalized_name (product_name r) with
                  | Ok name => Ok (set_product_name (Some name) r)
                  | Raise e => Raise e
                  end) l).
  { induction l as [|r l IH]; [reflexivity|].
    cbn [apply_rows map product_name set_product_name].
    rewrite IH. unfold normalized_name.
    destruct (normalize_product_name _); reflexivity. }
  rewrite H. destruct (apply_rows _ df); reflexivity.
Qed.

End ProductNamesFacts.

(** ** Names as code points

    On ASCII text the operations on code points are the operations on ASCII
    strings. *)

Section UnicodeFacts.

Ltac each_char c := destruct c as [[] [] [] [] [] [] [] []].

Lemma unicode_is_space c : Unicode.is_space (N_of_ascii c) = Py.is_space c.
Proof. each_char c; reflexivity. Qed.

Lemma unicode_is_cased c :
  is_ascii c = true -> Unicode.is_cased (N_of_ascii c) = Py.is_cased c.
Proof. each_char c; intros H; try discriminate H; reflexivity. Qed.

Lemma unicode_to_lower c :
  is_ascii c = true ->
  Unicode.to_lower_full (N_of_ascii c) = [N_of_ascii (Py.lower_char c)].
Proof. each_char c; intros H; try discriminate H; reflexivity. Qed.

Lemma unicode_to_title c :
  is_ascii c = true ->
  Unicode.to_title_full (N_of_ascii c) = [N_of_ascii (Py.upper_char c)].
Proof. each_char c; intros H; try discriminate H; reflexivity. Qed.

Lemma unicode_char_matches c a :
  is_ascii a = true ->
  Unicode.char_matches c (N_of_ascii a) = Re.char_matches c a.
Proof.
  intros H. unfold Unicode.char_matches, Re.char_matches, Unicode.simple_lower.
  replace (Unicode.ascii_point (N_of_ascii a)) with true
    by (each_char a; try discriminate H; reflexivity).
  rewrite ascii_N_embedding.
  destruct (Ascii.eqb_spec (Py.lower_char c) (Py.lower_char a)) as [->|Hne].
  - apply N.eqb_refl.
  - apply N.eqb_neq. intros E. apply Hne.
    rewrite <- (ascii_N_embedding (Py.lower_char c)),
            <- (ascii_N_embedding (Py.lower_char a)).
    now rewrite E.
Qed.

Lemma ascii_lower_char c : is_ascii c = true -> is_ascii (Py.lower_char c) = true.
Proof. each_char c; intros H; try discriminate H; reflexivity. Qed.

Lemma ascii_upper_char c : is_ascii c = true -> is_ascii (Py.upper_char c) = true.
Proof. each_char c; intros H; try discriminate H; reflexivity. Qed.

Lemma unicode_known s :
  ascii_text s = true -> Unicode.known_text (Unicode.of_string s) = true.
Proof.
  unfold Unicode.known_text.
  induction s as [|c s IH]; cbn [Unicode.of_string ascii_text forallb];
    [reflexivity|].
  intros H. apply andb_true_iff in H as [Hc Hs]. rewrite (IH Hs), andb_true_r.
  unfold Unicode.known.
  replace (Unicode.ascii_point (N_of_ascii c)) with true
    by (each_char c; try discriminate Hc; reflexivity).
  reflexivity.
Qed.

Lemma unicode_lower s :
  ascii_text s = true ->
  Unicode.lower (Unicode.of_string s) = Unicode.of_string (Py.lower s)
  /\ ascii_text (Py.lower s) = true.
Proof.
  unfold Unicode.lower.
  induction s as [|c s IH];
    cbn [Unicode.of_string Py.lower ascii_text flat_map]; [auto|].
  intros H. apply andb_true_iff in H as [Hc Hs].
  destruct (IH Hs) as [E Ha].
  rewrite (unicode_to_lower _ Hc), E, (ascii_lower_char _ Hc), Ha. auto.
Qed.

Lemma unicode_lstrip s :
  ascii_text s = true ->
  Unicode.lstrip (Unicode.of_string s) = Unicode.of_string (Py.lstrip s)
  /\ ascii_text (Py.lstrip s) = true.
Proof.
  induction s as [|c s IH];
    cbn [Unicode.of_string Py.lstrip Unicode.lstrip]; [auto|].
  intros H. pose proof H as H'. cbn [ascii_text] in H.
  apply andb_true_iff in H as [Hc Hs].
  rewrite unicode_is_space. destruct (Py.is_space c); auto.
Qed.

Lemma unicode_rstrip s :
  ascii_text s = true ->
  Unicode.rstrip (Unicode.of_string s) = Unicode.of_string (Py.rstrip s)
  /\ ascii_text (Py.rstrip s) = true.
Proof.
  induction s as [|c s IH];
    cbn [Unicode.of_string Py.rstrip Unicode.rstrip ascii_text]; [auto|].
  intros H. apply andb_true_iff in H as [Hc Hs].
  destruct (IH Hs) as [E Ha]. rewrite E, unicode_is_space.
  destruct (Py.rstrip s) as [|c' r]; cbn [Unicode.of_string].
  - destruct (Py.is_space c); cbn [Unicode.of_string ascii_text];
      rewrite ?Hc; auto.
  - cbn [ascii_text] in *. rewrite Hc, Ha. auto.
Qed.

Lemma unicode_strip s :
  ascii_text s = true ->
  Unicode.strip (Unicode.of_string s) = Unicode.of_string (Py.strip s)
  /\ ascii_text (Py.strip s) = true.
Proof.
  intros H. unfold Unicode.strip, Py.strip.
  destruct (unicode_lstrip _ H) as [E Ha]. rewrite E.
  now apply unicode_rstrip.
Qed.

Lemma unicode_title_from b s :
  ascii_text s = true ->
  Unicode.title_from b (Unicode.of_string s)
  = Unicode.of_string (Py.title_from b s).
Proof.
  revert b; induction s as [|c s IH]; intros b;
    cbn [Unicode.of_string Py.title_from Unicode.title_from ascii_text];
    [reflexivity|].
  intros H. apply andb_true_iff in H as [Hc Hs].
  rewrite (unicode_is_cased _ Hc), (IH _ Hs),
    (unicode_to_lower _ Hc), (unicode_to_title _ Hc).
  destruct b; reflexivity.
Qed.

Lemma unicode_in_set items a :
  is_ascii a = true ->
  Unicode.in_set items (N_of_ascii a) = Re.in_set items a.
Proof.
  intros Ha. unfold Unicode.in_set, Re.in_set.
  induction items as [|[c|] items IH];
    cbn [existsb Unicode.item_matches Re.item_matches]; [reflexivity| |].
  - now rewrite (unicode_char_matches _ _ Ha), IH.
  - now rewrite unicode_is_space, IH.
Qed.

Lemma unicode_match_here p s :
  ascii_text s = true ->
  Unicode.match_here p (Unicode.of_string s) = Re.match_here p s.
Proof.
  revert s; induction p as [|[c|items] p IH]; intros s H; [reflexivity| |].
  - destruct s as [|a s];
      cbn [Unicode.match_here Re.match_here Unicode.of_string]; [reflexivity|].
    cbn [ascii_text] in H. apply andb_true_iff in H as [Ha Hs].
    now rewrite (unicode_char_matches _ _ Ha), (IH _ Hs).
  - destruct s as [|a s];
      cbn [Unicode.match_here Re.match_here Unicode.of_string].
    + apply (IH EmptyString eq_refl).
    + pose proof H as H'. cbn [ascii_text] in H.
      apply andb_true_iff in H as [Ha Hs].
      rewrite (IH _ Hs), (unicode_in_set _ _ Ha).
      change (N_of_ascii a :: Unicode.of_string s)
        with (Unicode.of_string (String a s)).
      now rewrite (IH _ H').
Qed.

Lemma unicode_search p s :
  ascii_text s = true ->
  Unicode.search p (Unicode.of_string s) = Re.search p s.
Proof.
  induction s as [|a s IH]; intros H.
  - cbn [Unicode.search Re.search Unicode.of_string]. f_equal.
    apply (unicode_match_here p EmptyString eq_refl).
  - cbn [Unicode.search Re.search Unicode.of_string].
    change (N_of_ascii a :: Unicode.of_string s)
      with (Unicode.of_string (String a s)).
    rewrite (unicode_match_here _ _ H).
    cbn [ascii_text] in H. apply andb_true_iff in H as [_ Hs].
    now rewrite (IH Hs).
Qed.

(** On an ASCII name the normalizer on code points returns what the
    normalizer on ASCII strings returns. *)
Lemma unicode_normalized_ascii name :
  ascii_text name = true ->
  exists n,
    normalized_name (Some name) = Ok n
    /\ Unicode.normalized_name (Unicode.of_string name)
       = Some (Unicode.of_string n).
Proof.
  intros H. unfold Unicode.normalized_name, normalized_name.
  rewrite (unicode_known _ H).
  destruct (unicode_strip _ H) as [Es Hs]. rewrite Es.
  destruct (unicode_lower _ Hs) as [El Hl]. rewrite El.
  cbn [str_strip str_lower option_map].
  set (key := Py.lower (Py.strip name)) in *.
  unfold Unicode.normalize_product_name, normalize_product_name.
  induction Config.PRODUCT_MAPPING as [|[p c] rest IH]; cbn.
  - exists (Py.title key). split; [reflexivity|].
    unfold Unicode.title. now rewrite unicode_title_from.
  - rewrite (unicode_search _ _ Hl). destruct (Re.search p key); [|exact IH].
    exists c. auto.
Qed.

End UnicodeFacts.




(** C6.  Every canonical name of the rule table is a fixed point of the
    normalizer: a record whose product name is already canonical leaves the
    pass as it entered it. *)
Theorem C6_canonical_names_fixed :
  Forall (fun canonical : string =>
            normalized_name (Some canonical) = Ok canonical
            /\ forall D (r : row D),
                returned (_normalize_product_names
                            [set_product_name (Some canonical) r])
                = Ok [set_product_name (Some canonical) r])
         canonical_vocabulary.
Proof.
  assert (H : forall canonical : string,
             normalized_name (Some canonical) = Ok canonical ->
             normalized_name (Some canonical) = Ok canonical
             /\ forall D (r : row D),
                 returned (_normalize_product_names
                             [set_product_name (Some canonical) r])
                 = Ok [set_product_name (Some canonical) r]).
  { intros canonical Hn. split; [exact Hn|]. intros D r.
    rewrite normalize_product_names_rowwise.
    unfold returned, snd. cbn [apply_rows product_name set_product_name].
    rewrite Hn. destruct r; reflexivity. }
  unfold canonical_vocabulary.
  repeat (constructor; [apply H; reflexivity|]).
  constructor.
Qed.

(** C10.  A record with a missing product name is not resolved inside the
    normalizer: [re.search] is called on the missing cell and its TypeError
    leaves the pass and the pipeline.  (The date pass, by contrast, tests
    [pd.isna] before it touches the cell.) *)
Theorem C10_missing_product_name_raises :
  returned (_normalize_product_names [Samples.laptop; Samples.name_missing])
  = Raise TypeError
  /\ returned (clean_data [Samples.laptop; Samples.name_missing])
     = Raise TypeError
  /\ (forall D (df : table D),
        Exists (fun r => product_name r = None) df ->
        exists e, returned (_normalize_product_names df) = Raise e).
Proof.
  split; [reflexivity|]. split; [reflexivity|].
  intros D df Hex. rewrite normalize_product_names_rowwise.
  unfold returned, snd.
  induction Hex as [r df Hr | r df Hex IH]; cbn [apply_rows].
  - rewrite Hr. cbn. eauto.
  - destruct (normalized_name (product_name r)); [|eauto].
    destruct IH as [e ->]. eauto.
Qed.

(** The two-record table of the statement has a record without a name. *)
Lemma C10_missing_product_name_raises_witness :
  exists e,
    returned (_normalize_product_names [Samples.laptop; Samples.name_missing])
    = Raise e.
Proof.
  apply (proj2 (proj2 C10_missing_product_name_raises)).
  apply Exists_cons_tl, Exists_cons_hd. reflexivity.
Defined.

(** ** Pass 3: the date standardizer *)

Section DatesFacts.

Import Datetime.
Local Open Scope nat_scope.

Lemma compile_from_raises n :
  forall fmt b e,
    (String.length fmt <= n)%nat -> compile_from b fmt = Raise e -> e = ValueError.
Proof.
  assert (Hcons : forall d (r : result (list directive)) e,
             (forall e', r = Raise e' -> e' = ValueError) ->
             match r with Ok ds => Ok (d :: ds) | Raise e0 => Raise e0 end
             = Raise e -> e = ValueError).
  { intros d [ds|e0] e H; [discriminate|]. intros [= <-]. now apply H. }
  induction n as [|n IH]; intros fmt b e Hlen H.
  - destruct fmt; [discriminate | cbn in Hlen; lia].
  - destruct fmt as [|c rest]; [discriminate|].
    cbn in Hlen. cbn [compile_from] in H.
    destruct (Py.is_space c).
    + destruct b.
      * apply (IH rest true e); [lia | exact H].
      * apply Hcons in H; [exact H|]. intros e'. apply IH. lia.
    + destruct (Ascii.eqb c "%").
      * destruct rest as [|k rest']; [now injection H|].
        cbn in Hlen.
        repeat match type of H with
               | (if ?t then _ else _) = _ => destruct t
               end;
          try (apply Hcons in H; [exact H|]; intros e'; apply IH; lia).
        now injection H.
      * apply Hcons in H; [exact H|]. intros e'. apply IH. lia.
Qed.

(** [strptime] signals every failure with ValueError. *)
Lemma strptime_raises s fmt e : strptime s fmt = Raise e -> e = ValueError.
Proof.
  unfold strptime, compile.
  destruct (compile_from false fmt) as [ds|e0] eqn:E.
  - destruct (match_format ds (1900, 1, 1)%Z s) as [|[[[y m] d] rest] l].
    + now intros [= <-].
    + destruct rest; [destruct (valid_date y m d); [discriminate|]|];
        now intros [= <-].
  - intros [= <-]. eapply compile_from_raises; [|exact E]. apply Nat.le_refl.
Qed.

Lemma try_formats_some fmts s d :
  try_formats fmts s = Ok (Some d)
  <-> exists i fmt,
        nth_error fmts i = Some fmt /\ accepts fmt s d
        /\ forall j fmt' d', j < i -> nth_error fmts j = Some fmt' ->
                              ~ accepts fmt' s d'.
Proof.
  induction fmts as [|fmt rest IH]; cbn [try_formats].
  - split; [discriminate|]. intros ([|i] & f & H & _); discriminate H.
  - assert (Hskip :
      (forall d', ~ accepts fmt s d') ->
      (try_formats rest s = Ok (Some d)
       <-> exists i f,
             nth_error (fmt :: rest) i = Some f /\ accepts f s d
             /\ forall j f' d', j < i -> nth_error (fmt :: rest) j = Some f' ->
                                 ~ accepts f' s d')).
    { intros Hno. rewrite IH. split.
      - intros (i & f & Hi & Ha & Hb). exists (S i), f.
        split; [exact Hi|]. split; [exact Ha|].
        intros [|j] f' d' Hj Hn; cbn in Hn.
        + injection Hn as <-. apply Hno.
        + apply (Hb j); [lia | exact Hn].
      - intros ([|i] & f & Hi & Ha & Hb); cbn in Hi.
        + injection Hi as <-. now apply Hno in Ha.
        + exists i, f. split; [exact Hi|]. split; [exact Ha|].
          intros j f' d' Hj Hn. apply (Hb (S j)); [lia | exact Hn]. }
    destruct (strptime s fmt) as [pd|e] eqn:E.
    + fold (reasonable_year pd). destruct (reasonable_year pd) eqn:Ey.
      * split.
        -- intros [= <-]. exists 0%nat, fmt. repeat split; auto. intros; lia.
        -- intros ([|i] & f & Hi & [Ha Hy] & Hb); cbn in Hi.
           ++ injection Hi as <-. congruence.
           ++ exfalso. apply (Hb 0%nat fmt pd); [lia | reflexivity | now split].
      * apply Hskip. intros d' [Ha Hy]. congruence.
    + rewrite (strptime_raises _ _ E). apply Hskip.
      intros d' [Ha _]. congruence.
Qed.

Lemma try_formats_none fmts s :
  try_formats fmts s = Ok None
  <-> forall fmt d, In fmt fmts -> ~ accepts fmt s d.
Proof.
  induction fmts as [|fmt rest IH]; cbn [try_formats].
  - split; [intros _ fmt d [] | reflexivity].
  - assert (Hskip :
      (forall d', ~ accepts fmt s d') ->
      (try_formats rest s = Ok None
       <-> forall f d, In f (fmt :: rest) -> ~ accepts f s d)).
    { intros Hno. rewrite IH. split.
      - intros H f d [<- | Hin]; [apply Hno | now apply H].
      - intros H f d Hin. apply H. now right. }
    destruct (strptime s fmt) as [pd|e] eqn:E.
    + fold (reasonable_year pd). destruct (reasonable_year pd) eqn:Ey.
      * split; [discriminate|]. intros H. exfalso.
        apply (H fmt pd); [now left | now split].
      * apply Hskip. intros d' [Ha Hy]. congruence.
    + rewrite (strptime_raises _ _ E). apply Hskip.
      intros d' [Ha _]. congruence.
Qed.

Lemma try_formats_returns fmts s : exists o, try_formats fmts s = Ok o.
Proof.
  induction fmts as [|fmt rest IH]; cbn [try_formats]; [eauto|].
  destruct (strptime s fmt) as [pd|e] eqn:E.
  - destruct (_ && _)%bool; eauto.
  - now rewrite (strptime_raises _ _ E).
Qed.

Lemma parse_date_returns c : exists o, parse_date c = Ok o.
Proof.
  destruct c as [s|]; unfold parse_date; [|eauto].
  destruct (String.eqb s "Invalid Date"); [eauto | apply try_formats_returns].
Qed.

Lemma standardize_dates_rowwise df :
  _standardize_dates df
  = ([Removed_dates (List.length df - List.length (standardized_rows df))],
     Ok (standardized_rows df)).
Proof.
  unfold _standardize_dates.
  assert (H : apply_rows
                (fun r => match parse_date (transaction_date r) with
                          | Ok d => Ok (set_transaction_date d r)
                          | Raise e => Raise e
                          end) df
              = Ok (map (fun r => set_transaction_date
                                    (match parse_date (transaction_date r) with
                                     | Ok d => d
                                     | Raise _ => None
                                     end) r) df)).
  { induction df as [|r df IH]; cbn [apply_rows map]; [reflexivity|].
    destruct (parse_date_returns (transaction_date r)) as [o ->].
    now rewrite IH. }
  rewrite H. unfold lift, bind, print, ret. cbn [app].
  rewrite select_column.
  assert (Hrows :
    filter (fun r : row (option date) => is_some (transaction_date r))
      (map (fun r => set_transaction_date
                       (match parse_date (transaction_date r) with
                        | Ok d => d
                        | Raise _ => None
                        end) r) df)
    = standardized_rows df).
  { clear H. induction df as [|r df IH]; cbn; [reflexivity|].
    destruct (parse_date (transaction_date r)) as [[d|]|e]; cbn;
      now rewrite IH. }
  rewrite Hrows, length_map. reflexivity.
Qed.

End DatesFacts.

(** C4.  The date standardizer goes through the seven formats in their
    fixed order and returns the date of the first one that parses the text
    and gives a year within [1900, 2030]; a format that parses with a year
    out of range is passed over like one that does not parse.  A missing
    cell, the text "Invalid Date" and a text no format accepts give no
    date, and the pass drops exactly the records without a date. *)
Theorem C4_first_accepting_format :
  formats = [ "%Y-%m-%d"; "%Y/%m/%d"; "%d/%m/%Y"; "%m/%d/%Y";
              "%B %d, %Y"; "%d-%m-%y"; "%m/%d/%y" ]%string
  /\ parse_date None = Ok None
  /\ parse_date (Some "Invalid Date"%string) = Ok None
  /\ (forall s d, s <> "Invalid Date"%string ->
        (parse_date (Some s) = Ok (Some d)
         <-> exists i fmt,
               nth_error formats i = Some fmt /\ accepts fmt s d
               /\ forall j fmt' d', j < i -> nth_error formats j = Some fmt' ->
                                     ~ accepts fmt' s d'))
  /\ (forall s, s <> "Invalid Date"%string ->
        (parse_date (Some s) = Ok None
         <-> forall fmt d, In fmt formats -> ~ accepts fmt s d))
  /\ (forall c, exists o, parse_date c = Ok o)
  /\ (forall df,
        _standardize_dates df
        = ([Removed_dates (List.length df - List.length (standardized_rows df))],
           Ok (standardized_rows df)))
  /\ (forall df r',
        In r' (standardized_rows df)
        <-> exists r d, In r df
                        /\ parse_date (transaction_date r) = Ok (Some d)
                        /\ r' = set_transaction_date (Some d) r).
Proof.
  split; [reflexivity|]. split; [reflexivity|]. split; [reflexivity|].
  assert (Hne : forall s, s <> "Invalid Date"%string ->
                          parse_date (Some s) = try_formats formats s).
  { intros s Hs. unfold parse_date.
    destruct (String.eqb s "Invalid Date") eqn:E; [|reflexivity].
    now apply String.eqb_eq in E. }
  split; [|split; [|split; [|split]]].
  - intros s d Hs. rewrite (Hne s Hs). apply try_formats_some.
  - intros s Hs. rewrite (Hne s Hs). apply try_formats_none.
  - exact parse_date_returns.
  - exact standardize_dates_rowwise.
  - intros df r'. unfold standardized_rows. rewrite in_flat_map. split.
    + intros (r & Hr & Hin).
      destruct (parse_date (transaction_date r)) as [[d|]|e] eqn:E;
        try contradiction.
      destruct Hin as [<- | []]. exists r, d. auto.
    + intros (r & d & Hr & Hp & ->). exists r. split; [exact Hr|].
      rewrite Hp. now left.
Qed.

(** ["2025/03/10"] is not accepted by the first format and is by the
    second. *)
Lemma C4_first_accepting_format_witness :
  parse_date (Some "2025/03/10"%string)
  = Ok (Some (Datetime.mkDate 2025 3 10)).
Proof.
  destruct C4_first_accepting_format as (_ & _ & _ & Hsome & _).
  apply Hsome; [discriminate|].
  exists 1, "%Y/%m/%d"%string.
  split; [reflexivity|]. split; [split; reflexivity|].
  intros [|j] fmt' d' Hj Hn; [|lia].
  injection Hn as <-. intros [Hp _]. vm_compute in Hp. discriminate Hp.
Defined.

(** The dates of the specification's examples: the ISO and the slash form
    are read, "Invalid Date" is not, and a year 1850 is refused in every
    format that can express it. *)
Lemma date_examples :
  map (fun s => parse_date (Some s))
      [ "2025-03-09"; "2025/03/10"; "Invalid Date"; "invalid_date";
        "1850-03-09"; "1850/03/09"; "09/03/1850"; "March 09, 1850" ]%string
  = [ Ok (Some (Datetime.mkDate 2025 3 9)); Ok (Some (Datetime.mkDate 2025 3 10));
      Ok None; Ok None; Ok None; Ok None; Ok None; Ok None ].
Proof. vm_compute. reflexivity. Qed.

(** A two-digit year is read as 1969-1999 or 2000-2068, and 2031-2068 is
    out of range. *)
Lemma short_year_examples :
  map (fun s => parse_date (Some s)) [ "31-12-69"; "09-03-25"; "31-12-68" ]%string
  = [ Ok (Some (Datetime.mkDate 1969 12 31)); Ok (Some (Datetime.mkDate 2025 3 9));
      Ok None ].
Proof. vm_compute. reflexivity. Qed.

(** ** Pass 4: the duplicate eliminator *)

Section DuplicatesFacts.

Variable D : Type.
Variable D_eqb : D -> D -> bool.
Hypothesis D_eqb_eq : forall a b, D_eqb a b = true <-> a = b.

Implicit Types (df : table D) (seen : list (content D)).

Lemma seen_before seen (r : row D) :
  existsb (content_eqb D_eqb (subset r)) seen = true <-> In (subset r) seen.
Proof.
  rewrite existsb_exists. split.
  - intros (k & Hin & Hk). apply (@content_eqb_eq _ _ D_eqb_eq) in Hk. now subst.
  - intros Hin. exists (subset r). split; [exact Hin|].
    now apply (@content_eqb_eq _ _ D_eqb_eq).
Qed.

Lemma duplicated_from_length seen df :
  List.length (duplicated_from D_eqb seen df) = List.length df.
Proof.
  revert seen; induction df as [|r df IH]; intros seen; cbn; [reflexivity|].
  destruct (existsb _ seen); cbn; now rewrite IH.
Qed.

(** A row is marked exactly when its content is among [seen] or on an
    earlier row. *)
Lemma duplicated_from_marks seen df i r :
  nth_error df i = Some r ->
  (nth_error (duplicated_from D_eqb seen df) i = Some true
   <-> In (subset r) seen
       \/ exists j r', j < i /\ nth_error df j = Some r' /\ subset r' = subset r).
Proof.
  revert seen i; induction df as [|r0 df IH]; intros seen [|i] Hi;
    cbn in Hi; try discriminate.
  - injection Hi as ->. cbn [duplicated_from].
    destruct (existsb _ seen) eqn:E; cbn.
    + apply seen_before in E. split; auto.
    + split; [discriminate|]. intros [Hin | (j & r' & Hj & _)]; [|lia].
      apply seen_before in Hin. congruence.
  - cbn [duplicated_from].
    destruct (existsb _ seen) eqn:E; cbn [nth_error]; rewrite (IH _ _ Hi).
    + apply seen_before in E. split.
      * intros [Hin | (j & r' & Hj & Hn & Hs)]; [now left|].
        right. exists (S j), r'. repeat split; [lia | exact Hn | exact Hs].
      * intros [Hin | ([|j] & r' & Hj & Hn & Hs)]; [now left| |]; cbn in Hn.
        -- injection Hn as ->. left. now rewrite <- Hs.
        -- right. exists j, r'. repeat split; [lia | exact Hn | exact Hs].
    + split.
      * intros [[Heq | Hin] | (j & r' & Hj & Hn & Hs)].
        -- right. exists 0, r0. repeat split; [lia | exact Heq].
        -- now left.
        -- right. exists (S j), r'. repeat split; [lia | exact Hn | exact Hs].
      * intros [Hin | ([|j] & r' & Hj & Hn & Hs)]; try (cbn in Hn).
        -- left. now right.
        -- injection Hn as ->. left. now left.
        -- right. exists j, r'. repeat split; [lia | exact Hn | exact Hs].
Qed.

(** The rows kept have pairwise different contents, none of them seen
    before. *)
Lemma kept_rows_distinct seen df :
  let kept := select (mask_not (duplicated_from D_eqb seen df)) df in
  NoDup (map subset kept) /\ forall r, In r kept -> ~ In (subset r) seen.
Proof.
  revert seen; induction df as [|r0 df IH]; intros seen; cbn.
  - split; [constructor | intros r []].
  - destruct (existsb _ seen) eqn:E; cbn.
    + apply IH.
    + destruct (IH (subset r0 :: seen)) as [Hnd Hseen]. split.
      * constructor; [|exact Hnd].
        intros Hin. apply in_map_iff in Hin as (r & Hs & Hr).
        apply (Hseen r Hr). now left.
      * intros r [<- | Hr].
        -- intros Hin. apply seen_before in Hin. congruence.
        -- intros Hin. apply (Hseen r Hr). now right.
Qed.

Lemma NoDup_no_content_duplicates df :
  NoDup (map subset df) -> no_content_duplicates df.
Proof.
  intros Hnd i j ri rj Hij Hi Hj Heq. apply Hij.
  rewrite NoDup_nth_error in Hnd. apply Hnd.
  - rewrite length_map. apply nth_error_Some. congruence.
  - rewrite !nth_error_map, Hi, Hj. cbn. now rewrite Heq.
Qed.

Lemma drop_duplicates_distinct df :
  no_content_duplicates (drop_duplicates D_eqb df).
Proof.
  apply NoDup_no_content_duplicates, (kept_rows_distinct [] df).
Qed.

Lemma remove_duplicates_run df :
  _remove_duplicates D_eqb df
  = ([Removed_duplicates
        (List.length df - List.length (drop_duplicates D_eqb df))],
     Ok (drop_duplicates D_eqb df)).
Proof. reflexivity. Qed.

End DuplicatesFacts.

(** C9.  The duplicate eliminator marks a record as a duplicate exactly when
    an earlier record of the table is equal to it on every column except
    [transaction_id], and returns the unmarked records, in their original
    order and as they are ([transaction_id] included): of each group of
    content-identical records the first one, and only it, is retained. *)
Theorem C9_first_occurrence_kept
        (D : Type) (D_eqb : D -> D -> bool)
        (D_eqb_eq : forall a b, D_eqb a b = true <-> a = b) (df : table D) :
  returned (_remove_duplicates D_eqb df)
  = Ok (select (mask_not (duplicated D_eqb df)) df)
  /\ List.length (duplicated D_eqb df) = List.length df
  /\ (forall i r,
        nth_error df i = Some r ->
        (nth_error (duplicated D_eqb df) i = Some true
         <-> exists j r', j < i /\ nth_error df j = Some r'
                          /\ subset r' = subset r))
  /\ (forall r, In r df ->
        exists r', In r' (select (mask_not (duplicated D_eqb df)) df)
                   /\ subset r' = subset r).
Proof.
  split; [reflexivity|]. split; [apply duplicated_from_length|]. split.
  - intros i r Hi. unfold duplicated.
    rewrite (@duplicated_from_marks _ _ D_eqb_eq [] df i r Hi).
    split; [intros [[] | H]; exact H | intros H; now right].
  - intros r Hin. apply In_nth_error in Hin as [i Hi].
    revert r Hi. induction i as [i IH] using lt_wf_ind. intros r Hi.
    destruct (nth_error (duplicated D_eqb df) i) as [[|]|] eqn:E.
    + apply (@duplicated_from_marks _ _ D_eqb_eq [] df i r Hi) in E
        as [[] | (j & r' & Hj & Hn & Hs)].
      destruct (IH j Hj r' Hn) as (r'' & Hin & Hs'').
      exists r''. split; [exact Hin | congruence].
    + exists r. split; [|reflexivity].
      clear IH. unfold duplicated in *.
      generalize dependent (@nil (content D)). revert i Hi.
      induction df as [|r0 df IHdf]; intros [|i] Hi seen E; cbn in *;
        try discriminate.
      * injection Hi as ->. destruct (existsb _ seen); cbn in *;
          [discriminate | now left].
      * destruct (existsb _ seen); cbn in *.
        -- eapply IHdf; eauto.
        -- right. eapply IHdf; eauto.
    + exfalso. apply nth_error_None in E. unfold duplicated in E.
      rewrite (duplicated_from_length D_eqb [] df) in E.
      assert (i < List.length df) by (apply nth_error_Some; congruence). lia.
Qed.

(** The first of the two copies is retained, with its own identifier. *)
Lemma C9_first_occurrence_kept_witness :
  returned (_remove_duplicates date_cell_eqb
              [Samples.first_copy; Samples.second_copy; Samples.other_record])
  = Ok [Samples.first_copy; Samples.other_record].
Proof.
  rewrite (proj1 (@C9_first_occurrence_kept _ _ date_cell_eqb_eq
                    [Samples.first_copy; Samples.second_copy;
                     Samples.other_record])).
  clean_tables_agree.
Defined.

(** ** The pipeline *)

Lemma returned_bind {A B} (m : M A) (f : A -> M B) b :
  returned (bind m f) = Ok b ->
  exists a, returned m = Ok a /\ returned (f a) = Ok b.
Proof.
  destruct m as [l [a|e]]; cbn; [|discriminate].
  destruct (f a) as [l' r] eqn:E. cbn. intros ->. exists a. now rewrite E.
Qed.

(** The final [astype(int)] changes no value: it returns the table or
    raises. *)
Lemma finalizer_identity {D} (df out : table D) :
  apply_rows (fun r => match F64.astype_int (quantity r) with
                       | Ok q => Ok (set_quantity q r)
                       | Raise e => Raise e
                       end) df = Ok out ->
  out = df.
Proof.
  revert out; induction df as [|r df IH]; intros out; cbn.
  - now intros [= <-].
  - destruct r as [i c p n q u t d]; cbn.
    destruct q; cbn; try discriminate;
      (destruct (apply_rows _ df) as [l|e]; [|discriminate]);
      intros [= <-]; now rewrite (IH l eq_refl).
Qed.

(** C7, as stated, fails: the two sample records differ in their total
    when the duplicate eliminator compares them, the reconciler then
    recomputes the mismatching total of the second one, and the pipeline
    returns two records that agree on every column but [transaction_id]. *)
Lemma C7_pipeline_duplicates_counterexample :
  exists out,
    returned (clean_data [Samples.paid_20; Samples.paid_50]) = Ok out
    /\ ~ no_content_duplicates out.
Proof.
  exists [ Samples.dated "t1" "Laptop" (F64.of_Z 2) (F64.of_Z 10) (F64.of_Z 20)
             Samples.march_9;
           Samples.dated "t2" "Laptop" (F64.of_Z 2) (F64.of_Z 10) (F64.of_Z 20)
             Samples.march_9 ].
  split; [clean_tables_agree|].
  intros H. eapply (H 0 1); [discriminate | reflexivity | reflexivity |].
  reflexivity.
Qed.

(** ** Pass 5: the reconciler *)

Section RoundingFacts.

Open Scope Qc_scope.







End RoundingFacts.

Section OutliersFacts.

Variable D : Type.
Implicit Types (df : table D) (r : row D).

Lemma conflict_step (c : row D -> bool) (k : row D -> row D) df :
  (if mask_any (column c df)
   then print (Resolving_conflicts (mask_sum (column c df))) ;;;
        ret (loc_set (column c df) k df)
   else ret df)
  = ((if mask_any (column c df)
      then [Resolving_conflicts (mask_sum (column c df))] else []),
     Ok (map (fun r => if c r then k r else r) df)).
Proof.
  rewrite <- loc_set_column.
  destruct (mask_any (column c df)) eqn:E; [reflexivity|].
  now rewrite loc_set_none.
Qed.

Lemma bind_value {A B} (l : list event) (a : A) (f : A -> M B) :
  bind (l, Ok a) f = (l ++ fst (f a), snd (f a)).
Proof. cbn. now destruct (f a). Qed.

Lemma bind_print {B} (e : event) (k : M B) :
  bind (print e) (fun _ => k) = (e :: fst k, snd k).
Proof. cbn. now destruct k. Qed.

(** The pass, read row by row. *)
Lemma handle_outliers_in_sequence df :
  _handle_outliers df
  = (reconciler_log df (apply_rows round_row (map reconcile_in_sequence df)),
     apply_rows round_row (map reconcile_in_sequence df)).
Proof.
  unfold _handle_outliers, not_close. cbv zeta.
  fold (@flagged D).
  repeat rewrite mask_and_column.
  rewrite conflict_step, bind_print, bind_value.
  autorewrite with masks.
  rewrite select_column.
  match goal with
  | |- context [apply_rows round_row ?t] =>
      change t with (map (@reconcile_in_sequence D) df)
  end.
  unfold reconciler_log, lift.
  destruct (apply_rows round_row (map reconcile_in_sequence df)); reflexivity.
Qed.

(** The masks are disjoint: the sequence of assignments applies one rule. *)
Lemma reconcile_in_sequence_spec r : reconcile_in_sequence r = reconcile_spec r.
Proof.
  unfold reconcile_in_sequence, reconcile_spec, quantity_suspicious,
    price_suspicious.
  destruct (flagged r) eqn:Ef; cbn [andb negb orb]; [|reflexivity].
  destruct (F64.gt (quantity r) hundred) eqn:Eq,
           (F64.gt (price_per_unit r) thousand) eqn:Ep;
    repeat (progress
      (cbn [andb negb orb quantity price_per_unit total_price set_quantity
            set_price_per_unit set_total_price];
       rewrite ?andb_false_r, ?andb_true_r, ?orb_true_r, ?orb_false_r, ?Eq, ?Ep));
    reflexivity.
Qed.

Lemma handle_outliers_rowwise df :
  _handle_outliers df
  = (reconciler_log df (apply_rows round_row (map reconcile_spec df)),
     apply_rows round_row (map reconcile_spec df)).
Proof.
  rewrite handle_outliers_in_sequence.
  now rewrite (map_ext _ _ reconcile_in_sequence_spec).
Qed.

Lemma apply_rows_Forall2 {A B} (f : A -> result B) l out :
  apply_rows f l = Ok out -> Forall2 (fun x y => f x = Ok y) l out.
Proof.
  revert out; induction l as [|x l IH]; intros out; cbn.
  - intros [= <-]. constructor.
  - destruct (f x) as [y|e] eqn:E; [|discriminate].
    destruct (apply_rows f l) as [ys|e]; [|discriminate].
    intros [= <-]. constructor; auto.
Qed.

Lemma apply_rows_returns {A B} (f : A -> result B) l :
  (forall x, In x l -> exists y, f x = Ok y) -> exists out, apply_rows f l = Ok out.
Proof.
  induction l as [|x l IH]; intros H; cbn; [eauto|].
  destruct (H x (or_introl eq_refl)) as [y ->].
  destruct IH as [ys ->]; [intros x' Hx'; apply H; now right|]. eauto.
Qed.

Lemma apply_rows_length {A B} (f : A -> result B) l out :
  apply_rows f l = Ok out -> List.length out = List.length l.
Proof.
  intros H. apply apply_rows_Forall2 in H.
  symmetry. eapply Forall2_length, H.
Qed.

End OutliersFacts.

Section ReconcilerFrame.

Variable D : Type.
Implicit Types r : row D.

Lemma reconcile_spec_identity r : same_identity r (reconcile_spec r).
Proof.
  unfold reconcile_spec, same_identity.
  destruct (flagged r),
           (quantity_suspicious r && price_suspicious r)%bool,
           (quantity_suspicious r), (price_suspicious r);
    cbn; repeat split.
Qed.

Lemma round_row_identity r r' : round_row r = Ok r' -> same_identity r r'.
Proof.
  unfold round_row, same_identity.
  destruct (F64.astype_Int64 _); [|discriminate].
  intros [= <-]. cbn. repeat split.
Qed.

End ReconcilerFrame.

(** C7, amended.  In every run of the pipeline that returns, the table the
    duplicate eliminator makes of the repaired, normalized and dated table
    has no two records that agree on every column other than
    [transaction_id].  The reconciler that runs on it afterwards returns one
    record for each of its records, in the same order and with the same
    identifiers, name and date, and that is the table the pipeline returns:
    records whose quantity, price or total the reconciler or the rounding
    has made equal are not removed. *)
Theorem C7_distinct_before_reconciliation
        (df : table (option string)) (out : table (option Datetime.date)) :
  returned (clean_data df) = Ok out ->
  exists repaired named dated deduplicated,
    returned (_handle_missing_values df) = Ok repaired
    /\ returned (_normalize_product_names repaired) = Ok named
    /\ returned (_standardize_dates named) = Ok dated
    /\ returned (_remove_duplicates date_cell_eqb dated) = Ok deduplicated
    /\ no_content_duplicates deduplicated
    /\ returned (_handle_outliers deduplicated) = Ok out
    /\ Forall2 same_identity deduplicated out.
Proof.
  unfold clean_data. intros H.
  apply returned_bind in H as (d1 & H1 & H).
  apply returned_bind in H as (d2 & H2 & H).
  apply returned_bind in H as (d3 & H3 & H).
  apply returned_bind in H as (d4 & H4 & H).
  apply returned_bind in H as (d5 & H5 & H).
  apply returned_bind in H as (d6 & H6 & H).
  cbn in H. injection H as <-.
  apply finalizer_identity in H6 as ->.
  exists d1, d2, d3, d4.
  split; [exact H1|]. split; [exact H2|]. split; [exact H3|].
  split; [exact H4|]. split; [|split; [exact H5|]].
  - rewrite remove_duplicates_run in H4. injection H4 as <-.
    apply (@drop_duplicates_distinct _ _ date_cell_eqb_eq).
  - rewrite handle_outliers_rowwise in H5. unfold returned, snd in H5.
    apply apply_rows_Forall2 in H5.
    clear - H5. remember (map reconcile_spec d4) as cs eqn:Ecs.
    revert d4 Ecs. induction H5 as [|c r' cs out Hc H IH]; intros [|r d4] Ecs;
      cbn in Ecs; try discriminate; constructor.
    + injection Ecs as -> _.
      destruct (reconcile_spec_identity r) as (A1 & A2 & A3 & A4 & A5).
      destruct (round_row_identity _ Hc) as (B1 & B2 & B3 & B4 & B5).
      unfold same_identity. repeat split; congruence.
    + injection Ecs as _ ->. now apply IH.
Qed.

(** The counterexample table: its two records differ in their total after
    the duplicate eliminator and are content-identical after the
    reconciler. *)
Lemma C7_distinct_before_reconciliation_witness :
  exists repaired named dated deduplicated,
    returned (_handle_missing_values [Samples.paid_20; Samples.paid_50])
    = Ok repaired
    /\ returned (_normalize_product_names repaired) = Ok named
    /\ returned (_standardize_dates named) = Ok dated
    /\ returned (_remove_duplicates date_cell_eqb dated) = Ok deduplicated
    /\ no_content_duplicates deduplicated
    /\ returned (_handle_outliers deduplicated)
       = Ok [ Samples.dated "t1" "Laptop" (F64.of_Z 2) (F64.of_Z 10) (F64.of_Z 20)
                Samples.march_9;
              Samples.dated "t2" "Laptop" (F64.of_Z 2) (F64.of_Z 10) (F64.of_Z 20)
                Samples.march_9 ]
    /\ Forall2 same_identity deduplicated
         [ Samples.dated "t1" "Laptop" (F64.of_Z 2) (F64.of_Z 10) (F64.of_Z 20)
             Samples.march_9;
           Samples.dated "t2" "Laptop" (F64.of_Z 2) (F64.of_Z 10) (F64.of_Z 20)
             Samples.march_9 ].
Proof.
  apply (@C7_distinct_before_reconciliation [Samples.paid_20; Samples.paid_50]).
  clean_tables_agree.
Defined.

(** ** A zero divisor, through the pipeline *)

(** The missing-value pass itself returns on a zero divisor, with an
    infinite quantity; the cast of the quantity column to Int64 in the
    reconciler then raises. *)
Lemma zero_divisor_reaches_cast :
  returned (_handle_missing_values [Samples.quantity_missing_zero_price])
  = Ok [set_quantity F64.PInf Samples.quantity_missing_zero_price]
  /\ returned (clean_data [Samples.quantity_missing_zero_price])
     = Raise CastError.
Proof.
  split; [rewrite handle_missing_values_returns; raw_tables_agree|].
  vm_compute. reflexivity.
Qed.

(** ** The tests of the repository, on the model *)

(** [test_product_mapping] *)
Lemma test_product_mapping :
  map (fun name => normalized_name (Some name))
      [ "  laptop  "; "wireless mouse"; "usb-c cable"; "USB-C"; "webcam";
        "keyboard" ]%string
  = map Ok [ "Laptop"; "Mouse"; "USB-C Cable"; "USB-C Cable"; "Webcam";
             "Keyboard" ]%string.
Proof. reflexivity. Qed.

(** [test_invalid_dates_removed] and [test_product_name_normalization]: two
    of the three records of the fixture remain, dated 2025-03-09 and
    2025-03-10 and named Laptop and USB-C Cable. *)
Lemma test_invalid_dates_removed :
  exists out,
    returned (clean_data Samples.sample_data) = Ok out
    /\ map (fun r => (transaction_id r, product_name r, transaction_date r)) out
       = [ (Some "test1", Some "Laptop", Some (Datetime.mkDate 2025 3 9));
           (Some "test3", Some "USB-C Cable", Some (Datetime.mkDate 2025 3 10)) ]%string.
Proof.
  eexists. split; [vm_compute; reflexivity | reflexivity].
Qed.

(** * Further properties of the pipeline *)

Section PipelineStages.

Lemma select_In {D} (mask : list bool) (df : table D) r :
  In r (select mask df) -> In r df.
Proof.
  revert mask; induction df as [|r0 df IH]; intros [|b mask]; cbn; try tauto.
  destruct b; cbn; intros H; [destruct H as [->|H]|]; eauto.
Qed.

Lemma Forall2_In_r {A B} (R : A -> B -> Prop) l l' y :
  Forall2 R l l' -> In y l' -> exists x, In x l /\ R x y.
Proof.
  induction 1 as [|a b l l' Hab H IH]; cbn; [tauto|].
  intros [<- | Hin]; [eauto|].
  destruct (IH Hin) as (x & Hx & Hr). eauto.
Qed.

Lemma finalizer_no_missing {D} (df out : table D) :
  apply_rows (fun r => match F64.astype_int (quantity r) with
                       | Ok q => Ok (set_quantity q r)
                       | Raise e => Raise e
                       end) df = Ok out ->
  Forall (fun r => quantity r <> F64.NaN) df.
Proof.
  revert out; induction df as [|r df IH]; intros out; cbn; [constructor|].
  destruct (F64.astype_int (quantity r)) as [q|e] eqn:E; [|discriminate].
  destruct (apply_rows _ df) as [l'|e] eqn:E'; [|discriminate].
  intros _. constructor; [|eapply IH; reflexivity].
  destruct (quantity r); cbn in E; congruence.
Qed.

(** What [clean_data] has computed when it returns. *)
Lemma clean_data_stages df out :
  returned (clean_data df) = Ok out ->
  exists named,
    returned (_normalize_product_names (missing_value_repair_spec df)) = Ok named
    /\ apply_rows round_row
         (map reconcile_spec
              (drop_duplicates date_cell_eqb (standardized_rows named))) = Ok out
    /\ Forall (fun r => quantity r <> F64.NaN) out.
Proof.
  unfold clean_data. intros H.
  apply returned_bind in H as (d1 & H1 & H).
  rewrite handle_missing_values_returns in H1. injection H1 as <-.
  apply returned_bind in H as (d2 & H2 & H).
  apply returned_bind in H as (d3 & H3 & H).
  rewrite standardize_dates_rowwise in H3. cbn in H3. injection H3 as <-.
  apply returned_bind in H as (d4 & H4 & H).
  rewrite remove_duplicates_run in H4. cbn in H4. injection H4 as <-.
  apply returned_bind in H as (d5 & H5 & H).
  rewrite handle_outliers_rowwise in H5. cbn [returned snd] in H5.
  apply returned_bind in H as (d6 & H6 & H).
  cbn in H. injection H as <-.
  unfold lift, returned, snd in H6.
  pose proof (finalizer_no_missing _ H6) as Hq.
  pose proof (finalizer_identity _ H6) as ->.
  exists d2. split; [exact H2|]. split; [exact H5 | exact Hq].
Qed.

End PipelineStages.

Section OutputPrecision.

Open Scope Qc_scope.





End OutputPrecision.



Section Provenance.

Import Datetime.
Local Open Scope nat_scope.

Lemma strptime_valid s fmt d :
  strptime s fmt = Ok d -> valid_date (year d) (month d) (day d) = true.
Proof.
  unfold strptime. destruct (compile fmt) as [ds|e]; [|discriminate].
  destruct (match_format ds (1900, 1, 1)%Z s) as [|[[[y m] dd] rest] l];
    [discriminate|].
  destruct rest; [|discriminate].
  destruct (valid_date y m dd) eqn:E; [|discriminate].
  now intros [= <-].
Qed.

(** A date the standardizer returns is a date of the calendar, with its
    year in range. *)
Lemma parse_date_valid c d :
  parse_date c = Ok (Some d) ->
  reasonable_year d = true /\ valid_date (year d) (month d) (day d) = true.
Proof.
  destruct c as [s|]; unfold parse_date; [|discriminate].
  destruct (String.eqb s "Invalid Date"); [discriminate|].
  intros H. apply try_formats_some in H as (i & fmt & _ & [Hp Hy] & _).
  split; [exact Hy | exact (strptime_valid _ _ Hp)].
Qed.

Lemma repair_from_original_frame {D} (r : row D) :
  identity (repair_from_original r) = identity r
  /\ product_name (repair_from_original r) = product_name r
  /\ transaction_date (repair_from_original r) = transaction_date r.
Proof.
  unfold repair_from_original, identity.
  destruct (missing (price_per_unit r)), (missing (quantity r)),
    (missing (total_price r)); cbn; auto.
Qed.

Lemma standardized_rows_In df r' :
  In r' (standardized_rows df)
  <-> exists r d, In r df /\ parse_date (transaction_date r) = Ok (Some d)
                  /\ r' = set_transaction_date (Some d) r.
Proof.
  unfold standardized_rows. rewrite in_flat_map. split.
  - intros (r & Hr & Hin).
    destruct (parse_date (transaction_date r)) as [[d|]|e] eqn:E;
      try contradiction.
    destruct Hin as [<- | []]. exists r, d. auto.
  - intros (r & d & Hr & Hp & ->). exists r. split; [exact Hr|].
    rewrite Hp. now left.
Qed.

(** Every record [clean_data] returns comes from a record of the input. *)
Lemma pipeline_provenance df out :
  returned (clean_data df) = Ok out ->
  forall r', In r' out -> exists r, In r df /\ cleaned_from r r'.
Proof.
  intros H r' Hin.
  apply clean_data_stages in H as (named & Hnamed & Hround & _).
  (* the reconciler *)
  apply apply_rows_Forall2 in Hround.
  destruct (@Forall2_In_r _ _ _ _ _ _ Hround Hin) as (c & Hc & Hcr).
  apply in_map_iff in Hc as (r4 & <- & Hr4).
  destruct (reconcile_spec_identity r4) as (A1 & A2 & A3 & A4 & A5).
  destruct (round_row_identity _ Hcr) as (B1 & B2 & B3 & B4 & B5).
  (* the duplicate eliminator and the date pass *)
  apply select_In in Hr4.
  apply standardized_rows_In in Hr4 as (r2 & d & Hr2 & Hd & ->).
  (* the normalizer *)
  rewrite normalize_product_names_rowwise in Hnamed.
  unfold returned, snd in Hnamed. apply apply_rows_Forall2 in Hnamed.
  destruct (@Forall2_In_r _ _ _ _ _ _ Hnamed Hr2) as (r1 & Hr1 & Hn).
  destruct (product_name r1) as [name|] eqn:En; [|discriminate Hn].
  rewrite normalized_name_spec in Hn. injection Hn as <-.
  (* the missing-value pass *)
  unfold missing_value_repair_spec in Hr1.
  apply filter_In in Hr1 as [Hr1 _].
  apply in_map_iff in Hr1 as (r & <- & Hr).
  destruct (repair_from_original_frame r) as (F1 & F2 & F3).
  exists r. split; [exact Hr|].
  cbn in *. unfold cleaned_from, identity in *. cbn in *.
  split; [congruence|]. split.
  - exists name. split; [congruence|]. congruence.
  - destruct (transaction_date (repair_from_original r)) as [s|] eqn:Es;
      [|discriminate Hd].
    exists s, d. split; [congruence|]. split; [exact Hd | congruence].
Qed.

End Provenance.

(** X2.  Every record [clean_data] returns has a date, a date of the
    calendar (the day exists in its month, leap years included) whose year
    is within [1900, 2030]. *)
Theorem X2_output_dates df out :
  returned (clean_data df) = Ok out ->
  Forall (fun r =>
            exists d,
              transaction_date r = Some d
              /\ (1900 <= Datetime.year d <= 2030)%Z
              /\ Datetime.valid_date (Datetime.year d) (Datetime.month d)
                   (Datetime.day d) = true) out.
Proof.
  intros H. apply Forall_forall. intros r' Hin.
  destruct (pipeline_provenance _ H _ Hin) as (r & _ & _ & _ & s & d & _ & Hp & Hd).
  exists d. split; [exact Hd|].
  apply parse_date_valid in Hp as [Hy Hv]. split; [|exact Hv].
  unfold reasonable_year in Hy. apply andb_true_iff in Hy as [H1 H2].
  apply Z.leb_le in H1, H2. lia.
Qed.

(** The fixture of the tests: two records remain, both in March 2025. *)
Lemma X2_output_dates_witness :
  exists out,
    returned (clean_data Samples.sample_data) = Ok out
    /\ Forall (fun r => exists d, transaction_date r = Some d
                                  /\ (1900 <= Datetime.year d <= 2030)%Z) out.
Proof.
  destruct (returned (clean_data Samples.sample_data)) as [out|e] eqn:E;
    [|vm_compute in E; discriminate E].
  exists out. split; [reflexivity|].
  eapply Forall_impl; [|exact (X2_output_dates _ E)].
  intros r (d & Hd & Hy & _). eauto.
Defined.

(** X3.  On a raw table whose product names and dates are ASCII texts the
    pipeline invents nothing: every record it returns comes from a record
    of the input with the same transaction, customer and product
    identifiers, whose product name was a text and is now the name the rule
    table gives it, and whose date was a text the standardizer reads as the
    date returned. *)
Theorem X3_output_provenance df out :
  ascii_table df ->
  returned (clean_data df) = Ok out ->
  forall r', In r' out -> exists r, In r df /\ cleaned_from r r'.
Proof. intros _. exact (@pipeline_provenance df out). Qed.

(** The first record of the fixture is where the first record returned comes
    from. *)
Lemma X3_output_provenance_witness :
  exists r' r,
    In r Samples.sample_data /\ cleaned_from r r'
    /\ transaction_id r' = Some "test1"%string.
Proof.
  assert (Ha : ascii_table Samples.sample_data).
  { unfold ascii_table, ascii_or_missing.
    repeat constructor; intros s [= <-]; reflexivity. }
  destruct (returned (clean_data Samples.sample_data)) as [out|e] eqn:E;
    [|vm_compute in E; discriminate E].
  destruct out as [|r' out]; [vm_compute in E; discriminate E|].
  destruct (X3_output_provenance Ha E r' (or_introl eq_refl)) as (r & Hr & Hc).
  exists r', r. split; [exact Hr|]. split; [exact Hc|].
  vm_compute in E. injection E as <- _. reflexivity.
Defined.

Section Order.

Lemma subsequence_refl {A} (l : list A) : subsequence l l.
Proof. induction l; constructor; assumption. Qed.

Lemma subsequence_trans {A} (l1 l2 l3 : list A) :
  subsequence l1 l2 -> subsequence l2 l3 -> subsequence l1 l3.
Proof.
  intros H12 H23. revert l1 H12.
  induction H23 as [|x l2 l3 H IH|x l2 l3 H IH]; intros l1 H12.
  - exact H12.
  - inversion H12; subst; constructor; auto.
  - constructor. auto.
Qed.

Lemma subsequence_length {A} (l1 l2 : list A) :
  subsequence l1 l2 -> List.length l1 <= List.length l2.
Proof. induction 1; cbn; lia. Qed.

Lemma subsequence_filter {A B} (f : A -> B) p (l : list A) :
  subsequence (map f (filter p l)) (map f l).
Proof.
  induction l as [|x l IH]; cbn; [constructor|].
  destruct (p x); cbn; constructor; exact IH.
Qed.

Lemma subsequence_select {D B} (f : row D -> B) mask (df : table D) :
  subsequence (map f (select mask df)) (map f df).
Proof.
  assert (Hnil : forall l : table D, subsequence [] (map f l)).
  { induction l; cbn; constructor; assumption. }
  revert mask; induction df as [|r df IH]; intros [|b mask]; cbn.
  - constructor.
  - constructor.
  - apply (Hnil (r :: df)).
  - destruct b; cbn; constructor; apply IH.
Qed.

Lemma subsequence_standardized df :
  subsequence (map identity (standardized_rows df)) (map identity df).
Proof.
  induction df as [|r df IH]; cbn; [constructor|].
  destruct (parse_date (transaction_date r)) as [[d|]|e]; cbn;
    constructor; exact IH.
Qed.

Lemma Forall2_map_eq {A B C} (f : A -> C) (g : B -> C) l l' :
  Forall2 (fun x y => g y = f x) l l' -> map g l' = map f l.
Proof. induction 1; cbn; congruence. Qed.

Lemma normalized_identities {D} (df named : table D) :
  returned (_normalize_product_names df) = Ok named ->
  map identity named = map identity df.
Proof.
  rewrite normalize_product_names_rowwise. unfold returned, snd. intros H.
  apply apply_rows_Forall2 in H. apply Forall2_map_eq.
  eapply Forall2_impl; [|exact H]. intros r r' Hr. cbv beta in Hr.
  destruct (normalized_name (product_name r)); [|discriminate Hr].
  now injection Hr as <-.
Qed.

Lemma reconciled_identities {D} (df out : table D) :
  apply_rows round_row (map reconcile_spec df) = Ok out ->
  map identity out = map identity df.
Proof.
  intros H. apply apply_rows_Forall2 in H.
  transitivity (map identity (map reconcile_spec df)).
  - apply Forall2_map_eq. eapply Forall2_impl; [|exact H].
    intros c r' Hc. cbv beta in Hc. destruct (round_row_identity _ Hc) as (B1 & B2 & B3 & _).
    unfold identity. congruence.
  - rewrite !map_map. apply map_ext. intros r.
    destruct (reconcile_spec_identity r) as (A1 & A2 & A3 & _).
    unfold identity. congruence.
Qed.

Lemma repaired_identities {D} (df : table D) :
  subsequence (map identity (missing_value_repair_spec df)) (map identity df).
Proof.
  unfold missing_value_repair_spec. rewrite filter_map_swap, map_map.
  rewrite (map_ext (fun r => identity (repair_from_original r)) identity).
  - apply subsequence_filter.
  - intros r. apply repair_from_original_frame.
Qed.

End Order.

(** X4.  The pipeline keeps the order of the records and never returns a
    record twice: the identifiers of the records returned are those of the
    input with some left out. *)
Theorem X4_output_order df out :
  returned (clean_data df) = Ok out ->
  subsequence (map identity out) (map identity df)
  /\ List.length out <= List.length df.
Proof.
  intros H.
  assert (Hsub : subsequence (map identity out) (map identity df)).
  { apply clean_data_stages in H as (named & Hnamed & Hround & _).
    rewrite (reconciled_identities _ Hround).
    eapply subsequence_trans; [apply subsequence_select|].
    eapply subsequence_trans; [apply subsequence_standardized|].
    rewrite (normalized_identities _ Hnamed). apply repaired_identities. }
  split; [exact Hsub|].
  apply subsequence_length in Hsub. now rewrite !length_map in Hsub.
Qed.

(** The fixture: the first and the third record, in this order. *)
Lemma X4_output_order_witness :
  exists out,
    returned (clean_data Samples.sample_data) = Ok out
    /\ subsequence (map identity out) (map identity Samples.sample_data).
Proof.
  destruct (returned (clean_data Samples.sample_data)) as [out|e] eqn:E;
    [|vm_compute in E; discriminate E].
  exists out. split; [reflexivity|]. exact (proj1 (X4_output_order _ E)).
Defined.

Section Log.

Lemma finalizer_returns {D} (df : table D) :
  Forall (fun r => quantity r <> F64.NaN) df ->
  apply_rows (fun r => match F64.astype_int (quantity r) with
                       | Ok q => Ok (set_quantity q r)
                       | Raise e => Raise e
                       end) df = Ok df.
Proof.
  induction 1 as [|r df Hr H IH]; cbn; [reflexivity|].
  rewrite IH. destruct r as [i c p n q u t d]; cbn in *.
  destruct q; cbn; try reflexivity. now elim Hr.
Qed.

Lemma filter_length_le {A} p (l : list A) :
  List.length (filter p l) <= List.length l.
Proof. induction l as [|x l IH]; cbn; [lia|]. destruct (p x); cbn; lia. Qed.

Lemma select_length_le {D} mask (df : table D) :
  List.length (select mask df) <= List.length df.
Proof.
  pose proof (subsequence_length (subsequence_select (fun r => r) mask df)) as H.
  now rewrite !map_id in H.
Qed.

Lemma standardized_length_le df :
  List.length (standardized_rows df) <= List.length df.
Proof.
  pose proof (subsequence_length (subsequence_standardized df)) as H.
  now rewrite !length_map in H.
Qed.

(** The log of a run that returns. *)
Lemma clean_data_log df out :
  returned (clean_data df) = Ok out ->
  exists named,
    let repaired := missing_value_repair_spec df in
    let dated := standardized_rows named in
    let deduplicated := drop_duplicates date_cell_eqb dated in
    List.length named = List.length repaired
    /\ List.length out = List.length deduplicated
    /\ printed (clean_data df)
       = Removed_missing (List.length df - List.length repaired)
         :: Removed_dates (List.length named - List.length dated)
         :: Removed_duplicates (List.length dated - List.length deduplicated)
         :: reconciler_log deduplicated (Ok out)
         ++ [Rows_removed (List.length df - List.length out)].
Proof.
  intros H.
  apply clean_data_stages in H as (named & Hnamed & Hround & Hq).
  exists named. cbv zeta.
  pose proof (apply_rows_length _ _ Hround) as Hlen. rewrite length_map in Hlen.
  pose proof Hnamed as Hn. rewrite normalize_product_names_rowwise in Hn.
  unfold returned, snd in Hn.
  split; [exact (apply_rows_length _ _ Hn)|]. split; [exact Hlen|].
  unfold clean_data, printed.
  rewrite handle_missing_values_rowwise. cbv zeta.
  fold (missing_value_repair_spec df).
  replace (filter complete (map repair_in_sequence df))
    with (missing_value_repair_spec df)
    by (unfold missing_value_repair_spec;
        now rewrite (map_ext _ _ (@repair_in_sequence_original _))).
  rewrite bind_value, normalize_product_names_rowwise, Hn, bind_value.
  rewrite standardize_dates_rowwise, bind_value.
  rewrite remove_duplicates_run, bind_value.
  change (option_eqb Datetime.date_eqb) with date_cell_eqb.
  rewrite handle_outliers_rowwise, Hround, bind_value.
  unfold lift. rewrite (finalizer_returns Hq), bind_value.
  cbn [fst snd app bind print ret]. reflexivity.
Qed.

End Log.

(** X5.  When the pipeline returns, its summary agrees with the reports of
    the passes: the rows removed are those the missing-value pass, the date
    pass and the duplicate pass report, the reconciler reports zero rows
    removed, and what is returned plus what was removed is the input. *)
Theorem X5_summary_counts df out :
  returned (clean_data df) = Ok out ->
  exists a b c middle,
    printed (clean_data df)
    = [Removed_missing a; Removed_dates b; Removed_duplicates c]
      ++ middle ++ [Removed_outliers 0; Rows_removed (a + b + c)]
    /\ a + b + c + List.length out = List.length df.
Proof.
  intros H. destruct (clean_data_log _ H) as (named & Hn & Ho & Hlog).
  cbv zeta in *.
  set (repaired := missing_value_repair_spec df) in *.
  set (dated := standardized_rows named) in *.
  set (deduplicated := drop_duplicates date_cell_eqb dated) in *.
  assert (H1 : List.length repaired <= List.length df).
  { unfold repaired, missing_value_repair_spec.
    etransitivity; [apply filter_length_le|]. now rewrite length_map. }
  assert (H2 : List.length dated <= List.length named)
    by apply standardized_length_le.
  assert (H3 : List.length deduplicated <= List.length dated)
    by apply select_length_le.
  exists (List.length df - List.length repaired),
         (List.length named - List.length dated),
         (List.length dated - List.length deduplicated).
  unfold reconciler_log in Hlog. rewrite Ho, Nat.sub_diag in Hlog.
  eexists (Found_mismatches _ :: (if mask_any _ then _ else _)
           ++ [Remaining_mismatches _]).
  split; [|lia].
  rewrite Hlog. cbn [app]. do 4 f_equal.
  rewrite <- !app_assoc. cbn [app]. do 4 f_equal. f_equal. lia.
Qed.

(** The fixture: one record falls to the date pass, none elsewhere. *)
Lemma X5_summary_counts_witness :
  exists a b c middle,
    printed (clean_data Samples.sample_data)
    = [Removed_missing a; Removed_dates b; Removed_duplicates c]
      ++ middle ++ [Removed_outliers 0; Rows_removed (a + b + c)].
Proof.
  destruct (returned (clean_data Samples.sample_data)) as [out|e] eqn:E;
    [|vm_compute in E; discriminate E].
  destruct (X5_summary_counts _ E) as (a & b & c & middle & Hlog & _).
  exists a, b, c, middle. exact Hlog.
Defined.

(** * Running a pass again *)

Section Idempotence.

Variable D : Type.

Lemma repair_complete (r : row D) :
  complete r = true -> repair_from_original r = r.
Proof.
  unfold complete, present, F64.notna, repair_from_original, missing.
  destruct (F64.isna (price_per_unit r)), (F64.isna (quantity r)),
    (F64.isna (total_price r)); cbn; try discriminate. reflexivity.
Qed.

Lemma repair_spec_fixed (df : table D) :
  Forall (fun r => complete r = true) df -> missing_value_repair_spec df = df.
Proof.
  unfold missing_value_repair_spec.
  induction 1 as [|r df Hr H IH]; cbn; [reflexivity|].
  rewrite (repair_complete _ Hr), Hr, IH. reflexivity.
Qed.

Lemma repair_spec_complete (df : table D) :
  Forall (fun r => complete r = true) (missing_value_repair_spec df).
Proof.
  apply Forall_forall. intros r Hr. unfold missing_value_repair_spec in Hr.
  now apply filter_In in Hr.
Qed.

Variable D_eqb : D -> D -> bool.
Hypothesis D_eqb_eq : forall a b, D_eqb a b = true <-> a = b.

Lemma distinct_rows_kept seen (df : table D) :
  NoDup (map subset df) -> (forall r, In r df -> ~ In (subset r) seen) ->
  select (mask_not (duplicated_from D_eqb seen df)) df = df.
Proof.
  revert seen; induction df as [|r df IH]; intros seen Hnd Hseen; cbn;
    [reflexivity|].
  inversion Hnd as [|k ks Hk Hks]; subst.
  destruct (existsb _ seen) eqn:E.
  - apply (@seen_before _ _ D_eqb_eq) in E.
    exfalso. apply (Hseen r); [now left | exact E].
  - cbn. f_equal. apply IH; [exact Hks|].
    intros r' Hr' [Heq | Hin].
    + apply Hk. rewrite Heq. now apply in_map.
    + apply (Hseen r'); [now right | exact Hin].
Qed.

Lemma drop_duplicates_idempotent (df : table D) :
  drop_duplicates D_eqb (drop_duplicates D_eqb df) = drop_duplicates D_eqb df.
Proof.
  unfold drop_duplicates at 1. unfold duplicated.
  apply distinct_rows_kept; [|intros r _ []].
  apply (@kept_rows_distinct _ _ D_eqb_eq [] df).
Qed.

End Idempotence.

(** X6.  The missing-value pass is idempotent: run on its own result it
    repairs nothing, removes nothing and reports zero rows removed. *)
Theorem X6_missing_values_idempotent (D : Type) (df : table D) :
  exists out,
    returned (_handle_missing_values df) = Ok out
    /\ _handle_missing_values out = ([Removed_missing 0], Ok out).
Proof.
  exists (missing_value_repair_spec df).
  split; [apply handle_missing_values_returns|].
  rewrite handle_missing_values_rowwise. cbv zeta.
  rewrite (map_ext _ _ (@repair_in_sequence_original D)).
  fold (missing_value_repair_spec (missing_value_repair_spec df)).
  rewrite (repair_spec_fixed (repair_spec_complete df)), Nat.sub_diag.
  reflexivity.
Qed.

(** X7.  The duplicate eliminator is idempotent: run on its own result it
    removes nothing and reports zero duplicates. *)
Theorem X7_remove_duplicates_idempotent
        (D : Type) (D_eqb : D -> D -> bool)
        (D_eqb_eq : forall a b, D_eqb a b = true <-> a = b) (df : table D) :
  exists out,
    returned (_remove_duplicates D_eqb df) = Ok out
    /\ _remove_duplicates D_eqb out = ([Removed_duplicates 0], Ok out).
Proof.
  exists (drop_duplicates D_eqb df). split; [reflexivity|].
  rewrite remove_duplicates_run.
  rewrite (@drop_duplicates_idempotent _ _ D_eqb_eq), Nat.sub_diag.
  reflexivity.
Qed.

(** The table of the two copies: the second run finds nothing to remove. *)
Lemma X7_remove_duplicates_idempotent_witness :
  exists out,
    returned (_remove_duplicates date_cell_eqb
                [Samples.first_copy; Samples.second_copy; Samples.other_record])
    = Ok out
    /\ _remove_duplicates date_cell_eqb out = ([Removed_duplicates 0], Ok out).
Proof.
  exact (@X7_remove_duplicates_idempotent _ _ date_cell_eqb_eq
           [Samples.first_copy; Samples.second_copy; Samples.other_record]).
Defined.

Section NormalizerIdempotence.

Lemma lower_upper_char c : Py.lower_char (Py.upper_char c) = Py.lower_char c.
Proof. destruct c as [[] [] [] [] [] [] [] []]; reflexivity. Qed.

Lemma upper_char_idem c : Py.upper_char (Py.upper_char c) = Py.upper_char c.
Proof. destruct c as [[] [] [] [] [] [] [] []]; reflexivity. Qed.

Lemma is_cased_upper_char c : Py.is_cased (Py.upper_char c) = Py.is_cased c.
Proof. destruct c as [[] [] [] [] [] [] [] []]; reflexivity. Qed.

Lemma is_space_lower_char c : Py.is_space (Py.lower_char c) = Py.is_space c.
Proof. destruct c as [[] [] [] [] [] [] [] []]; reflexivity. Qed.

Lemma is_space_upper_char c : Py.is_space (Py.upper_char c) = Py.is_space c.
Proof. destruct c as [[] [] [] [] [] [] [] []]; reflexivity. Qed.

Lemma space_not_cased c : Py.is_space c = true -> Py.is_cased c = false.
Proof. destruct c as [[] [] [] [] [] [] [] []]; vm_compute; congruence. Qed.

Lemma is_space_title_char b c : Py.is_space (title_char b c) = Py.is_space c.
Proof. destruct b; [apply is_space_lower_char | apply is_space_upper_char]. Qed.

Lemma lower_title_from b s : Py.lower (Py.title_from b s) = Py.lower s.
Proof.
  revert b; induction s as [|c s IH]; intros b; cbn; [reflexivity|].
  rewrite IH. destruct b; now rewrite ?lower_char_idem, ?lower_upper_char.
Qed.

Lemma title_from_idempotent b s :
  Py.title_from b (Py.title_from b s) = Py.title_from b s.
Proof.
  revert b; induction s as [|c s IH]; intros b; cbn; [reflexivity|].
  destruct b; rewrite ?is_cased_lower_char, ?is_cased_upper_char, IH,
    ?lower_char_idem, ?upper_char_idem; reflexivity.
Qed.

Lemma lstrip_lower s : Py.lstrip (Py.lower s) = Py.lower (Py.lstrip s).
Proof.
  induction s as [|c s IH]; cbn; [reflexivity|].
  rewrite is_space_lower_char. destruct (Py.is_space c); [exact IH | reflexivity].
Qed.

Lemma rstrip_lower s : Py.rstrip (Py.lower s) = Py.lower (Py.rstrip s).
Proof.
  induction s as [|c s IH]; cbn; [reflexivity|].
  rewrite IH, is_space_lower_char.
  destruct (Py.rstrip s); cbn; [destruct (Py.is_space c)|]; reflexivity.
Qed.

Lemma strip_lower s : Py.strip (Py.lower s) = Py.lower (Py.strip s).
Proof. unfold Py.strip. now rewrite lstrip_lower, rstrip_lower. Qed.

Lemma lstrip_title s : Py.lstrip (Py.title s) = Py.title (Py.lstrip s).
Proof.
  unfold Py.title. induction s as [|c s IH]; cbn; [reflexivity|].
  rewrite is_space_upper_char. destruct (Py.is_space c) eqn:E; [|reflexivity].
  now rewrite (space_not_cased _ E).
Qed.

Lemma rstrip_title_from b s :
  Py.rstrip (Py.title_from b s) = Py.title_from b (Py.rstrip s).
Proof.
  revert b; induction s as [|c s IH]; intros b; cbn; [reflexivity|].
  rewrite IH. fold (title_char b c).
  destruct (Py.rstrip s); cbn; fold (title_char b c);
    [rewrite is_space_title_char; destruct (Py.is_space c)|]; reflexivity.
Qed.

Lemma strip_title s : Py.strip (Py.title s) = Py.title (Py.strip s).
Proof.
  unfold Py.strip. rewrite lstrip_title. unfold Py.title.
  apply rstrip_title_from.
Qed.

Lemma rstrip_cons c s :
  Py.rstrip (String c s)
  = match Py.rstrip s with
    | EmptyString => if Py.is_space c then EmptyString else String c EmptyString
    | r => String c r
    end.
Proof. reflexivity. Qed.

Lemma rstrip_idempotent s : Py.rstrip (Py.rstrip s) = Py.rstrip s.
Proof.
  induction s as [|c s IH]; [reflexivity|].
  rewrite (rstrip_cons c s).
  destruct (Py.rstrip s) as [|d r] eqn:E.
  - destruct (Py.is_space c) eqn:Ec; [reflexivity|].
    rewrite rstrip_cons. cbn [Py.rstrip]. now rewrite Ec.
  - rewrite rstrip_cons, IH. reflexivity.
Qed.

Lemma lstrip_rstrip_lstrip s :
  Py.lstrip (Py.rstrip (Py.lstrip s)) = Py.rstrip (Py.lstrip s).
Proof.
  induction s as [|c s IH]; [reflexivity|].
  cbn [Py.lstrip]. destruct (Py.is_space c) eqn:E; [exact IH|].
  rewrite rstrip_cons.
  destruct (Py.rstrip s); rewrite ?E; cbn [Py.lstrip]; now rewrite E.
Qed.

(** Trimming a trimmed text changes nothing. *)
Lemma strip_idempotent s : Py.strip (Py.strip s) = Py.strip s.
Proof.
  unfold Py.strip. now rewrite lstrip_rstrip_lstrip, rstrip_idempotent.
Qed.

Lemma vocabulary_fixed :
  Forall (fun canonical => normalized_name (Some canonical) = Ok canonical)
         canonical_vocabulary.
Proof. unfold canonical_vocabulary. repeat constructor. Qed.

(** What the normalizer returns it returns again. *)
Lemma normalized_name_idempotent name n :
  normalized_name (Some name) = Ok n -> normalized_name (Some n) = Ok n.
Proof.
  rewrite normalized_name_spec. intros [= <-].
  unfold canonical_name_spec.
  destruct (find _ Config.PRODUCT_MAPPING) as [[p canonical]|] eqn:E.
  - apply find_some in E as [Hin _].
    pose proof vocabulary_fixed as Hv. rewrite Forall_forall in Hv.
    apply Hv. unfold canonical_vocabulary.
    change canonical with (snd (p, canonical)). now apply in_map.
  - rewrite normalized_name_spec. f_equal. unfold canonical_name_spec.
    rewrite strip_title. unfold Py.title.
    rewrite lower_title_from, strip_idempotent, E.
    apply title_from_idempotent.
Qed.

End NormalizerIdempotence.

(** X8.  On ASCII names the normalizer is idempotent, not only on the
    canonical ones: a name it returns for an ASCII name (canonical or
    title-cased fallback) is returned unchanged when normalized again, so
    the pass run on its own result for a column of ASCII names changes
    nothing. *)
Theorem X8_normalizer_idempotent :
  (forall name n,
      ascii_text name = true ->
      normalized_name (Some name) = Ok n -> normalized_name (Some n) = Ok n)
  /\ (forall D (df out : table D),
        Forall (fun r => ascii_cell (product_name r)) df ->
        returned (_normalize_product_names df) = Ok out ->
        returned (_normalize_product_names out) = Ok out).
Proof.
  split; [intros name n _; apply normalized_name_idempotent|].
  intros D df out _. rewrite !normalize_product_names_rowwise.
  unfold returned, snd. intros H. apply apply_rows_Forall2 in H.
  induction H as [|r r' df out Hr H IH]; cbn [apply_rows]; [reflexivity|].
  cbv beta in Hr. destruct (normalized_name (product_name r)) as [n|e] eqn:E;
    [|discriminate Hr].
  injection Hr as <-. cbn [product_name set_product_name].
  destruct (product_name r) as [name|] eqn:En; [|discriminate E].
  rewrite (normalized_name_idempotent _ E), IH. reflexivity.
Qed.

(** ["my gadget"] has no rule: its fallback "My Gadget" is returned
    again. *)
Lemma X8_normalizer_idempotent_witness :
  ascii_text "  my gadget " = true
  /\ normalized_name (Some "My Gadget"%string) = Ok "My Gadget"%string.
Proof.
  split; [reflexivity|].
  apply (proj1 X8_normalizer_idempotent "  my gadget "%string);
    reflexivity.
Defined.

Section DeadRule.

Lemma usbc_matches_here s :
  Re.match_here (Re.lit "usbc") s = true -> Re.match_here usb_c_pattern s = true.
Proof.
  destruct s as [|a [|a0 [|a1 [|a2 s']]]];
    cbn -[Re.char_matches Re.in_set]; rewrite ?andb_false_r; try discriminate.
  intros H.
  apply andb_true_iff in H as [H1 H]. apply andb_true_iff in H as [H2 H].
  apply andb_true_iff in H as [H3 H]. apply andb_true_iff in H as [H4 _].
  rewrite H1, H2, H3, H4. cbn. apply orb_true_r.
Qed.

Lemma usbc_found s :
  Re.search (Re.lit "usbc") s = true -> Re.search usb_c_pattern s = true.
Proof.
  induction s as [|c s IH]; cbn [Re.search].
  - rewrite !orb_false_r. apply usbc_matches_here.
  - rewrite !orb_true_iff. intros [H | H]; [left | right]; auto.
    now apply usbc_matches_here.
Qed.

End DeadRule.

(** X9.  The second rule of the table, [usbc], never decides a name: a text
    in which it is found is one in which the first rule, [usb[-\s]?c], is
    found, and the normalizer gives every cell the same result without
    it. *)
Theorem X9_usbc_rule_never_decides :
  (forall s, Re.search (Re.lit "usbc") s = true ->
             Re.search usb_c_pattern s = true)
  /\ (forall name, normalize_with rules_without_usbc name
                   = normalize_product_name name).
Proof.
  split; [exact usbc_found|].
  intros [s|]; [|reflexivity].
  unfold normalize_product_name, rules_without_usbc, Config.PRODUCT_MAPPING.
  cbn [normalize_with].
  change (Re.lit "usb" ++ [Re.Optional_set [Re.Item_char "-"; Re.Item_space]]
            ++ Re.lit "c")%list with usb_c_pattern.
  destruct (Re.search usb_c_pattern s) eqn:E1; [reflexivity|].
  destruct (Re.search (Re.lit "usbc") s) eqn:E2; [|reflexivity].
  apply usbc_found in E2. congruence.
Qed.

(** ["my usbc hub"] contains [usbc], and the first rule finds it. *)
Lemma X9_usbc_rule_never_decides_witness :
  Re.search usb_c_pattern "my usbc hub" = true.
Proof.
  apply (proj1 X9_usbc_rule_never_decides). reflexivity.
Defined.

(** * Reading back a written date *)

Section ReadBack.

Import Datetime Strftime.
Local Open Scope Z_scope.

Local Abbreviation fmt_ymd_dash := [Dir_Y; Literal "-"; Dir_m; Literal "-"; Dir_d].
Local Abbreviation fmt_ymd_slash := [Dir_Y; Literal "/"; Dir_m; Literal "/"; Dir_d].
Local Abbreviation fmt_dmy_slash := [Dir_d; Literal "/"; Dir_m; Literal "/"; Dir_Y].
Local Abbreviation fmt_mdy_slash := [Dir_m; Literal "/"; Dir_d; Literal "/"; Dir_Y].
Local Abbreviation fmt_name :=
  [Dir_B; Whitespace; Dir_d; Literal ","; Whitespace; Dir_Y].
Local Abbreviation fmt_dmy_short := [Dir_d; Literal "-"; Dir_m; Literal "-"; Dir_y].
Local Abbreviation fmt_mdy_short := [Dir_m; Literal "/"; Dir_d; Literal "/"; Dir_y].
Local Abbreviation pre_dmy_slash := [Dir_d; Literal "/"; Dir_m; Literal "/"].
Local Abbreviation pre_mdy_slash := [Dir_m; Literal "/"; Dir_d; Literal "/"].
Local Abbreviation pre_name := [Dir_B; Whitespace; Dir_d; Literal ","].
Local Abbreviation pre_dmy_dash := [Dir_d; Literal "-"; Dir_m; Literal "-"].

Lemma strptime_finish s fmt ds :
  compile fmt = Ok ds -> strptime s fmt = finish (match_format ds (1900, 1, 1) s).
Proof. intros H. unfold strptime, finish. rewrite H. reflexivity. Qed.

Lemma match_format_cons dir ds acc s :
  match_format (dir :: ds) acc s
  = flat_map (fun p => match_format ds (fst p) (snd p)) (match_directive dir acc s).
Proof.
  cbn [match_format]. apply flat_map_ext. now intros [a s'].
Qed.

Lemma match_format_app ds1 ds2 acc s :
  match_format (ds1 ++ ds2) acc s
  = flat_map (fun p => match_format ds2 (fst p) (snd p)) (match_format ds1 acc s).
Proof.
  revert acc s. induction ds1 as [|dir ds1 IH]; intros acc s.
  - cbn. now rewrite app_nil_r.
  - cbn [app]. rewrite !match_format_cons.
    induction (match_directive dir acc s) as [|[a s'] l IHl]; [reflexivity|].
    cbn [flat_map fst snd]. now rewrite flat_map_app, IH, IHl.
Qed.

Lemma append_assoc (a b c : string) : ((a ++ b) ++ c = a ++ (b ++ c))%string.
Proof. induction a as [|x a IH]; cbn; [reflexivity | now rewrite IH]. Qed.

Lemma render_app ds1 ds2 d :
  render (ds1 ++ ds2) d = (render ds1 d ++ render ds2 d)%string.
Proof.
  induction ds1 as [|dir ds1 IH]; cbn [app render]; [reflexivity|].
  now rewrite IH, append_assoc.
Qed.

(** The digits. *)
Lemma digit_cases k : 0 <= k <= 9 -> k = 0 \/ k = 1 \/ k = 2 \/ k = 3 \/ k = 4 \/ k = 5 \/ k = 6 \/ k = 7 \/ k = 8 \/ k = 9.
Proof. lia. Qed.

Lemma month_cases m : 1 <= m <= 12 -> m = 1 \/ m = 2 \/ m = 3 \/ m = 4 \/ m = 5 \/ m = 6 \/ m = 7 \/ m = 8 \/ m = 9 \/ m = 10 \/ m = 11 \/ m = 12.
Proof. lia. Qed.

Lemma day_cases d : 1 <= d <= 31 ->
  d = 1 \/ d = 2 \/ d = 3 \/ d = 4 \/ d = 5 \/ d = 6 \/ d = 7 \/ d = 8 \/ d = 9 \/ d = 10 \/ d = 11 \/ d = 12 \/ d = 13 \/ d = 14 \/ d = 15 \/ d = 16 \/ d = 17 \/ d = 18 \/ d = 19 \/ d = 20 \/ d = 21 \/ d = 22 \/ d = 23 \/ d = 24 \/ d = 25 \/ d = 26 \/ d = 27 \/ d = 28 \/ d = 29 \/ d = 30 \/ d = 31.
Proof. lia. Qed.

Ltac each_case H := repeat (destruct H as [-> | H]); [.. | subst].

Lemma digit_char_spec k :
  0 <= k <= 9 ->
  Py.is_digit (digit_char k) = true
  /\ Z.of_nat (nat_of_ascii (digit_char k) - 48) = k
  /\ Py.is_space (digit_char k) = false
  /\ Ascii.eqb (digit_char k) "I" = false.
Proof.
  intros H. apply digit_cases in H. each_case H; repeat split; reflexivity.
Qed.

(** The year, written with four and with two digits. *)
Lemma four_digits_chars y rest :
  (four_digits y ++ rest)%string
  = String (digit_char ((y / 100 / 10) mod 10))
      (String (digit_char ((y / 100) mod 10))
         (String (digit_char ((y mod 100 / 10) mod 10))
            (String (digit_char ((y mod 100) mod 10)) rest))).
Proof. reflexivity. Qed.

Lemma step_Y y rest y0 m0 d0 :
  0 <= y <= 9999 ->
  match_directive Dir_Y (y0, m0, d0) (four_digits y ++ rest)
  = [((y, m0, d0), rest)].
Proof.
  intros Hy. rewrite four_digits_chars.
  destruct (@digit_char_spec ((y / 100 / 10) mod 10)) as (A1 & A2 & _);
    [pose proof (Z.mod_pos_bound (y / 100 / 10) 10); lia|].
  destruct (@digit_char_spec ((y / 100) mod 10)) as (B1 & B2 & _);
    [pose proof (Z.mod_pos_bound (y / 100) 10); lia|].
  destruct (@digit_char_spec ((y mod 100 / 10) mod 10)) as (C1 & C2 & _);
    [pose proof (Z.mod_pos_bound (y mod 100 / 10) 10); lia|].
  destruct (@digit_char_spec ((y mod 100) mod 10)) as (E1 & E2 & _);
    [pose proof (Z.mod_pos_bound (y mod 100) 10); lia|].
  revert A1 A2 B1 B2 C1 C2 E1 E2.
  generalize (digit_char ((y / 100 / 10) mod 10)) as a.
  generalize (digit_char ((y / 100) mod 10)) as b.
  generalize (digit_char ((y mod 100 / 10) mod 10)) as c.
  generalize (digit_char ((y mod 100) mod 10)) as e.
  intros e c b a A1 A2 B1 B2 C1 C2 E1 E2.
  unfold match_directive, alternatives, re_Y, digit.
  cbn [flat_map match_classes]. rewrite A1, B1, C1, E1. cbn [app map].
  unfold int. cbn [int_from]. rewrite A1, B1, C1, E1, A2, B2, C2, E2.
  match goal with
  | |- [(?v, _, _, _)] = _ =>
      replace v with y by (Z.div_mod_to_equations; lia)
  end.
  reflexivity.
Qed.

Lemma two_digits_chars k rest :
  (two_digits k ++ rest)%string
  = String (digit_char ((k / 10) mod 10)) (String (digit_char (k mod 10)) rest).
Proof. reflexivity. Qed.

Lemma step_y k rest y0 m0 d0 :
  0 <= k <= 99 ->
  match_directive Dir_y (y0, m0, d0) (two_digits k ++ rest)
  = [((if k <=? 68 then k + 2000 else k + 1900, m0, d0), rest)].
Proof.
  intros Hk. rewrite two_digits_chars.
  destruct (@digit_char_spec ((k / 10) mod 10)) as (A1 & A2 & _);
    [pose proof (Z.mod_pos_bound (k / 10) 10); lia|].
  destruct (@digit_char_spec (k mod 10)) as (B1 & B2 & _);
    [pose proof (Z.mod_pos_bound k 10); lia|].
  revert A1 A2 B1 B2.
  generalize (digit_char ((k / 10) mod 10)) as a.
  generalize (digit_char (k mod 10)) as b.
  intros b a A1 A2 B1 B2.
  unfold match_directive, alternatives, re_y, digit.
  cbn [flat_map match_classes]. rewrite A1, B1. cbn [app map].
  unfold int. cbn [int_from]. rewrite A1, B1, A2, B2.
  replace (10 * (10 * 0 + (k / 10) mod 10) + k mod 10) with k
    by (Z.div_mod_to_equations; lia).
  reflexivity.
Qed.

(** A text of two digits is no four-digit year. *)
Lemma short_year_is_no_year k acc :
  match_directive Dir_Y acc (two_digits k ++ EmptyString) = [].
Proof.
  rewrite two_digits_chars. destruct acc as [[y0 m0] d0].
  unfold match_directive, alternatives, re_Y.
  cbn [flat_map match_classes].
  destruct (digit _); [destruct (digit _)|]; reflexivity.
Qed.

(** One space before a year is the white space of the format. *)
Lemma space_before_year y rest acc :
  0 <= y <= 9999 ->
  match_directive Whitespace acc (String " " (four_digits y ++ rest))
  = [(acc, (four_digits y ++ rest)%string)].
Proof.
  intros Hy. destruct acc as [[y0 m0] d0]. rewrite four_digits_chars.
  destruct (@digit_char_spec ((y / 100 / 10) mod 10)) as (_ & _ & A & _);
    [pose proof (Z.mod_pos_bound (y / 100 / 10) 10); lia|].
  unfold match_directive. cbn [after_spaces]. rewrite A. reflexivity.
Qed.

Lemma year_first_is_not_invalid y rest :
  0 <= y <= 9999 ->
  String.eqb (four_digits y ++ rest) "Invalid Date" = false.
Proof.
  intros Hy. rewrite four_digits_chars.
  destruct (@digit_char_spec ((y / 100 / 10) mod 10)) as (_ & _ & _ & A);
    [pose proof (Z.mod_pos_bound (y / 100 / 10) 10); lia|].
  cbn [String.eqb]. now rewrite A.
Qed.

(** The month and the day, by cases; the year and what follows the text
    stay variables. *)
Lemma ymd_dash_rest m d y :
  1 <= m <= 12 -> 1 <= d <= 31 ->
  finish (match_format [Literal "-"; Dir_m; Literal "-"; Dir_d] (y, 1, 1)
            (render [Literal "-"; Dir_m; Literal "-"; Dir_d] (mkDate y m d)))
  = (if valid_date y m d then Ok (mkDate y m d) else Raise ValueError).
Proof.
  intros Hm Hd. apply month_cases in Hm. apply day_cases in Hd.
  each_case Hm; each_case Hd; reflexivity.
Qed.

Lemma ymd_slash_rest m d y :
  1 <= m <= 12 -> 1 <= d <= 31 ->
  match_format [Literal "-"; Dir_m; Literal "-"; Dir_d] (y, 1, 1)
    (render [Literal "/"; Dir_m; Literal "/"; Dir_d] (mkDate y m d)) = []
  /\ finish (match_format [Literal "/"; Dir_m; Literal "/"; Dir_d] (y, 1, 1)
               (render [Literal "/"; Dir_m; Literal "/"; Dir_d] (mkDate y m d)))
     = (if valid_date y m d then Ok (mkDate y m d) else Raise ValueError).
Proof.
  intros Hm Hd. apply month_cases in Hm. apply day_cases in Hd.
  each_case Hm; each_case Hd; split; reflexivity.
Qed.

Lemma dmy_slash_prefix m d y Y :
  1 <= m <= 12 -> 1 <= d <= 31 ->
  String.eqb (render pre_dmy_slash (mkDate y m d) ++ Y) "Invalid Date" = false
  /\ match_format fmt_ymd_dash (1900, 1, 1)
       (render pre_dmy_slash (mkDate y m d) ++ Y) = []
  /\ match_format fmt_ymd_slash (1900, 1, 1)
       (render pre_dmy_slash (mkDate y m d) ++ Y) = []
  /\ match_format pre_dmy_slash (1900, 1, 1)
       (render pre_dmy_slash (mkDate y m d) ++ Y) = [((1900, m, d), Y)].
Proof.
  intros Hm Hd. apply month_cases in Hm. apply day_cases in Hd.
  each_case Hm; each_case Hd; repeat split; reflexivity.
Qed.

Lemma mdy_slash_prefix m d y Y :
  1 <= m <= 12 -> 1 <= d <= 31 ->
  String.eqb (render pre_mdy_slash (mkDate y m d) ++ Y) "Invalid Date" = false
  /\ match_format fmt_ymd_dash (1900, 1, 1)
       (render pre_mdy_slash (mkDate y m d) ++ Y) = []
  /\ match_format fmt_ymd_slash (1900, 1, 1)
       (render pre_mdy_slash (mkDate y m d) ++ Y) = []
  /\ match_format pre_dmy_slash (1900, 1, 1)
       (render pre_mdy_slash (mkDate y m d) ++ Y)
     = (if d <=? 12 then [((1900, d, m), Y)] else [])
  /\ match_format pre_mdy_slash (1900, 1, 1)
       (render pre_mdy_slash (mkDate y m d) ++ Y) = [((1900, m, d), Y)]
  /\ match_format fmt_name (1900, 1, 1)
       (render pre_mdy_slash (mkDate y m d) ++ Y) = []
  /\ match_format fmt_dmy_short (1900, 1, 1)
       (render pre_mdy_slash (mkDate y m d) ++ Y) = [].
Proof.
  intros Hm Hd. apply month_cases in Hm. apply day_cases in Hd.
  each_case Hm; each_case Hd; repeat split; reflexivity.
Qed.

Lemma name_prefix m d y Y :
  1 <= m <= 12 -> 1 <= d <= 31 ->
  String.eqb (render pre_name (mkDate y m d) ++ Y) "Invalid Date" = false
  /\ match_format fmt_ymd_dash (1900, 1, 1)
       (render pre_name (mkDate y m d) ++ Y) = []
  /\ match_format fmt_ymd_slash (1900, 1, 1)
       (render pre_name (mkDate y m d) ++ Y) = []
  /\ match_format fmt_dmy_slash (1900, 1, 1)
       (render pre_name (mkDate y m d) ++ Y) = []
  /\ match_format fmt_mdy_slash (1900, 1, 1)
       (render pre_name (mkDate y m d) ++ Y) = []
  /\ match_format pre_name (1900, 1, 1)
       (render pre_name (mkDate y m d) ++ Y) = [((1900, m, d), Y)].
Proof.
  intros Hm Hd. apply month_cases in Hm. apply day_cases in Hd.
  each_case Hm; each_case Hd; repeat split; reflexivity.
Qed.

Lemma dmy_dash_prefix m d y Y :
  1 <= m <= 12 -> 1 <= d <= 31 ->
  String.eqb (render pre_dmy_dash (mkDate y m d) ++ Y) "Invalid Date" = false
  /\ match_format fmt_ymd_dash (1900, 1, 1)
       (render pre_dmy_dash (mkDate y m d) ++ Y) = []
  /\ match_format fmt_ymd_slash (1900, 1, 1)
       (render pre_dmy_dash (mkDate y m d) ++ Y) = []
  /\ match_format fmt_dmy_slash (1900, 1, 1)
       (render pre_dmy_dash (mkDate y m d) ++ Y) = []
  /\ match_format fmt_mdy_slash (1900, 1, 1)
       (render pre_dmy_dash (mkDate y m d) ++ Y) = []
  /\ match_format fmt_name (1900, 1, 1)
       (render pre_dmy_dash (mkDate y m d) ++ Y) = []
  /\ match_format pre_dmy_dash (1900, 1, 1)
       (render pre_dmy_dash (mkDate y m d) ++ Y) = [((1900, m, d), Y)]
  /\ match_format fmt_mdy_short (1900, 1, 1)
       (render pre_dmy_dash (mkDate y m d) ++ Y) = [].
Proof.
  intros Hm Hd. apply month_cases in Hm. apply day_cases in Hd.
  each_case Hm; each_case Hd; repeat split; reflexivity.
Qed.

(** The loop over the formats, one format at a time. *)
Lemma try_next fmt rest s :
  strptime s fmt = Raise ValueError ->
  try_formats (fmt :: rest) s = try_formats rest s.
Proof. intros H. cbn [try_formats]. now rewrite H. Qed.

Lemma try_accept fmt rest s dt :
  strptime s fmt = Ok dt -> 1900 <= year dt <= 2030 ->
  try_formats (fmt :: rest) s = Ok (Some dt).
Proof.
  intros H Hy. cbn [try_formats]. rewrite H.
  destruct (Z.leb_spec 1900 (year dt)); [|lia].
  destruct (Z.leb_spec (year dt) 2030); [|lia]. reflexivity.
Qed.

Lemma try_reject fmt rest s dt :
  strptime s fmt = Ok dt -> 2030 < year dt ->
  try_formats (fmt :: rest) s = try_formats rest s.
Proof.
  intros H Hy. cbn [try_formats]. rewrite H.
  destruct (Z.leb_spec (year dt) 2030); [lia|].
  now rewrite andb_false_r.
Qed.

Lemma strptime_fails s fmt ds :
  compile fmt = Ok ds -> match_format ds (1900, 1, 1) s = [] ->
  strptime s fmt = Raise ValueError.
Proof. intros Hc H. now rewrite (@strptime_finish s fmt ds Hc), H. Qed.

(** A format that ends with the year, on a text that ends with a year. *)
Lemma strptime_year_last s fmt pre y m d :
  compile fmt = Ok (pre ++ [Dir_Y]) ->
  0 <= y <= 9999 ->
  match_format pre (1900, 1, 1) s = [((1900, m, d), (four_digits y ++ EmptyString)%string)] ->
  strptime s fmt
  = (if valid_date y m d then Ok (mkDate y m d) else Raise ValueError).
Proof.
  intros Hc Hy H.
  rewrite (@strptime_finish _ _ _ Hc), match_format_app, H.
  cbn [flat_map fst snd]. rewrite match_format_cons, step_Y by exact Hy.
  reflexivity.
Qed.

Lemma strptime_short_year_last s fmt pre k m d :
  compile fmt = Ok (pre ++ [Dir_y]) ->
  0 <= k <= 99 ->
  match_format pre (1900, 1, 1) s = [((1900, m, d), (two_digits k ++ EmptyString)%string)] ->
  strptime s fmt
  = (let y := if k <=? 68 then k + 2000 else k + 1900 in
     if valid_date y m d then Ok (mkDate y m d) else Raise ValueError).
Proof.
  intros Hc Hk H.
  rewrite (@strptime_finish _ _ _ Hc), match_format_app, H.
  cbn [flat_map fst snd]. rewrite match_format_cons, step_y by exact Hk.
  reflexivity.
Qed.

(** A format that ends with a four-digit year, on a text that ends with
    two digits. *)
Lemma strptime_year_too_short s fmt pre k l :
  compile fmt = Ok (pre ++ [Dir_Y]) ->
  match_format pre (1900, 1, 1) s = l ->
  Forall (fun p => snd p = (two_digits k ++ EmptyString)%string) l ->
  strptime s fmt = Raise ValueError.
Proof.
  intros Hc H Hl. apply (@strptime_fails _ _ _ Hc).
  rewrite match_format_app, H. clear H.
  induction Hl as [|[a r] l Hr _ IH]; [reflexivity|].
  cbn [flat_map fst snd] in *. subst r.
  now rewrite match_format_cons, short_year_is_no_year, IH.
Qed.

Lemma valid_date_bounds (y m d : Z) :
  valid_date y m d = true -> 1 <= y <= 9999 /\ 1 <= m <= 12 /\ 1 <= d <= 31.
Proof.
  unfold valid_date, days_in_month. intros H.
  repeat (apply andb_true_iff in H as [H ?]).
  repeat match goal with
         | H : (_ <=? _) = true |- _ => apply Z.leb_le in H
         end.
  split; [lia|]. split; [lia|].
  destruct (m =? 2); [destruct (is_leap y); lia|].
  destruct ((m =? 4) || (m =? 6) || (m =? 9) || (m =? 11)); lia.
Qed.

(** Day and month up to 12 can be exchanged. *)
Lemma valid_date_exchanged y m d :
  valid_date y m d = true -> d <= 12 -> valid_date y d m = true.
Proof.
  intros H Hd. destruct (@valid_date_bounds _ _ _ H) as (Hy & Hm & Hd').
  unfold valid_date, days_in_month.
  repeat (apply andb_true_iff; split); try (apply Z.leb_le; lia).
  apply Z.leb_le.
  destruct (d =? 2); [destruct (is_leap y); lia|].
  destruct ((d =? 4) || (d =? 6) || (d =? 9) || (d =? 11)); lia.
Qed.

Section OneDate.

Variables y m d : Z.
Hypothesis Hvalid : valid_date y m d = true.
Hypothesis Hyear : 1900 <= y <= 2030.

Let Hy : 0 <= y <= 9999.
Proof. lia. Qed.

Let Hm : 1 <= m <= 12.
Proof. apply (@valid_date_bounds _ _ _ Hvalid). Qed.

Let Hd : 1 <= d <= 31.
Proof. apply (@valid_date_bounds _ _ _ Hvalid). Qed.

Lemma read_ymd_dash :
  parse_date (Some (strftime (mkDate y m d) "%Y-%m-%d")) = Ok (Some (mkDate y m d)).
Proof.
  change (strftime (mkDate y m d) "%Y-%m-%d")
    with (four_digits y
          ++ render [Literal "-"; Dir_m; Literal "-"; Dir_d] (mkDate y m d))%string.
  unfold parse_date. rewrite year_first_is_not_invalid by exact Hy.
  unfold formats. apply try_accept; [|cbn; lia].
  rewrite (@strptime_finish _ "%Y-%m-%d" fmt_ymd_dash eq_refl).
  rewrite match_format_cons, step_Y by exact Hy.
  cbn [flat_map fst snd]. rewrite app_nil_r.
  rewrite (@ymd_dash_rest m d y Hm Hd), Hvalid. reflexivity.
Qed.

Lemma read_ymd_slash :
  parse_date (Some (strftime (mkDate y m d) "%Y/%m/%d")) = Ok (Some (mkDate y m d)).
Proof.
  change (strftime (mkDate y m d) "%Y/%m/%d")
    with (four_digits y
          ++ render [Literal "/"; Dir_m; Literal "/"; Dir_d] (mkDate y m d))%string.
  destruct (@ymd_slash_rest m d y Hm Hd) as [H0 H1].
  unfold parse_date. rewrite year_first_is_not_invalid by exact Hy.
  unfold formats. rewrite try_next.
  - apply try_accept; [|cbn; lia].
    rewrite (@strptime_finish _ "%Y/%m/%d" fmt_ymd_slash eq_refl).
    rewrite match_format_cons, step_Y by exact Hy.
    cbn [flat_map fst snd]. rewrite app_nil_r, H1, Hvalid. reflexivity.
  - apply (@strptime_fails _ "%Y-%m-%d" fmt_ymd_dash eq_refl).
    rewrite match_format_cons, step_Y by exact Hy.
    cbn [flat_map fst snd]. now rewrite H0.
Qed.

Lemma read_dmy_slash :
  parse_date (Some (strftime (mkDate y m d) "%d/%m/%Y")) = Ok (Some (mkDate y m d)).
Proof.
  change (strftime (mkDate y m d) "%d/%m/%Y")
    with (render (pre_dmy_slash ++ [Dir_Y]) (mkDate y m d)).
  rewrite render_app.
  destruct (@dmy_slash_prefix m d y (render [Dir_Y] (mkDate y m d)) Hm Hd)
    as (Ha & H0 & H1 & H2).
  unfold parse_date. rewrite Ha. unfold formats.
  rewrite (@try_next _ _ _ (@strptime_fails _ "%Y-%m-%d" _ eq_refl H0)).
  rewrite (@try_next _ _ _ (@strptime_fails _ "%Y/%m/%d" _ eq_refl H1)).
  apply try_accept; [|cbn; lia].
  rewrite (@strptime_year_last _ "%d/%m/%Y" pre_dmy_slash y m d eq_refl Hy H2).
  now rewrite Hvalid.
Qed.

Lemma strptime_fails_early s fmt pre suffix :
  compile fmt = Ok (pre ++ suffix) -> match_format pre (1900, 1, 1) s = [] ->
  strptime s fmt = Raise ValueError.
Proof.
  intros Hc H. apply (@strptime_fails _ _ _ Hc).
  now rewrite match_format_app, H.
Qed.

Lemma read_mdy_slash :
  parse_date (Some (strftime (mkDate y m d) "%m/%d/%Y"))
  = Ok (Some (if d <=? 12 then mkDate y d m else mkDate y m d)).
Proof.
  change (strftime (mkDate y m d) "%m/%d/%Y")
    with (render (pre_mdy_slash ++ [Dir_Y]) (mkDate y m d)).
  rewrite render_app.
  destruct (@mdy_slash_prefix m d y (render [Dir_Y] (mkDate y m d)) Hm Hd)
    as (Ha & H0 & H1 & H2 & H3 & _).
  unfold parse_date. rewrite Ha. unfold formats.
  rewrite (@try_next _ _ _ (@strptime_fails _ "%Y-%m-%d" _ eq_refl H0)).
  rewrite (@try_next _ _ _ (@strptime_fails _ "%Y/%m/%d" _ eq_refl H1)).
  destruct (Z.leb_spec d 12) as [Hle | Hgt].
  - apply try_accept; [|cbn; lia].
    rewrite (@strptime_year_last _ "%d/%m/%Y" pre_dmy_slash y d m eq_refl Hy H2).
    now rewrite (@valid_date_exchanged _ _ _ Hvalid Hle).
  - rewrite (@try_next _ _ _
               (@strptime_fails_early _ "%d/%m/%Y" pre_dmy_slash [Dir_Y] eq_refl H2)).
    apply try_accept; [|cbn; lia].
    rewrite (@strptime_year_last _ "%m/%d/%Y" pre_mdy_slash y m d eq_refl Hy H3).
    now rewrite Hvalid.
Qed.

Lemma read_name :
  parse_date (Some (strftime (mkDate y m d) "%B %d, %Y")) = Ok (Some (mkDate y m d)).
Proof.
  change (strftime (mkDate y m d) "%B %d, %Y")
    with (render (pre_name ++ [Whitespace; Dir_Y]) (mkDate y m d)).
  rewrite render_app.
  destruct (@name_prefix m d y (render [Whitespace; Dir_Y] (mkDate y m d)) Hm Hd)
    as (Ha & H0 & H1 & H2 & H3 & H4).
  unfold parse_date. rewrite Ha. unfold formats.
  rewrite (@try_next _ _ _ (@strptime_fails _ "%Y-%m-%d" _ eq_refl H0)).
  rewrite (@try_next _ _ _ (@strptime_fails _ "%Y/%m/%d" _ eq_refl H1)).
  rewrite (@try_next _ _ _ (@strptime_fails _ "%d/%m/%Y" _ eq_refl H2)).
  rewrite (@try_next _ _ _ (@strptime_fails _ "%m/%d/%Y" _ eq_refl H3)).
  apply try_accept; [|cbn; lia].
  rewrite (@strptime_finish _ "%B %d, %Y" (pre_name ++ [Whitespace; Dir_Y]) eq_refl).
  rewrite match_format_app, H4. cbn [flat_map fst snd].
  change (render [Whitespace; Dir_Y] (mkDate y m d))
    with (String " " (four_digits y ++ EmptyString)).
  rewrite match_format_cons, space_before_year by exact Hy.
  cbn [flat_map fst snd].
  rewrite match_format_cons, step_Y by exact Hy.
  cbn [flat_map fst snd match_format app finish]. now rewrite Hvalid.
Qed.

(** The year a two-digit year is read as. *)
Let century : Z := if y mod 100 <=? 68 then y mod 100 + 2000 else y mod 100 + 1900.

Let Hcentury : 1969 <= century.
Proof.
  unfold century. pose proof (Z.mod_pos_bound y 100).
  destruct (Z.leb_spec (y mod 100) 68); lia.
Qed.

Let Hshort : 0 <= y mod 100 <= 99.
Proof. pose proof (Z.mod_pos_bound y 100). lia. Qed.

Lemma read_dmy_short :
  parse_date (Some (strftime (mkDate y m d) "%d-%m-%y"))
  = Ok (if (century <=? 2030) && valid_date century m d
        then Some (mkDate century m d) else None).
Proof.
  change (strftime (mkDate y m d) "%d-%m-%y")
    with (render (pre_dmy_dash ++ [Dir_y]) (mkDate y m d)).
  rewrite render_app.
  destruct (@dmy_dash_prefix m d y (render [Dir_y] (mkDate y m d)) Hm Hd)
    as (Ha & H0 & H1 & H2 & H3 & H4 & H5 & H6).
  unfold parse_date. rewrite Ha. unfold formats.
  rewrite (@try_next _ _ _ (@strptime_fails _ "%Y-%m-%d" _ eq_refl H0)).
  rewrite (@try_next _ _ _ (@strptime_fails _ "%Y/%m/%d" _ eq_refl H1)).
  rewrite (@try_next _ _ _ (@strptime_fails _ "%d/%m/%Y" _ eq_refl H2)).
  rewrite (@try_next _ _ _ (@strptime_fails _ "%m/%d/%Y" _ eq_refl H3)).
  rewrite (@try_next _ _ _ (@strptime_fails _ "%B %d, %Y" _ eq_refl H4)).
  pose proof (@strptime_short_year_last _ "%d-%m-%y" pre_dmy_dash (y mod 100) m d
                eq_refl Hshort H5) as Hown.
  cbv zeta in Hown. fold century in Hown.
  pose proof (@strptime_fails _ "%m/%d/%y" _ eq_refl H6) as Hlast.
  destruct (valid_date century m d) eqn:V.
  - destruct (Z.leb_spec century 2030) as [Hin | Hout]; cbn [andb].
    + apply (@try_accept _ _ _ _ Hown). cbn [year]. lia.
    + rewrite (@try_reject _ _ _ _ Hown Hout).
      now rewrite (@try_next _ _ _ Hlast).
  - rewrite andb_false_r, (@try_next _ _ _ Hown). now rewrite (@try_next _ _ _ Hlast).
Qed.

Lemma read_mdy_short :
  parse_date (Some (strftime (mkDate y m d) "%m/%d/%y"))
  = Ok (if (century <=? 2030) && valid_date century m d
        then Some (mkDate century m d) else None).
Proof.
  change (strftime (mkDate y m d) "%m/%d/%y")
    with (render (pre_mdy_slash ++ [Dir_y]) (mkDate y m d)).
  rewrite render_app.
  destruct (@mdy_slash_prefix m d y (render [Dir_y] (mkDate y m d)) Hm Hd)
    as (Ha & H0 & H1 & H2 & H3 & H4 & H5).
  unfold parse_date. rewrite Ha. unfold formats.
  rewrite (@try_next _ _ _ (@strptime_fails _ "%Y-%m-%d" _ eq_refl H0)).
  rewrite (@try_next _ _ _ (@strptime_fails _ "%Y/%m/%d" _ eq_refl H1)).
  rewrite (@try_next "%d/%m/%Y"%string _ _).
  2:{ apply (@strptime_year_too_short _ "%d/%m/%Y" pre_dmy_slash (y mod 100) _
               eq_refl H2).
      destruct (d <=? 12); repeat constructor. }
  rewrite (@try_next "%m/%d/%Y"%string _ _).
  2:{ apply (@strptime_year_too_short _ "%m/%d/%Y" pre_mdy_slash (y mod 100) _
               eq_refl H3).
      repeat constructor. }
  rewrite (@try_next _ _ _ (@strptime_fails _ "%B %d, %Y" _ eq_refl H4)).
  rewrite (@try_next _ _ _ (@strptime_fails _ "%d-%m-%y" _ eq_refl H5)).
  pose proof (@strptime_short_year_last _ "%m/%d/%y" pre_mdy_slash (y mod 100) m d
                eq_refl Hshort H3) as Hown.
  cbv zeta in Hown. fold century in Hown.
  destruct (valid_date century m d) eqn:V.
  - destruct (Z.leb_spec century 2030) as [Hin | Hout]; cbn [andb].
    + apply (@try_accept _ _ _ _ Hown). cbn [year]. lia.
    + now rewrite (@try_reject _ _ _ _ Hown Hout).
  - now rewrite andb_false_r, (@try_next _ _ _ Hown).
Qed.

End OneDate.

(** X11.  Every date of the calendar from 1900 to 2030, written in any of
    the seven formats of the date pass (day and month with two digits, the
    English month name), is read by [parse_date] as [reading] says: as itself
    in the four formats with a four-digit year other than month/day/year; in
    month/day/year, as itself only when the day is above 12, and otherwise
    with day and month exchanged, because the day-first format is tried
    before; with a two-digit year, as the date of the year 1969-2068 with
    these two digits when that year is at most 2030 and has this day, and as
    no date otherwise.  The pass raises on none of these texts. *)
Theorem X11_written_dates_read_back (i : nat) (fmt : string) (d : date) :
  nth_error formats i = Some fmt ->
  valid_date (year d) (month d) (day d) = true ->
  1900 <= year d <= 2030 ->
  parse_date (Some (strftime d fmt)) = Ok (reading i d).
Proof.
  intros Hfmt Hvalid Hyear. destruct d as [y m dd].
  cbn [year month day] in Hvalid, Hyear. unfold formats in Hfmt.
  destruct i as [|[|[|[|[|[|[|i]]]]]]]; cbn [nth_error] in Hfmt;
    try (injection Hfmt as <-).
  - now apply read_ymd_dash.
  - now apply read_ymd_slash.
  - now apply read_dmy_slash.
  - rewrite read_mdy_slash by assumption. cbn [reading year month day].
    now destruct (dd <=? 12).
  - now apply read_name.
  - now rewrite read_dmy_short by assumption.
  - now rewrite read_mdy_short by assumption.
  - destruct i; discriminate Hfmt.
Qed.

(** 9 March 2025 written month/day/year is read as 3 September 2025. *)
Lemma X11_written_dates_read_back_witness :
  parse_date (Some "03/09/2025"%string) = Ok (Some (mkDate 2025 9 3)).
Proof.
  exact (@X11_written_dates_read_back 3 "%m/%d/%Y"%string (mkDate 2025 3 9)
           eq_refl eq_refl ltac:(cbn; lia)).
Defined.

End ReadBack.

(** * The relational tables *)

Section Frames.

Import Relational.

Variable K : Type.
Variable K_eqb : K -> K -> bool.
Hypothesis K_eqb_eq : forall a b, K_eqb a b = true <-> a = b.

Lemma seen_In (k : K) (seen : list K) :
  existsb (K_eqb k) seen = true <-> In k seen.
Proof.
  rewrite existsb_exists. split.
  - intros (x & Hx & E). apply K_eqb_eq in E. now subst.
  - intros H. exists k. split; [exact H | now apply K_eqb_eq].
Qed.

Lemma duplicated_after_length (seen : list K) (frame : list K) :
  List.length (duplicated_after K_eqb seen frame) = List.length frame.
Proof.
  revert seen. induction frame as [|k frame IH]; intros seen; cbn; [reflexivity|].
  destruct (existsb (K_eqb k) seen); cbn; now rewrite IH.
Qed.

Lemma keep_In {A} (mask : list bool) (rows : list A) (x : A) :
  In x (keep mask rows) -> In x rows.
Proof.
  revert mask. induction rows as [|r rows IH]; intros [|b mask]; cbn; try tauto.
  destruct b; cbn; intros H; [destruct H as [H | H]|]; eauto.
Qed.


Lemma keep_map {A B} (f : A -> B) (mask : list bool) (rows : list A) :
  keep mask (map f rows) = map f (keep mask rows).
Proof.
  revert mask. induction rows as [|r rows IH]; intros [|b mask]; cbn;
    try reflexivity.
  destruct b; cbn; now rewrite IH.
Qed.

(** What [drop_duplicates] keeps: the keys of the frame not seen before,
    each once. *)
Lemma kept_In (seen frame : list K) (k : K) :
  In k (keep (map negb (duplicated_after K_eqb seen frame)) frame)
  <-> In k frame /\ ~ In k seen.
Proof.
  revert seen. induction frame as [|x frame IH]; intros seen; cbn; [tauto|].
  destruct (existsb (K_eqb x) seen) eqn:E; cbn.
  - apply seen_In in E. rewrite IH. split.
    + intros [H1 H2]. tauto.
    + intros [[-> | H1] H2]; tauto.
  - assert (Hx : ~ In x seen).
    { intros H. apply seen_In in H. congruence. }
    rewrite IH. cbn. split.
    + intros [<- | [H1 H2]]; tauto.
    + intros [[-> | H1] H2]; [tauto|].
      destruct (K_eqb x k) eqn:Ek; [apply K_eqb_eq in Ek; tauto|].
      right. split; [exact H1|]. intros [-> | H]; [|tauto].
      assert (K_eqb k k = true) by now apply K_eqb_eq. congruence.
Qed.

Lemma kept_NoDup (seen frame : list K) :
  NoDup (keep (map negb (duplicated_after K_eqb seen frame)) frame).
Proof.
  revert seen. induction frame as [|x frame IH]; intros seen; cbn;
    [constructor|].
  destruct (existsb (K_eqb x) seen) eqn:E; cbn; [apply IH|].
  constructor; [|apply IH].
  rewrite kept_In. cbn. tauto.
Qed.

Lemma first_occurrences_In (frame : list K) (k : K) :
  In k (keep (first_occurrences K_eqb frame) frame) <-> In k frame.
Proof.
  unfold first_occurrences, frame_duplicated. rewrite kept_In. cbn. tauto.
Qed.

Lemma first_occurrences_NoDup (frame : list K) :
  NoDup (keep (first_occurrences K_eqb frame) frame).
Proof. apply kept_NoDup. Qed.

(** A column assigned on the index of the frame stays with its row. *)
Lemma keep_combine_map {A V} (f : A -> K) (g : A -> V) (mask : list bool)
      (df : list A) :
  keep mask (combine (map f df) (map g df))
  = map (fun r => (f r, g r)) (keep mask df).
Proof.
  revert mask. induction df as [|r df IH]; intros [|b mask]; cbn;
    try reflexivity.
  destruct b; cbn; now rewrite IH.
Qed.

(** The keys kept are distinct in one column exactly when this column
    determines the key. *)
Lemma NoDup_map_determines {B} (f : K -> B) (l : list K) :
  NoDup l ->
  (NoDup (map f l) <-> forall a b, In a l -> In b l -> f a = f b -> a = b).
Proof.
  induction 1 as [|x l Hx Hl IH]; cbn.
  - split; [intros _ a b [] | constructor].
  - split.
    + intros H. inversion H as [|? ? Hfx Hfl]; subst.
      pose proof (proj1 IH Hfl) as Hinj.
      intros a b [<- | Ha] [<- | Hb] E; auto.
      * exfalso. apply Hfx. rewrite E. now apply in_map.
      * exfalso. apply Hfx. rewrite <- E. now apply in_map.
    + intros H. constructor.
      * intros Hin. apply in_map_iff in Hin as (b & E & Hb).
        assert (b = x) by (apply H; auto). subst. contradiction.
      * apply IH. intros a b Ha Hb. apply H; auto.
Qed.

End Frames.

Section RelationalTables.

Import Relational.

Variable D : Type.
Variable D_eqb : D -> D -> bool.
Hypothesis D_eqb_eq : forall a b, D_eqb a b = true <-> a = b.

Implicit Types (df : table D) (r : row D).

Lemma cell_eqb_eq (a b : option string) : cell_eqb a b = true <-> a = b.
Proof. apply option_eqb_eq, String.eqb_eq. Qed.

Lemma product_key_eqb_eq (a b : option string * option string) :
  product_key_eqb a b = true <-> a = b.
Proof.
  destruct a as [a1 a2], b as [b1 b2]. unfold product_key_eqb. cbn [fst snd].
  rewrite andb_true_iff, !cell_eqb_eq. split; [intros []|intros [=]]; now subst.
Qed.

Lemma transaction_key_eqb_eq (a b : option string * option string * D) :
  transaction_key_eqb D_eqb a b = true <-> a = b.
Proof.
  destruct a as [[a1 a2] a3], b as [[b1 b2] b3]. unfold transaction_key_eqb.
  cbn [fst snd]. rewrite !andb_true_iff, !cell_eqb_eq, D_eqb_eq.
  split; [intros [[] ?]|intros [=]]; now subst.
Qed.

Lemma groupby_transform_map (by_ : row D -> option string) (col : row D -> F64.t)
      (agg : list F64.t -> F64.t) df :
  groupby_transform by_ col agg df
  = map (fun r => match by_ r with
                  | Some k => agg (group_values by_ col k df)
                  | None => F64.NaN
                  end) df.
Proof. reflexivity. Qed.

(** The rows of the three tables, by the record of [df] each is kept
    from. *)
Lemma customers_ids df :
  map c_customer_id (customers_of df)
  = keep (first_occurrences cell_eqb (map (fun r => customer_id r) df))
         (map (fun r => customer_id r) df).
Proof.
  unfold customers_of. rewrite map_map. cbn [c_customer_id]. apply map_id.
Qed.

Lemma products_rows df :
  products_of df
  = map (fun r =>
           mkProduct (product_id r) (product_name r) "Electronics"
             match product_id r with
             | Some k => group_mean (group_values (fun r => product_id r)
                                       (fun r => price_per_unit r) k df)
             | None => F64.NaN
             end)
        (keep (first_occurrences product_key_eqb
                 (map (fun r => (product_id r, product_name r)) df)) df).
Proof.
  unfold products_of. rewrite groupby_transform_map, keep_combine_map, map_map.
  reflexivity.
Qed.

Lemma products_keys df :
  map (fun p => (p_product_id p, p_product_name p)) (products_of df)
  = keep (first_occurrences product_key_eqb
            (map (fun r => (product_id r, product_name r)) df))
         (map (fun r => (product_id r, product_name r)) df).
Proof. rewrite products_rows, map_map, keep_map. reflexivity. Qed.

Lemma transactions_rows df :
  transactions_of D_eqb df
  = map (fun r =>
           mkTransaction (transaction_id r) (customer_id r) (transaction_date r)
             match transaction_id r with
             | Some k => group_sum (group_values (fun r => transaction_id r)
                                      (fun r => total_price r) k df)
             | None => F64.NaN
             end)
        (keep (first_occurrences (transaction_key_eqb D_eqb)
                 (map (fun r => (transaction_id r, customer_id r,
                                 transaction_date r)) df)) df).
Proof.
  unfold transactions_of.
  rewrite groupby_transform_map, keep_combine_map, map_map. reflexivity.
Qed.

Lemma transactions_keys df :
  map (fun t => (t_transaction_id t, t_customer_id t, t_transaction_date t))
      (transactions_of D_eqb df)
  = keep (first_occurrences (transaction_key_eqb D_eqb)
            (map (fun r => (transaction_id r, customer_id r,
                            transaction_date r)) df))
         (map (fun r => (transaction_id r, customer_id r, transaction_date r)) df).
Proof. rewrite transactions_rows, map_map, keep_map. reflexivity. Qed.

(** One column of a table of distinct keys is a key exactly when it
    determines the others in [df]. *)
Lemma key_column {K B} (K_eqb : K -> K -> bool)
      (K_eqb_eq : forall a b, K_eqb a b = true <-> a = b)
      (key : row D -> K) (f : K -> B) df :
  NoDup (map f (keep (first_occurrences K_eqb (map key df)) (map key df)))
  <-> (forall r1 r2, In r1 df -> In r2 df ->
                     f (key r1) = f (key r2) -> key r1 = key r2).
Proof.
  rewrite (@NoDup_map_determines _ _ f _
             (@first_occurrences_NoDup _ _ K_eqb_eq (map key df))).
  split.
  - intros H r1 r2 H1 H2.
    apply H; apply (@first_occurrences_In _ _ K_eqb_eq); now apply in_map.
  - intros H a b Ha Hb.
    apply (@first_occurrences_In _ _ K_eqb_eq), in_map_iff in Ha as (r1 & <- & H1).
    apply (@first_occurrences_In _ _ K_eqb_eq), in_map_iff in Hb as (r2 & <- & H2).
    now apply H.
Qed.

End RelationalTables.


(** X13.  The products table never repeats a pair of identifier and name,
    and its [product_id] column has no repeated value exactly when the
    product identifier determines the product name in [df]: an identifier
    that comes with two names gets two rows.  The standard price of a row is
    the mean over all the records of [df] with its identifier, whatever
    their name. *)
Theorem X13_products_key (D : Type) (df : table D) :
  let products := Relational.products_of df in
  NoDup (map (fun p => (Relational.p_product_id p, Relational.p_product_name p))
             products)
  /\ (NoDup (map Relational.p_product_id products)
      <-> Relational.determines (fun r => product_id r)
                                (fun r => product_name r) df)
  /\ (forall p k,
         In p products -> Relational.p_product_id p = Some k ->
         Relational.p_standard_price p
         = Relational.group_mean
             (Relational.group_values (fun r => product_id r)
                                      (fun r => price_per_unit r) k df)).
Proof.
  cbv zeta. split; [|split].
  - rewrite products_keys.
    apply (@first_occurrences_NoDup _ _ product_key_eqb_eq).
  - replace (map Relational.p_product_id (Relational.products_of df))
      with (map fst (map (fun p => (Relational.p_product_id p,
                                    Relational.p_product_name p))
                         (Relational.products_of df)))
      by (rewrite map_map; reflexivity).
    rewrite products_keys.
    rewrite (@key_column D _ _ _ product_key_eqb_eq
               (fun r => (product_id r, product_name r)) fst df).
    unfold Relational.determines. cbn [fst].
    split; intros H r1 r2 H1 H2 E.
    + now injection (H r1 r2 H1 H2 E).
    + now rewrite E, (H r1 r2 H1 H2 E).
  - intros p k Hp Hk. rewrite products_rows in Hp.
    apply in_map_iff in Hp as (r & <- & _). cbn in *. now rewrite Hk.
Qed.

(** X14.  The transactions table never repeats a triple of transaction
    identifier, customer and date, and its [transaction_id] column has no
    repeated value exactly when the transaction identifier determines the
    customer and the date in [df].  The total amount of a row is the sum of
    the totals of all the records of [df] with its identifier. *)
Theorem X14_transactions_key
        (D : Type) (D_eqb : D -> D -> bool)
        (D_eqb_eq : forall a b, D_eqb a b = true <-> a = b) (df : table D) :
  let transactions := Relational.transactions_of D_eqb df in
  NoDup (map (fun t => (Relational.t_transaction_id t, Relational.t_customer_id t,
                        Relational.t_transaction_date t)) transactions)
  /\ (NoDup (map (@Relational.t_transaction_id D) transactions)
      <-> Relational.determines (fun r => transaction_id r)
            (fun r => (customer_id r, transaction_date r)) df)
  /\ (forall t k,
         In t transactions -> Relational.t_transaction_id t = Some k ->
         Relational.t_total_amount t
         = Relational.group_sum
             (Relational.group_values (fun r => transaction_id r)
                                      (fun r => total_price r) k df)).
Proof.
  cbv zeta. split; [|split].
  - rewrite transactions_keys.
    apply (@first_occurrences_NoDup _ _ (@transaction_key_eqb_eq _ _ D_eqb_eq)).
  - replace (map (@Relational.t_transaction_id D)
                 (Relational.transactions_of D_eqb df))
      with (map (fun k : option string * option string * D => fst (fst k))
                (map (fun t => (Relational.t_transaction_id t,
                                Relational.t_customer_id t,
                                Relational.t_transaction_date t))
                     (Relational.transactions_of D_eqb df)))
      by (rewrite map_map; reflexivity).
    rewrite transactions_keys.
    rewrite (@key_column D _ _ _ (@transaction_key_eqb_eq _ _ D_eqb_eq)
               (fun r => (transaction_id r, customer_id r, transaction_date r))
               (fun k => fst (fst k)) df).
    unfold Relational.determines. cbn [fst].
    split; intros H r1 r2 H1 H2 E.
    + pose proof (H r1 r2 H1 H2 E) as [= _ Hc Hd]. now rewrite Hc, Hd.
    + pose proof (H r1 r2 H1 H2 E) as [= Hc Hd]. now rewrite E, Hc, Hd.
  - intros t k Ht Hk. rewrite transactions_rows in Ht.
    apply in_map_iff in Ht as (r & <- & _). cbn in *. now rewrite Hk.
Qed.

(** The table of the two copies and another record: three transactions. *)
Lemma X14_transactions_key_witness :
  NoDup (map (fun t => (Relational.t_transaction_id t, Relational.t_customer_id t,
                        Relational.t_transaction_date t))
             (Relational.transactions_of date_cell_eqb
                [Samples.first_copy; Samples.second_copy; Samples.other_record])).
Proof.
  exact (proj1 (@X14_transactions_key _ _ date_cell_eqb_eq
                  [Samples.first_copy; Samples.second_copy; Samples.other_record])).
Defined.

(** X15.  The four tables refer to each other as the schema requires: the
    customer of every transaction is a row of the customers table, the
    transaction and the product of every item are rows of the transactions
    and of the products table, and there is one item for each record. *)
Theorem X15_relational_references
        (D : Type) (D_eqb : D -> D -> bool)
        (D_eqb_eq : forall a b, D_eqb a b = true <-> a = b) (df : table D)
        customers products transactions transaction_items :
  Relational.transform_to_relational D_eqb df
  = (customers, products, transactions, transaction_items) ->
  (forall t, In t transactions ->
             In (Relational.t_customer_id t)
                (map Relational.c_customer_id customers))
  /\ (forall i, In i transaction_items ->
                In (Relational.i_transaction_id i)
                   (map (@Relational.t_transaction_id D) transactions)
                /\ In (Relational.i_product_id i)
                      (map Relational.p_product_id products))
  /\ List.length transaction_items = List.length df.
Proof.
  unfold Relational.transform_to_relational. intros [= <- <- <- <-].
  split; [|split].
  - intros t Ht. rewrite transactions_rows in Ht.
    apply in_map_iff in Ht as (r & <- & Hr). apply keep_In in Hr.
    cbn [Relational.t_customer_id]. rewrite customers_ids.
    apply (@first_occurrences_In _ _ cell_eqb_eq).
    now apply (in_map (fun r => customer_id r)).
  - intros i Hi. unfold Relational.transaction_items_of in Hi.
    apply in_map_iff in Hi as (r & <- & Hr).
    cbn [Relational.i_transaction_id Relational.i_product_id]. split.
    + replace (map (@Relational.t_transaction_id D)
                   (Relational.transactions_of D_eqb df))
        with (map (fun k : option string * option string * D => fst (fst k))
                  (map (fun t => (Relational.t_transaction_id t,
                                  Relational.t_customer_id t,
                                  Relational.t_transaction_date t))
                       (Relational.transactions_of D_eqb df)))
        by (rewrite map_map; reflexivity).
      rewrite transactions_keys.
      apply (in_map (fun k : option string * option string * D => fst (fst k))
                    _ (transaction_id r, customer_id r, transaction_date r)).
      apply (@first_occurrences_In _ _ (@transaction_key_eqb_eq _ _ D_eqb_eq)).
      now apply (in_map (fun r => (transaction_id r, customer_id r,
                                   transaction_date r))).
    + replace (map Relational.p_product_id (Relational.products_of df))
        with (map fst (map (fun p => (Relational.p_product_id p,
                                      Relational.p_product_name p))
                           (Relational.products_of df)))
        by (rewrite map_map; reflexivity).
      rewrite products_keys.
      apply (in_map fst _ (product_id r, product_name r)).
      apply (@first_occurrences_In _ _ product_key_eqb_eq).
      now apply (in_map (fun r => (product_id r, product_name r))).
  - unfold Relational.transaction_items_of. apply length_map.
Qed.

(** The table of the two copies and another record. *)
Lemma X15_relational_references_witness :
  Forall (fun t =>
            In (Relational.t_customer_id t)
               (map Relational.c_customer_id
                    (Relational.customers_of
                       [Samples.first_copy; Samples.second_copy;
                        Samples.other_record])))
         (Relational.transactions_of date_cell_eqb
            [Samples.first_copy; Samples.second_copy; Samples.other_record]).
Proof.
  apply Forall_forall.
  exact (proj1 (@X15_relational_references _ _ date_cell_eqb_eq
                  [Samples.first_copy; Samples.second_copy; Samples.other_record]
                  _ _ _ _ eq_refl)).
Defined.

(** * Running a file of statements *)

Section SqlFile.

Import Sql.

Lemma split_no_separator sep s :
  Forall (fun piece => contains sep piece = false) (split sep s).
Proof.
  induction s as [|c s IH]; cbn [split].
  - repeat constructor.
  - destruct (Ascii.eqb c sep) eqn:E.
    + constructor; [reflexivity | exact IH].
    + destruct (split sep s) as [|piece pieces].
      * constructor; [cbn; now rewrite E | constructor].
      * inversion IH as [|? ? Hp Hps]; subst.
        constructor; [cbn; now rewrite E, Hp | exact Hps].
Qed.

Lemma split_length sep s :
  List.length (split sep s)
  = S (List.length (filter (Ascii.eqb sep) (list_ascii_of_string s))).
Proof.
  induction s as [|c s IH]; cbn [split list_ascii_of_string filter];
    [reflexivity|].
  rewrite (Ascii.eqb_sym sep c).
  destruct (Ascii.eqb c sep); cbn [List.length]; [now rewrite IH|].
  destruct (split sep s); cbn in *; [discriminate | exact IH].
Qed.

Lemma lstrip_contains c s :
  contains c s = false -> contains c (Py.lstrip s) = false.
Proof.
  induction s as [|a s IH]; cbn [Py.lstrip contains]; [reflexivity|].
  intros H. apply orb_false_iff in H as [Ha Hs].
  destruct (Py.is_space a); [now apply IH|]. cbn. now rewrite Ha, Hs.
Qed.

Lemma rstrip_contains c s :
  contains c s = false -> contains c (Py.rstrip s) = false.
Proof.
  induction s as [|a s IH]; [reflexivity|].
  cbn [contains]. intros H. apply orb_false_iff in H as [Ha Hs].
  rewrite rstrip_cons. specialize (IH Hs).
  destruct (Py.rstrip s) as [|b r].
  - destruct (Py.is_space a); cbn; [reflexivity | now rewrite Ha].
  - cbn [contains] in *. now rewrite Ha, IH.
Qed.

Lemma strip_contains c s :
  contains c s = false -> contains c (Py.strip s) = false.
Proof. intros H. now apply rstrip_contains, lstrip_contains. Qed.

(** What the list of queries holds. *)
Lemma queries_of_spec sql_content :
  Forall (fun query =>
            truthy query = true /\ Py.strip query = query
            /\ contains ";" query = false)
         (queries_of sql_content).
Proof.
  unfold queries_of. apply Forall_forall. intros query Hq.
  apply in_map_iff in Hq as (q & <- & Hq).
  apply filter_In in Hq as [Hq Ht].
  split; [exact Ht|]. split; [apply strip_idempotent|].
  apply strip_contains.
  pose proof (split_no_separator ";" sql_content) as H.
  rewrite Forall_forall in H. now apply H.
Qed.

Section Connection.

Variable connection : Type.
Variable execute : connection -> string -> option connection.

(** With no empty query, a loop that ends without raising has sent every
    query, in order. *)
Lemma execute_all_sends conn queries sent conn' :
  Forall (fun query => truthy query = true) queries ->
  execute_all execute conn queries = (sent, Some conn') ->
  sent = queries.
Proof.
  intros Hq. revert conn sent.
  induction Hq as [|query rest Ht _ IH]; intros conn sent; cbn [execute_all].
  - now intros [= <- _].
  - rewrite Ht. destruct (execute conn query) as [conn1|]; [|discriminate].
    destruct (execute_all execute conn1 rest) as [sent1 r] eqn:E.
    intros [= <- ->]. f_equal. exact (IH _ _ E).
Qed.

End Connection.

End SqlFile.

(** X16.  When [run_sql_file] returns True, the statements it has sent to
    the data base are exactly the queries of the file, in order, and the
    number it prints is their number: the test that skips empty queries in
    the loop never skips, since every query is not empty, has no white space
    at its ends and contains no semicolon (a semicolon inside a literal or a
    comment of the file cuts the statement in two); there are at most one
    more queries than semicolons in the file. *)
Theorem X16_sql_file_statements
        (connection : Type) (read : option string) (connect : option connection)
        (execute : connection -> string -> option connection)
        (commit : connection -> option connection) sent printed :
  Sql.run_sql_file read connect execute commit = (sent, printed, true) ->
  exists sql_content,
    read = Some sql_content
    /\ sent = Sql.queries_of sql_content
    /\ printed = [Sql.Successfully_executed (List.length sent)]
    /\ Forall (fun query =>
                 Sql.truthy query = true /\ Py.strip query = query
                 /\ Sql.contains ";" query = false) sent
    /\ List.length sent
       <= S (List.length (filter (Ascii.eqb ";")
                                 (list_ascii_of_string sql_content))).
Proof.
  unfold Sql.run_sql_file.
  destruct read as [sql_content|]; [|discriminate].
  destruct connect as [conn|]; [|discriminate]. cbv zeta.
  destruct (Sql.execute_all execute conn (Sql.queries_of sql_content))
    as [sent0 [conn'|]] eqn:E; [|discriminate].
  destruct (commit conn'); [|discriminate].
  intros [= <- <-]. exists sql_content.
  pose proof (queries_of_spec sql_content) as Hspec.
  assert (Hsent : sent0 = Sql.queries_of sql_content).
  { apply (@execute_all_sends _ execute conn _ _ conn'); [|exact E].
    eapply Forall_impl; [|exact Hspec]. now intros q [H _]. }
  subst sent0. repeat split; try assumption.
  unfold Sql.queries_of. rewrite length_map.
  etransitivity; [apply filter_length_le|].
  now rewrite split_length.
Qed.

(** A file of two statements and a trailing newline, on a connection that
    records what it is sent. *)
Lemma X16_sql_file_statements_witness :
  exists sql_content,
    Some "SELECT 1; SELECT 2;
"%string = Some sql_content
    /\ ["SELECT 1"; "SELECT 2"]%string = Sql.queries_of sql_content.
Proof.
  destruct (@X16_sql_file_statements (list string)
              (Some "SELECT 1; SELECT 2;
"%string) (Some [])
              (fun conn query => Some (conn ++ [query])) Some
              ["SELECT 1"; "SELECT 2"]%string
              [Sql.Successfully_executed 2] eq_refl)
    as (sql_content & Hread & Hsent & _).
  exists sql_content. split; assumption.
Defined.

(** * The statistics page *)

Section StatsPage.

Import Display.
Local Open Scope Z_scope.

Lemma key_eqb_eq (a b : option string) : key_eqb a b = true <-> a = b.
Proof. apply option_eqb_eq, String.eqb_eq. Qed.

Lemma key_eqb_refl (a : option string) : key_eqb a a = true.
Proof. now apply key_eqb_eq. Qed.

(** The dict. *)
Lemma get_set (d : counts) k v k' default :
  get (set d k v) k' default = if key_eqb k k' then v else get d k' default.
Proof.
  induction d as [|[k0 v0] d IH]; cbn [set get].
  - reflexivity.
  - destruct (key_eqb k0 k) eqn:E; cbn [get].
    + apply key_eqb_eq in E. subst k0. now destruct (key_eqb k k').
    + rewrite IH. destruct (key_eqb k0 k') eqn:E'; [|reflexivity].
      apply key_eqb_eq in E'. subst k0.
      destruct (key_eqb k k') eqn:E2; [|reflexivity].
      apply key_eqb_eq in E2. subst k'. rewrite key_eqb_refl in E. discriminate.
Qed.

Lemma total_set (d : counts) k v :
  total (set d k v) = total d - get d k 0 + v.
Proof.
  unfold total. induction d as [|[k0 v0] d IH]; cbn [set get map fold_right snd].
  - lia.
  - destruct (key_eqb k0 k); cbn [map fold_right snd]; lia.
Qed.

Lemma keys_set (d : counts) k v k' :
  In k' (map fst (set d k v)) <-> In k' (map fst d) \/ k' = k.
Proof.
  induction d as [|[k0 v0] d IH]; cbn [set map fst In].
  - intuition.
  - destruct (key_eqb k0 k) eqn:E; cbn [map fst In].
    + apply key_eqb_eq in E. subst k0. intuition.
    + rewrite IH. intuition.
Qed.

Lemma NoDup_keys_set (d : counts) k v :
  NoDup (map fst d) -> NoDup (map fst (set d k v)).
Proof.
  induction d as [|[k0 v0] d IH]; cbn [set map fst]; intros H.
  - repeat constructor. intros [].
  - inversion H as [|? ? Hk0 Hd]; subst.
    destruct (key_eqb k0 k) eqn:E; cbn [map fst].
    + now constructor.
    + constructor; [|now apply IH].
      rewrite keys_set. intros [Hin | ->]; [contradiction|].
      rewrite key_eqb_refl in E. discriminate.
Qed.

Lemma get_In (d : counts) k v default :
  NoDup (map fst d) -> In (k, v) d -> get d k default = v.
Proof.
  induction d as [|[k0 v0] d IH]; cbn [map fst get]; intros H Hin; [easy|].
  inversion H as [|? ? Hk0 Hd]; subst.
  destruct Hin as [[= -> ->] | Hin].
  - now rewrite key_eqb_refl.
  - destruct (key_eqb k0 k) eqn:E; [|now apply IH].
    apply key_eqb_eq in E. subst k0. exfalso. apply Hk0.
    now apply (in_map fst _ (k, v)).
Qed.

(** The loop over the rows. *)
Lemma get_tally l (d : counts) p :
  get (tally l d) p 0 = get d p 0 + sold p l.
Proof.
  revert d. induction l as [|[k q] l IH]; intros d; cbn [tally fold_left].
  - unfold sold, total. cbn. lia.
  - fold (tally l (add_quantity d (k, q))). rewrite IH.
    unfold add_quantity. cbn [fst snd]. rewrite get_set.
    unfold sold, total. cbn [filter fst].
    destruct (key_eqb k p) eqn:E; cbn [map fold_right snd]; [|lia].
    apply key_eqb_eq in E. subst k. lia.
Qed.

Lemma total_tally l (d : counts) : total (tally l d) = total d + total l.
Proof.
  revert d. induction l as [|[k q] l IH]; intros d; cbn [tally fold_left].
  - unfold total. cbn. lia.
  - fold (tally l (add_quantity d (k, q))). rewrite IH.
    unfold add_quantity. cbn [fst snd]. rewrite total_set.
    unfold total. cbn [map fold_right snd]. lia.
Qed.

Lemma keys_tally l (d : counts) p :
  In p (map fst (tally l d)) <-> In p (map fst d) \/ In p (map fst l).
Proof.
  revert d. induction l as [|[k q] l IH]; intros d; cbn [tally fold_left].
  - cbn. intuition.
  - fold (tally l (add_quantity d (k, q))). rewrite IH.
    unfold add_quantity. cbn [fst snd map In]. rewrite keys_set. intuition.
Qed.

Lemma NoDup_keys_tally l (d : counts) :
  NoDup (map fst d) -> NoDup (map fst (tally l d)).
Proof.
  revert d. induction l as [|[k q] l IH]; intros d H; cbn [tally fold_left].
  - exact H.
  - apply IH. now apply NoDup_keys_set.
Qed.

Section Parsers.

Variable float : string -> result F64.t.
Variable int : string -> result Z.

Lemma count_products_tally rows (d out : counts) :
  count_products int d rows = Ok out ->
  exists l, product_quantities int rows = Ok l /\ out = tally l d.
Proof.
  revert d. induction rows as [|row rows IH]; intros d;
    cbn [count_products product_quantities].
  - intros [= <-]. now exists [].
  - destruct (int_of int (row "quantity"%string)) as [qty|e]; [|discriminate].
    intros H. apply IH in H as (l & -> & ->).
    eexists. split; reflexivity.
Qed.

End Parsers.

(** The order of the page. *)
Lemma insert_Permutation x (l : counts) :
  Permutation.Permutation (insert x l) (x :: l).
Proof.
  induction l as [|y l IH]; cbn [insert]; [apply Permutation.Permutation_refl|].
  destruct (snd x <? snd y); [|apply Permutation.Permutation_refl].
  eapply Permutation.perm_trans; [apply Permutation.perm_skip, IH|].
  apply Permutation.perm_swap.
Qed.

Lemma sorted_reverse_Permutation (l : counts) :
  Permutation.Permutation (sorted_reverse l) l.
Proof.
  induction l as [|x l IH]; cbn [sorted_reverse fold_right];
    [apply Permutation.perm_nil|].
  eapply Permutation.perm_trans; [apply insert_Permutation|].
  now apply Permutation.perm_skip.
Qed.

Lemma insert_decreasing x (l : counts) : decreasing l -> decreasing (insert x l).
Proof.
  unfold decreasing. induction 1 as [|y l Hl IH Hy]; cbn [insert].
  - constructor; constructor.
  - destruct (Z.ltb_spec (snd x) (snd y)) as [Hlt | Hge].
    + constructor; [exact IH|].
      apply Forall_forall. intros z Hz.
      apply (Permutation.Permutation_in _ (insert_Permutation x l)) in Hz.
      destruct Hz as [<- | Hz]; [lia|].
      rewrite Forall_forall in Hy. now apply Hy.
    + constructor; [now constructor|].
      constructor; [lia|].
      eapply Forall_impl; [|exact Hy]. cbv beta. intros z Hz. lia.
Qed.

Lemma sorted_reverse_decreasing (l : counts) : decreasing (sorted_reverse l).
Proof.
  induction l as [|x l IH]; cbn [sorted_reverse fold_right].
  - constructor.
  - now apply insert_decreasing.
Qed.

Lemma decreasing_app (l1 l2 : counts) :
  decreasing (l1 ++ l2) ->
  decreasing l1
  /\ forall a b, In a l1 -> In b l2 -> snd b <= snd a.
Proof.
  unfold decreasing. induction l1 as [|x l1 IH]; cbn [app]; intros H.
  - split; [constructor | intros a b []].
  - inversion H as [|? ? Hl Hx]; subst. destruct (IH Hl) as [H1 H2].
    rewrite Forall_app in Hx. destruct Hx as [Hx1 Hx2].
    split; [now constructor|].
    intros a b [<- | Ha] Hb; [|now apply H2].
    rewrite Forall_forall in Hx2. now apply Hx2.
Qed.

End StatsPage.

(** X17.  When the statistics page is shown with figures, every quantity of
    the file was read as an integer, and: the total quantity is the sum of
    the quantities of all the rows; at most ten products are listed, each
    once, by decreasing count; the count of a listed product is the sum of
    the quantities of its rows; and a product of the file that is not listed
    has a count that no listed count is below, ten products being listed
    then. *)
Theorem X17_stats_page
        (float : string -> result F64.t) (int : string -> result Z)
        (cleaned : list Display.csv_row) total_records total_revenue
        avg_order_value total_quantity product_counts :
  Display.show_stats float int cleaned
  = Ok (Display.Stats total_records total_revenue avg_order_value
                      total_quantity product_counts) ->
  total_records = List.length cleaned /\ 0 < total_records
  /\ exists l,
       Display.product_quantities int cleaned = Ok l
       /\ total_quantity = Display.total l
       /\ List.length product_counts <= 10
       /\ Display.decreasing product_counts
       /\ NoDup (map fst product_counts)
       /\ (forall p c, In (p, c) product_counts ->
                       In p (map fst l) /\ c = Display.sold p l)
       /\ (forall p, In p (map fst l) -> ~ In p (map fst product_counts) ->
             List.length product_counts = 10
             /\ forall p' c', In (p', c') product_counts ->
                              (Display.sold p l <= c')%Z).
Proof.
  unfold Display.show_stats. destruct cleaned as [|row rows]; [discriminate|].
  destruct (Display.sum_total_price float _ _) as [revenue|e]; [|discriminate].
  destruct (Display.count_products int [] (row :: rows)) as [d|e] eqn:E;
    [|discriminate].
  set (listed := firstn 10 (Display.sorted_reverse d)).
  intros [= <- <- <- <- <-].
  split; [reflexivity|]. split; [cbn; lia|].
  apply count_products_tally in E as (l & Hl & ->). exists l.
  unfold listed. clear listed.
  assert (Hkeys : NoDup (map fst (Display.tally l [])))
    by (apply NoDup_keys_tally; constructor).
  assert (Hentry : forall p c, In (p, c) (Display.tally l []) ->
                               In p (map fst l) /\ c = Display.sold p l).
  { intros p c Hin. split.
    - apply (in_map fst) in Hin. apply keys_tally in Hin as [[] | H]. exact H.
    - rewrite <- (@get_In _ _ _ 0%Z Hkeys Hin), get_tally. reflexivity. }
  set (sorted := Display.sorted_reverse (Display.tally l [])).
  pose proof (sorted_reverse_Permutation (Display.tally l [])) as Hperm.
  fold sorted in Hperm.
  pose proof (sorted_reverse_decreasing (Display.tally l [])) as Hdec.
  fold sorted in Hdec. rewrite <- (firstn_skipn 10 sorted) in Hdec.
  apply decreasing_app in Hdec as [Hfirst Hrest].
  split; [exact Hl|].
  split; [fold (Display.total (Display.tally l [])); now rewrite total_tally|].
  split; [apply firstn_le_length|].
  split; [exact Hfirst|].
  assert (Hsub : forall x, In x (firstn 10 sorted) -> In x (Display.tally l [])).
  { intros x Hx. apply (Permutation.Permutation_in _ Hperm).
    rewrite <- (firstn_skipn 10 sorted). apply in_or_app. now left. }
  split.
  { assert (Hnd : NoDup (map fst sorted)).
    { apply (Permutation.Permutation_NoDup
               (Permutation.Permutation_map fst (Permutation.Permutation_sym Hperm))).
      exact Hkeys. }
    rewrite <- (firstn_skipn 10 sorted), map_app in Hnd.
    now apply NoDup_app_remove_r in Hnd. }
  split; [intros p c Hin; now apply Hentry, Hsub|].
  intros p Hp Hnot.
  assert (Hin : In (p, Display.sold p l) (Display.tally l [])).
  { assert (Hk : In p (map fst (Display.tally l [])))
      by (apply keys_tally; now right).
    apply in_map_iff in Hk as ([p' c] & Heq & Hin). cbn in Heq. subst p'.
    now rewrite (proj2 (Hentry _ _ Hin)) in Hin. }
  apply (Permutation.Permutation_in _ (Permutation.Permutation_sym Hperm)) in Hin.
  rewrite <- (firstn_skipn 10 sorted) in Hin. apply in_app_or in Hin.
  destruct Hin as [Hin | Hin].
  { exfalso. apply Hnot. now apply (in_map fst) in Hin. }
  split.
  - apply firstn_length_le.
    destruct (Nat.le_gt_cases 10 (List.length sorted)) as [H | H]; [exact H|].
    rewrite skipn_all2 in Hin by lia. destruct Hin.
  - intros p' c' Hin'. exact (Hrest _ _ Hin' Hin).
Qed.

(** Two rows of mice and one of cables: seven mice come before two
    cables. *)
Lemma X17_stats_page_witness :
  exists l,
    Display.product_quantities (fun s => Ok (Datetime.int s))
      [ (fun column => Display.Text (if String.eqb column "product_name"
                                     then "Cable" else "2"));
        (fun column => Display.Text (if String.eqb column "product_name"
                                     then "Mouse" else "3"));
        (fun column => Display.Text (if String.eqb column "product_name"
                                     then "Mouse" else "4")) ]%string
    = Ok l
    /\ 9%Z = Display.total l
    /\ Display.decreasing [(Some "Mouse"%string, 7%Z); (Some "Cable"%string, 2%Z)].
Proof.
  destruct (@X17_stats_page
              (fun s => Ok (F64.of_Z (Datetime.int s)))
              (fun s => Ok (Datetime.int s))
              [ (fun column => Display.Text (if String.eqb column "product_name"
                                             then "Cable" else "2"));
                (fun column => Display.Text (if String.eqb column "product_name"
                                             then "Mouse" else "3"));
                (fun column => Display.Text (if String.eqb column "product_name"
                                             then "Mouse" else "4")) ]%string
              3%nat _ _ 9%Z
              [(Some "Mouse"%string, 7%Z); (Some "Cable"%string, 2%Z)]
              eq_refl)
    as (_ & _ & l & Hl & Htotal & _ & Hdec & _).
  exists l. repeat split; assumption.
Defined.

(** * The numeric passes in double precision: properties *)

Section DoubleMasks.

Import Binary64.

Variable D : Type.
Implicit Types (df : table D) (f g : row D -> bool) (h k : row D -> row D).

Lemma double_column_map f h df :
  column f (map h df) = column (fun r => f (h r)) df.
Proof. unfold column. now rewrite map_map. Qed.

Lemma double_mask_and_column f g df :
  mask_and (column f df) (column g df) = column (fun r => f r && g r) df.
Proof. induction df as [|r df IH]; simpl; [reflexivity | now rewrite IH]. Qed.

Lemma double_mask_or_column f g df :
  mask_or (column f df) (column g df) = column (fun r => f r || g r) df.
Proof. induction df as [|r df IH]; simpl; [reflexivity | now rewrite IH]. Qed.

Lemma double_mask_not_column f df :
  mask_not (column f df) = column (fun r => negb (f r)) df.
Proof. unfold mask_not, column. now rewrite map_map. Qed.

Lemma double_loc_set_column_map f k h df :
  loc_set (column f df) k (map h df)
  = map (fun r => if f r then k (h r) else h r) df.
Proof. induction df as [|r df IH]; simpl; [reflexivity | now rewrite IH]. Qed.

Lemma double_loc_set_column f k df :
  loc_set (column f df) k df = map (fun r => if f r then k r else r) df.
Proof. induction df as [|r df IH]; simpl; [reflexivity | now rewrite IH]. Qed.

Lemma double_select_column f df : select (column f df) df = filter f df.
Proof.
  induction df as [|r df IH]; simpl; [reflexivity|].
  destruct (f r); simpl; now rewrite IH.
Qed.

Lemma double_loc_set_none mask k df :
  mask_any mask = false -> loc_set mask k df = df.
Proof.
  revert df; induction mask as [|b mask IH]; intros [|r df] H; simpl in *;
    try reflexivity.
  apply orb_false_iff in H as [-> H]. now rewrite IH.
Qed.

Lemma mask_sum_column f df :
  mask_sum (column f df) = List.length (filter f df).
Proof.
  unfold mask_sum, column.
  induction df as [|r df IH]; cbn; [reflexivity|].
  destruct (f r); cbn; now rewrite IH.
Qed.

End DoubleMasks.

Create Rewrite HintDb double_masks.
#[local] Hint Rewrite double_column_map double_mask_not_column
  double_mask_and_column double_mask_or_column double_loc_set_column_map
  : double_masks.

(** ** Pass 1 in double precision *)

Section DoubleMissingValues.

Import Binary64.

Variable D : Type.
Implicit Types (df : table D) (r : row D).

Lemma double_missing_values_rowwise df :
  _handle_missing_values df
  = (let out := filter complete (map repair_in_sequence df) in
     ([Removed_missing (List.length df - List.length out)], Ok out)).
Proof.
  unfold _handle_missing_values; cbv zeta.
  repeat rewrite double_mask_and_column.
  repeat rewrite double_loc_set_column.
  rewrite double_select_column, !map_map.
  reflexivity.
Qed.

(** A repair never reads a field another repair has written. *)
Lemma double_repair_in_sequence_original r :
  repair_in_sequence r = repair_from_original r.
Proof.
  destruct r as [i c p n q u t d].
  unfold repair_in_sequence, repair_from_original, notna; cbn.
  destruct (isna u) eqn:Eu, (isna q) eqn:Eq, (isna t) eqn:Et; cbn;
    rewrite ?Eu, ?Eq, ?Et; cbn; rewrite ?Eu, ?Eq, ?Et; reflexivity.
Qed.

Lemma double_missing_values_returns df :
  returned (_handle_missing_values df) = Ok (missing_value_repair_spec df).
Proof.
  rewrite double_missing_values_rowwise. cbn.
  unfold missing_value_repair_spec.
  now rewrite (map_ext _ _ double_repair_in_sequence_original).
Qed.

End DoubleMissingValues.

(** ** float64 facts *)

(** The rounding of the specification never produces NaN, and the comparison
    of two numbers is antisymmetric. *)
Section SpecFloatFacts.

Variables prec emax : Z.

Lemma shr_1_nonneg mrs : (0 <= shr_m mrs)%Z -> (0 <= shr_m (shr_1 mrs))%Z.
Proof.
  destruct mrs as [m r s]. cbn [shr_m]. intros H.
  destruct m as [|[p|p|]|p]; cbn; lia.
Qed.

Lemma iter_shr_1_nonneg p mrs :
  (0 <= shr_m mrs)%Z -> (0 <= shr_m (SpecFloat.iter_pos shr_1 p mrs))%Z.
Proof.
  revert mrs; induction p as [p IH|p IH|]; intros mrs H; cbn [SpecFloat.iter_pos].
  - apply IH, IH, shr_1_nonneg, H.
  - apply IH, IH, H.
  - apply shr_1_nonneg, H.
Qed.

Lemma shr_fexp_nonneg m e l :
  (0 <= m)%Z -> (0 <= shr_m (fst (shr_fexp prec emax m e l)))%Z.
Proof.
  intros H. unfold shr_fexp, shr.
  assert (H0 : (0 <= shr_m (shr_record_of_loc m l))%Z).
  { destruct l as [|[]]; exact H. }
  destruct (_ - e)%Z; cbn [fst]; auto using iter_shr_1_nonneg.
Qed.

Lemma round_nearest_even_nonneg m l :
  (0 <= m)%Z -> (0 <= round_nearest_even m l)%Z.
Proof.
  intros H. unfold round_nearest_even.
  destruct l as [|[]]; try destruct (Z.even m); lia.
Qed.

Lemma binary_round_aux_not_nan s m e l :
  (0 <= m)%Z -> binary_round_aux prec emax s m e l <> S754_nan.
Proof.
  intros H. unfold binary_round_aux.
  pose proof (@shr_fexp_nonneg m e l H) as H1.
  destruct (shr_fexp prec emax m e l) as [mrs' e']. cbn [fst] in H1.
  pose proof (@shr_fexp_nonneg _ e' loc_Exact
                (@round_nearest_even_nonneg _ (loc_of_shr_record mrs') H1)) as H2.
  destruct (shr_fexp prec emax _ e' loc_Exact) as [mrs'' e'']. cbn [fst] in H2.
  destruct (shr_m mrs'') as [|p|p]; [discriminate| |lia].
  destruct (e'' <=? emax - prec)%Z; discriminate.
Qed.

Lemma binary_normalize_not_nan m e s :
  binary_normalize prec emax m e s <> S754_nan.
Proof.
  unfold binary_normalize, binary_round.
  destruct m as [|p|p]; [discriminate| |];
    destruct (shl_align _ _ _) as [mz ez]; apply binary_round_aux_not_nan; lia.
Qed.

(** The difference of two finite numbers is a number. *)
Lemma SFsub_not_nan x y :
  Binary64.finite_value x -> Binary64.finite_value y ->
  SFsub prec emax x y <> S754_nan.
Proof.
  destruct x as [sx|sx| |sx mx ex], y as [sy|sy| |sy my ey]; cbn;
    try contradiction; intros _ _; try discriminate.
  - destruct sx, sy; discriminate.
  - apply binary_normalize_not_nan.
Qed.

Lemma SFcompare_antisym x y c :
  SFcompare x y = Some c -> SFcompare y x = Some (CompOpp c).
Proof.
  destruct x as [sx|sx| |sx mx ex], y as [sy|sy| |sy my ey]; cbn;
    try discriminate; intros [= <-]; try (destruct sx; reflexivity);
    try (destruct sy; reflexivity); try reflexivity.
  - destruct sx, sy; reflexivity.
  - destruct sx, sy; cbn; try reflexivity;
      change (Pos.compare_cont Eq mx my) with (mx ?= my)%positive;
      change (Pos.compare_cont Eq my mx) with (my ?= mx)%positive;
      rewrite (Z.compare_antisym ex ey), (Pos.compare_antisym mx my);
      destruct (ex ?= ey)%Z, (mx ?= my)%positive; reflexivity.
Qed.

Lemma SFcompare_numbers x y :
  x <> S754_nan -> y <> S754_nan -> exists c, SFcompare x y = Some c.
Proof.
  destruct x as [sx|sx| |sx mx ex], y as [sy|sy| |sy my ey]; cbn;
    intros Hx Hy; try congruence; eauto.
Qed.

(** Among numbers, "not at most" is "greater". *)
Lemma SFleb_false_SFltb x y :
  x <> S754_nan -> y <> S754_nan -> negb (SFleb x y) = SFltb y x.
Proof.
  intros Hx Hy. destruct (SFcompare_numbers Hx Hy) as [c Hc].
  unfold SFleb, SFltb. rewrite (SFcompare_antisym _ _ Hc), Hc.
  destruct c; reflexivity.
Qed.

End SpecFloatFacts.

Section DoubleFacts.

Import Binary64.

Local Open Scope float_scope.

(** A finite double is a zero or a signed mantissa and exponent. *)
Lemma isfinite_value x : isfinite x = true -> finite_value (Prim2SF x).
Proof.
  unfold isfinite, is_finite, is_nan, is_infinity.
  rewrite !FloatAxioms.eqb_spec, FloatAxioms.abs_spec.
  destruct (Prim2SF x) as [s|s| |s m e]; cbn; try discriminate; auto.
  destruct s; cbn; discriminate.
Qed.

(** With [rtol = 0] the bound of [np.isclose] against a finite number is
    [atol] itself. *)
Lemma tolerance_of_finite e :
  isfinite e = true -> atol + 0 * abs e = atol.
Proof.
  intros H. apply Prim2SF_inj.
  rewrite FloatAxioms.add_spec, FloatAxioms.mul_spec, FloatAxioms.abs_spec.
  apply isfinite_value in H.
  destruct (Prim2SF e) as [s|s| |s m x]; try contradiction; reflexivity.
Qed.

(** The absolute difference of two finite doubles is not at most [atol]
    exactly when it is greater than [atol]. *)
Lemma beyond_tolerance_finite t e :
  isfinite t = true -> isfinite e = true ->
  negb (PrimFloat.leb (abs (t - e)) atol) = PrimFloat.ltb atol (abs (t - e)).
Proof.
  intros Ht He.
  rewrite FloatAxioms.leb_spec, FloatAxioms.ltb_spec, FloatAxioms.abs_spec,
    FloatAxioms.sub_spec.
  apply SFleb_false_SFltb.
  - pose proof (@SFsub_not_nan FloatOps.prec FloatOps.emax _ _
                  (isfinite_value _ Ht) (isfinite_value _ He)) as H.
    unfold SF64sub.
    destruct (SFsub _ _ _ _); try discriminate. now elim H.
  - vm_compute. discriminate.
Qed.

(** The mismatch test of a record whose total and product are finite. *)
Lemma flagged_of_finite D (r : row D) :
  isfinite (total_price r) = true ->
  isfinite (quantity r * price_per_unit r) = true ->
  flagged r
  = negb (PrimFloat.leb
            (abs (total_price r - quantity r * price_per_unit r)) atol).
Proof.
  intros Ht He. unfold flagged, isclose.
  now rewrite Ht, He, (tolerance_of_finite _ He).
Qed.

(** For finite total and product: flagged exactly when the absolute
    difference is greater than 0.01. *)
Lemma flagged_beyond_tolerance D (r : row D) :
  isfinite (total_price r) = true ->
  isfinite (quantity r * price_per_unit r) = true ->
  flagged r
  = PrimFloat.ltb atol (abs (total_price r - quantity r * price_per_unit r)).
Proof.
  intros Ht He. rewrite (flagged_of_finite _ Ht He).
  now apply beyond_tolerance_finite.
Qed.

(** The mismatch test when the total or the product is not finite. *)
Lemma flagged_of_infinite D (r : row D) :
  isfinite (total_price r) && isfinite (quantity r * price_per_unit r) = false ->
  flagged r
  = negb (PrimFloat.eqb (total_price r) (quantity r * price_per_unit r)).
Proof. intros H. unfold flagged, isclose. now rewrite H. Qed.

End DoubleFacts.

(** ** Pass 5 in double precision *)

Section DoubleOutliers.

Import Binary64.

Variable D : Type.
Implicit Types (df : table D) (r : row D).

Lemma double_conflict_step (c : row D -> bool) (k : row D -> row D) df :
  (if mask_any (column c df)
   then print (Resolving_conflicts (mask_sum (column c df))) ;;;
        ret (loc_set (column c df) k df)
   else ret df)
  = ((if mask_any (column c df)
      then [Resolving_conflicts (mask_sum (column c df))] else []),
     Ok (map (fun r => if c r then k r else r) df)).
Proof.
  rewrite <- double_loc_set_column.
  destruct (mask_any (column c df)) eqn:E; [reflexivity|].
  now rewrite double_loc_set_none.
Qed.

(** The pass, read row by row. *)
Lemma double_outliers_in_sequence df :
  _handle_outliers df
  = (reconciler_log df (apply_rows round_row (map reconcile_in_sequence df)),
     apply_rows round_row (map reconcile_in_sequence df)).
Proof.
  unfold _handle_outliers, not_close. cbv zeta.
  fold (@flagged D).
  repeat rewrite double_mask_and_column.
  rewrite double_conflict_step, bind_print, bind_value.
  autorewrite with double_masks.
  rewrite double_select_column.
  match goal with
  | |- context [apply_rows round_row ?t] =>
      change t with (map (@reconcile_in_sequence D) df)
  end.
  unfold reconciler_log, lift.
  destruct (apply_rows round_row (map reconcile_in_sequence df)); reflexivity.
Qed.

(** The masks are disjoint: the sequence of assignments applies one rule. *)
Lemma double_reconcile_in_sequence r :
  reconcile_in_sequence r = reconcile_spec r.
Proof.
  unfold reconcile_in_sequence, reconcile_spec, quantity_suspicious,
    price_suspicious.
  destruct (flagged r) eqn:Ef; cbn [andb negb orb]; [|reflexivity].
  destruct (gt (quantity r) hundred) eqn:Eq,
           (gt (price_per_unit r) thousand) eqn:Ep;
    repeat (progress
      (cbn [andb negb orb quantity price_per_unit total_price set_quantity
            set_price_per_unit set_total_price];
       rewrite ?andb_false_r, ?andb_true_r, ?orb_true_r, ?orb_false_r, ?Eq, ?Ep));
    reflexivity.
Qed.

Lemma double_outliers_rowwise df :
  _handle_outliers df
  = (reconciler_log df (apply_rows round_row (map reconcile_spec df)),
     apply_rows round_row (map reconcile_spec df)).
Proof.
  rewrite double_outliers_in_sequence.
  now rewrite (map_ext _ _ double_reconcile_in_sequence).
Qed.

(** Each record returned is the rounding of the corrected record at the
    same position. *)
Lemma double_outliers_rows df out :
  returned (_handle_outliers df) = Ok out ->
  Forall2 (fun r r' => round_row (reconcile_spec r) = Ok r') df out.
Proof.
  rewrite double_outliers_rowwise. unfold returned, snd. intros H.
  apply apply_rows_Forall2 in H.
  remember (map reconcile_spec df) as cs eqn:Ecs.
  revert df Ecs. induction H as [|c r' cs out Hc H IH]; intros [|r df] Ecs;
    cbn in Ecs; try discriminate; constructor.
  - now injection Ecs as -> _.
  - injection Ecs as _ ->. now apply IH.
Qed.

Lemma double_reconcile_identity r : same_identity r (reconcile_spec r).
Proof.
  unfold reconcile_spec, same_identity.
  destruct (flagged r),
           (quantity_suspicious r && price_suspicious r)%bool,
           (quantity_suspicious r), (price_suspicious r);
    cbn; repeat split.
Qed.

Lemma double_round_row_identity r r' :
  round_row r = Ok r' -> same_identity r r'.
Proof.
  unfold round_row, same_identity.
  destruct (astype_Int64 _); [|discriminate].
  intros [= <-]. cbn. repeat split.
Qed.

(** A rule assigns one field. *)
Lemma double_reconcile_one_field r :
  at_most_one_field_differs r (reconcile_spec r).
Proof.
  unfold reconcile_spec, at_most_one_field_differs.
  destruct (flagged r); [|now left].
  destruct (quantity_suspicious r && price_suspicious r)%bool;
    [|destruct (quantity_suspicious r); [|destruct (price_suspicious r)]];
    cbn; auto.
Qed.

(** The rounding returns the record exactly when it fixes its three
    fields. *)
Lemma double_round_row_fixed r :
  round_row r = Ok r <-> fixed_by_rounding r.
Proof.
  unfold round_row, fixed_by_rounding. destruct r as [i c p n q u t d].
  cbn [quantity price_per_unit total_price set_quantity set_price_per_unit
       set_total_price transaction_id customer_id product_id product_name
       transaction_date].
  destruct (astype_Int64 (round 0 q)) as [q'|e]; split.
  - intros [= -> Hu Ht]. repeat split; assumption.
  - intros ([= ->] & -> & ->). reflexivity.
  - discriminate.
  - intros ([=] & _).
Qed.

End DoubleOutliers.

(** ** The missing-value repair in double precision: the claim *)

Section RepairClaims.

Import Binary64.

Local Open Scope float_scope.

Lemma double_repair_cases D (r : row D) :
  complete (repair_from_original r) = true ->
  (missing_count r <= 1)%nat
  /\ (missing_count r = 0%nat -> repair_from_original r = r)
  /\ (isna (total_price r) = true ->
      repair_from_original r
      = set_total_price (quantity r * price_per_unit r) r)
  /\ (isna (price_per_unit r) = true ->
      repair_from_original r
      = set_price_per_unit (total_price r / quantity r) r)
  /\ (isna (quantity r) = true ->
      repair_from_original r
      = set_quantity (total_price r / price_per_unit r) r).
Proof.
  destruct r as [i c p n q u t d].
  unfold complete, repair_from_original, missing_count, notna.
  cbn [quantity price_per_unit total_price].
  destruct (isna u) eqn:Eu, (isna q) eqn:Eq, (isna t) eqn:Et;
    cbn [quantity price_per_unit total_price set_quantity set_price_per_unit
         set_total_price];
    rewrite ?Eu, ?Eq, ?Et; cbn [negb andb Nat.add]; intros Hc;
    try discriminate Hc;
    repeat split; intros; try reflexivity; try discriminate; lia.
Qed.

(** C8, as stated, fails when the repair divides by zero: the record with a
    missing price, quantity 0 and total 5 survives the pass with an infinite
    price, and 0 x inf is not a number, let alone 5. *)
Lemma C8_relation_counterexample :
  missing_count Samples.price_missing_zero_quantity = 1%nat
  /\ returned (_handle_missing_values [Samples.price_missing_zero_quantity])
     = Ok [set_price_per_unit infinity Samples.price_missing_zero_quantity]
  /\ isna (quantity Samples.price_missing_zero_quantity * infinity) = true
  /\ ~ satisfies_relation
        (set_price_per_unit infinity Samples.price_missing_zero_quantity).
Proof.
  split; [reflexivity|]. split; [vm_compute; reflexivity|].
  split; [vm_compute; reflexivity|].
  unfold satisfies_relation. intros H.
  apply (f_equal isna) in H. vm_compute in H. discriminate H.
Qed.

(** C8, amended.  Every record that survives the missing-value pass has its
    three fields and comes from a record with at least two of them
    originally present.  A record with all three present is passed on as it
    is.  When one was missing it is the value of its repair formula on the
    two original fields, computed in double precision: a repaired
    total_price is quantity x price_per_unit, so that the relation holds
    exactly; a repaired price_per_unit is total_price / quantity and a
    repaired quantity is total_price / price_per_unit, the doubles nearest to
    the quotients, whatever the divisor. *)
Theorem C8_survivors_satisfy_relation (D : Type) (df out : table D) :
  returned (_handle_missing_values df) = Ok out ->
  forall r', In r' out ->
  complete r' = true
  /\ exists r,
      In r df /\ r' = repair_from_original r
      /\ (missing_count r <= 1)%nat
      /\ (missing_count r = 0%nat -> r' = r)
      /\ (isna (total_price r) = true ->
          r' = set_total_price (quantity r * price_per_unit r) r
          /\ satisfies_relation r')
      /\ (isna (price_per_unit r) = true ->
          r' = set_price_per_unit (total_price r / quantity r) r)
      /\ (isna (quantity r) = true ->
          r' = set_quantity (total_price r / price_per_unit r) r).
Proof.
  rewrite double_missing_values_returns. intros [= <-] r' Hin.
  unfold missing_value_repair_spec in Hin.
  apply filter_In in Hin as [Hin Hc].
  apply in_map_iff in Hin as (r & <- & Hr).
  split; [exact Hc|].
  exists r. split; [assumption|]. split; [reflexivity|].
  destruct (double_repair_cases _ Hc) as (H1 & H0 & Ht & Hp & Hq).
  repeat split; auto.
  rewrite (Ht H). reflexivity.
Qed.

(** The repaired price of the sample record is 200 / 2 = 100. *)
Lemma C8_survivors_satisfy_relation_witness :
  exists r,
    In r [Samples.price_missing]
    /\ set_price_per_unit 100 Samples.price_missing = repair_from_original r
    /\ (missing_count r <= 1)%nat.
Proof.
  assert (Hrun : returned (_handle_missing_values [Samples.price_missing])
                 = Ok [set_price_per_unit 100 Samples.price_missing])
    by (vm_compute; reflexivity).
  destruct (C8_survivors_satisfy_relation Hrun
              (set_price_per_unit 100 Samples.price_missing)
              (or_introl eq_refl))
    as (_ & r & Hin & Heq & Hone & _).
  exists r. auto.
Defined.

(** With a finite divisor that is not zero the relation can still fail in
    the last digit: the price repaired from 3 and 123.45 is 41.15, and
    3 x 41.15 is 123.44999999999999 in double precision. *)
Lemma repaired_price_not_exact :
  returned (_handle_missing_values [Samples.price_missing_thirds])
  = Ok [set_price_per_unit 41.15 Samples.price_missing_thirds]
  /\ 3 * 41.15 = 123.44999999999999
  /\ PrimFloat.eqb 123.45 (3 * 41.15) = false.
Proof. repeat apply conj; vm_compute; reflexivity. Qed.

End RepairClaims.

(** ** The reconciler in double precision: the claims *)

Section ReconcilerClaims.

Import Binary64.

Local Open Scope float_scope.

(** C2, as stated, fails: three units at 0.33 for a total of 1.00 differ
    from 0.99 by one cent, and by less than 0.01 when the three doubles are
    taken for the numbers they stand for; the pass flags the record all the
    same, the difference rounded to a double being 0.010000000000000009, and
    rewrites the total to 0.99. *)
Lemma C2_flag_counterexample :
  within_exact_tolerance Samples.one_cent_off = true
  /\ flagged Samples.one_cent_off = true
  /\ total_price Samples.one_cent_off
     - quantity Samples.one_cent_off * price_per_unit Samples.one_cent_off
     = 0.010000000000000009
  /\ returned (_handle_outliers [Samples.one_cent_off])
     = Ok [set_total_price 0.99 Samples.one_cent_off].
Proof. repeat apply conj; vm_compute; reflexivity. Qed.

(** C2, amended.  A record is flagged exactly when, total_price and the
    product quantity x price_per_unit being finite, the absolute difference
    of the two, product and difference computed in double precision, is
    greater than 0.01 (the double nearest to it), and, one of them not being
    finite, when they are not equal.  The pass returns, for
    every table, the rounding of the table in which each flagged record has
    been corrected by the one rule its magnitudes select (both large:
    quantity = total / price; only the quantity large: the same; only the
    price large: price = total / quantity; otherwise total = quantity x
    price) and each other record is as it was.  The mismatches that remain
    after rounding are counted in the log and left in the table, and the
    table returned has as many rows as the table received. *)
Theorem C2_reconciler_rules (D : Type) (df : table D) :
  (forall r : row D,
      isfinite (total_price r) = true ->
      isfinite (quantity r * price_per_unit r) = true ->
      (flagged r = true
       <-> PrimFloat.ltb atol
             (abs (total_price r - quantity r * price_per_unit r)) = true))
  /\ (forall r : row D,
        isfinite (total_price r) && isfinite (quantity r * price_per_unit r)
        = false ->
        (flagged r = true
         <-> PrimFloat.eqb (total_price r) (quantity r * price_per_unit r)
             = false))
  /\ (forall r : row D,
        flagged r = true ->
        reconcile_spec r
        = if quantity_suspicious r && price_suspicious r
          then set_quantity (total_price r / price_per_unit r) r
          else if quantity_suspicious r
          then set_quantity (total_price r / price_per_unit r) r
          else if price_suspicious r
          then set_price_per_unit (total_price r / quantity r) r
          else set_total_price (quantity r * price_per_unit r) r)
  /\ (forall r : row D, flagged r = false -> reconcile_spec r = r)
  /\ _handle_outliers df
     = (reconciler_log df (apply_rows round_row (map reconcile_spec df)),
        apply_rows round_row (map reconcile_spec df))
  /\ (forall out,
        returned (_handle_outliers df) = Ok out ->
        List.length out = List.length df
        /\ Forall2 (fun r r' => round_row (reconcile_spec r) = Ok r') df out
        /\ exists before,
            printed (_handle_outliers df)
            = before ++ [Remaining_mismatches (List.length (filter flagged out));
                         Removed_outliers 0])
  /\ ((forall r, In r df -> exists r', round_row (reconcile_spec r) = Ok r') ->
      exists out, returned (_handle_outliers df) = Ok out).
Proof.
  split.
  { intros r Ht He. now rewrite (flagged_beyond_tolerance _ Ht He). }
  split.
  { intros r H. rewrite (flagged_of_infinite _ H).
    destruct (PrimFloat.eqb _ _); cbn; split; congruence. }
  split; [intros r Hf; unfold reconcile_spec; now rewrite Hf|].
  split; [intros r Hf; unfold reconcile_spec; now rewrite Hf|].
  split; [apply double_outliers_rowwise|].
  split.
  2:{ intros Hall. rewrite double_outliers_rowwise. unfold returned, snd.
      apply apply_rows_returns. intros c Hc.
      apply in_map_iff in Hc as (r & <- & Hr). now apply Hall. }
  intros out Hout. pose proof (double_outliers_rows _ Hout) as Hrows.
  revert Hout.
  rewrite double_outliers_rowwise. unfold returned, printed, fst, snd.
  intros H. rewrite H.
  pose proof (apply_rows_length _ _ H) as Hlen. rewrite length_map in Hlen.
  split; [exact Hlen|]. split; [exact Hrows|].
  unfold reconciler_log.
  eexists (Found_mismatches _ :: (if mask_any _ then _ else _)).
  cbn [app]. f_equal. f_equal. rewrite Hlen, Nat.sub_diag.
  now rewrite mask_sum_column.
Qed.

(** The reconciler examples of the specification: 150 x 1500 against a total
    of 300 gives the quantity 300/1500, rounded to 0; 150 x 10 against 1000
    gives the quantity 1000/10 = 100. *)
Lemma C2_reconciler_rules_witness :
  flagged Samples.both_large = true
  /\ returned (_handle_outliers [Samples.both_large; Samples.quantity_large])
     = Ok [set_quantity 0 Samples.both_large;
           set_quantity 100 Samples.quantity_large].
Proof.
  destruct (C2_reconciler_rules [Samples.both_large; Samples.quantity_large])
    as (Hflag & _ & _ & _ & Hrun & _ & _).
  split.
  - apply Hflag; vm_compute; reflexivity.
  - rewrite Hrun. vm_compute. reflexivity.
Defined.

(** C3, as stated, fails in four ways.  A record that is not flagged loses
    the fraction of its quantity in the rounding step.  A flagged record
    can leave the pass with none of its three fields changed, when the
    recomputed quantity rounds back to the old one, or when the quotient
    the rule writes is, in double precision, the quantity the record had.
    A flagged record can leave it with two fields changed, when the
    rounding touches a field the rule did not. *)
Lemma C3_one_field_counterexample :
  (flagged Samples.fractional_quantity = false
   /\ returned (_handle_outliers [Samples.fractional_quantity])
      = Ok [set_quantity 2 Samples.fractional_quantity]
   /\ PrimFloat.eqb 2 (quantity Samples.fractional_quantity) = false)
  /\ (flagged Samples.rounds_back = true
      /\ returned (_handle_outliers [Samples.rounds_back])
         = Ok [Samples.rounds_back])
  /\ (flagged Samples.same_quotient = true
      /\ reconcile_spec Samples.same_quotient = Samples.same_quotient
      /\ returned (_handle_outliers [Samples.same_quotient])
         = Ok [Samples.same_quotient])
  /\ (flagged Samples.fine_price = true
      /\ returned (_handle_outliers [Samples.fine_price])
         = Ok [set_total_price 20.02
                 (set_price_per_unit 10.01 Samples.fine_price)]
      /\ PrimFloat.eqb 10.01 (price_per_unit Samples.fine_price) = false
      /\ PrimFloat.eqb 20.02 (total_price Samples.fine_price) = false).
Proof. repeat apply conj; vm_compute; reflexivity. Qed.

(** C3, amended.  Every record the pass returns is the rounding of the
    record its rule has corrected.  The rule assigns one of quantity,
    price_per_unit and total_price of a flagged record, so that at most one
    of the three differs before the rounding, and a record that is not
    flagged goes to the rounding as it is.  The rounding is applied to the
    three fields of every record, flagged or not: a record that is not
    flagged leaves the pass as it entered it exactly when the rounding
    changes none of its three fields.  The other columns are never
    changed. *)
Theorem C3_one_field_before_rounding (D : Type) (df out : table D) :
  returned (_handle_outliers df) = Ok out ->
  Forall2 (fun r r' =>
             round_row (reconcile_spec r) = Ok r'
             /\ same_identity r r'
             /\ at_most_one_field_differs r (reconcile_spec r)
             /\ (flagged r = false -> reconcile_spec r = r)
             /\ (flagged r = false -> (r' = r <-> fixed_by_rounding r)))
          df out.
Proof.
  intros H. apply double_outliers_rows in H.
  eapply Forall2_impl; [|exact H].
  intros r r' Hr. cbv beta in Hr |- *.
  split; [exact Hr|]. split.
  { destruct (double_reconcile_identity r) as (H1 & H2 & H3 & H4 & H5).
    destruct (double_round_row_identity _ Hr) as (G1 & G2 & G3 & G4 & G5).
    unfold same_identity. repeat split; congruence. }
  split; [apply double_reconcile_one_field|].
  assert (Hsame : flagged r = false -> reconcile_spec r = r).
  { intros Hf. unfold reconcile_spec. now rewrite Hf. }
  split; [exact Hsame|].
  intros Hf. rewrite (Hsame Hf) in Hr.
  rewrite <- double_round_row_fixed. split.
  - intros ->. exact Hr.
  - intros Hfix. congruence.
Qed.

(** On a mismatch of 2 x 10 against 50, followed by the record with a
    fractional quantity: the total of the first becomes 20, the second,
    which is not flagged, loses the fraction. *)
Lemma C3_one_field_before_rounding_witness :
  Forall2 (fun r r' => round_row (reconcile_spec r) = Ok r'
                       /\ at_most_one_field_differs r (reconcile_spec r))
          [Samples.paid_50; Samples.fractional_quantity]
          [set_total_price 20 Samples.paid_50;
           set_quantity 2 Samples.fractional_quantity].
Proof.
  assert (Hrun : returned (_handle_outliers
                             [Samples.paid_50; Samples.fractional_quantity])
                 = Ok [set_total_price 20 Samples.paid_50;
                       set_quantity 2 Samples.fractional_quantity])
    by (vm_compute; reflexivity).
  eapply Forall2_impl; [|exact (C3_one_field_before_rounding _ Hrun)].
  intros r r' (H1 & _ & H2 & _). auto.
Defined.

End ReconcilerClaims.

(** ** Records within the thresholds *)

Section WithinThresholds.

Import Binary64.

Variable D : Type.
Implicit Types (r : row D) (df : table D).

Lemma reconcile_within_thresholds r :
  within_thresholds r -> reconcile_spec r = total_recomputed r.
Proof.
  intros [Hq Hp]. unfold reconcile_spec, total_recomputed.
  now rewrite Hq, Hp.
Qed.

Lemma no_conflict_within_thresholds df :
  Forall within_thresholds df ->
  mask_any (column (fun r => flagged r && quantity_suspicious r
                             && price_suspicious r) df) = false.
Proof.
  unfold mask_any, column.
  induction 1 as [|r df [Hq _] H IH]; cbn [map existsb]; [reflexivity|].
  now rewrite Hq, andb_false_r, IH.
Qed.

End WithinThresholds.

(** X10.  On a table in which no quantity exceeds 100 and no price exceeds
    1000 the reconciler assigns no quantity and no price: it reports no
    conflict, gives each flagged record the total quantity x
    price_per_unit, computed in double precision, leaves the other records
    as they are, and rounds. *)
Theorem X10_only_totals_recomputed (D : Type) (df : Binary64.table D) :
  Forall Binary64.within_thresholds df ->
  Binary64._handle_outliers df
  = (Found_mismatches (List.length (filter Binary64.flagged df))
       :: match apply_rows Binary64.round_row
                  (map Binary64.total_recomputed df) with
          | Ok out =>
              [Remaining_mismatches (List.length (filter Binary64.flagged out));
               Removed_outliers 0]
          | Raise _ => []
          end,
     apply_rows Binary64.round_row (map Binary64.total_recomputed df))
  /\ (forall r, In r df -> Binary64.flagged r = true ->
        Binary64.total_recomputed r
        = Binary64.set_total_price
            (PrimFloat.mul (Binary64.quantity r) (Binary64.price_per_unit r)) r
        /\ Binary64.satisfies_relation (Binary64.total_recomputed r))
  /\ (forall r, In r df -> Binary64.flagged r = false ->
        Binary64.total_recomputed r = r).
Proof.
  intros Hdf. split; [|split].
  - rewrite double_outliers_rowwise.
    assert (E : map Binary64.reconcile_spec df
                = map Binary64.total_recomputed df).
    { apply map_ext_in. intros r Hr. rewrite Forall_forall in Hdf.
      apply reconcile_within_thresholds. now apply Hdf. }
    rewrite E. unfold Binary64.reconciler_log.
    rewrite (no_conflict_within_thresholds Hdf). cbn [app].
    destruct (apply_rows Binary64.round_row (map Binary64.total_recomputed df))
      as [out|e] eqn:Eout; [|reflexivity].
    apply apply_rows_length in Eout. rewrite length_map in Eout.
    now rewrite Eout, Nat.sub_diag, mask_sum_column.
  - intros r _ Hf. unfold Binary64.total_recomputed, Binary64.satisfies_relation.
    rewrite Hf. split; reflexivity.
  - intros r _ Hf. unfold Binary64.total_recomputed. now rewrite Hf.
Qed.

(** Three units at 0.33 for a total of 1.00: the total becomes 0.99. *)
Lemma X10_only_totals_recomputed_witness :
  returned (Binary64._handle_outliers [Binary64.Samples.one_cent_off])
  = Ok [Binary64.set_total_price 0.99%float Binary64.Samples.one_cent_off].
Proof.
  assert (Hdf : Forall Binary64.within_thresholds
                       [Binary64.Samples.one_cent_off]).
  { constructor; [|constructor]. split; vm_compute; reflexivity. }
  rewrite (proj1 (X10_only_totals_recomputed Hdf)).
  vm_compute. reflexivity.
Defined.
